(** * pdfremediator: structure tagging and compliance rules

    A shallow embedding of the classification, validation, heading
    normalisation, structure-tree tagging and scoring code of
    [pdf_remediator.py], [pdf_processor.py] and [accessibility_checker.py],
    with the properties of the specification stated over it. *)

From Stdlib Require Import ZArith QArith Qround Bool List Arith Lia.
From Stdlib Require Import Strings.String Strings.Ascii.
From Stdlib Require Import Numbers.DecimalString.
From Stdlib Require Import Floats.SpecFloat.
Import ListNotations.

Local Close Scope Q_scope.
Local Open Scope nat_scope.
Local Open Scope string_scope.

(** ** Python strings

    A Python [str] is modelled as a [string] of characters read as the code
    points U+0000..U+007F; the methods below follow CPython on that range
    and leave every other character as it is.  Text with other characters
    is outside the model: there [str.lower] can change the length of a text
    and [str.strip] removes white space that is not ASCII.
    [isascii] says that a text is inside. *)

Module PyStr.

(** [str.isspace] on one character: TAB..CR, FS..US and the space. *)
Definition isspace (c : ascii) : bool :=
  let n := nat_of_ascii c in
  ((9 <=? n) && (n <=? 13) || (28 <=? n) && (n <=? 32))%nat.

Definition isupper (c : ascii) : bool :=
  let n := nat_of_ascii c in ((65 <=? n) && (n <=? 90))%nat.

Definition islower (c : ascii) : bool :=
  let n := nat_of_ascii c in ((97 <=? n) && (n <=? 122))%nat.

Definition lower_char (c : ascii) : ascii :=
  if isupper c then ascii_of_nat (nat_of_ascii c + 32) else c.

Definition upper_char (c : ascii) : ascii :=
  if islower c then ascii_of_nat (nat_of_ascii c - 32) else c.

(** [s.lower()] *)
Fixpoint lower (s : string) : string :=
  match s with
  | EmptyString => EmptyString
  | String c r => String (lower_char c) (lower r)
  end.

(** [s.lstrip()] *)
Fixpoint lstrip (s : string) : string :=
  match s with
  | EmptyString => EmptyString
  | String c r => if isspace c then lstrip r else s
  end.

(** [s.rstrip()] *)
Fixpoint rstrip (s : string) : string :=
  match s with
  | EmptyString => EmptyString
  | String c r =>
      match rstrip r with
      | EmptyString => if isspace c then EmptyString else String c EmptyString
      | r' => String c r'
      end
  end.

(** [s.strip()] *)
Definition strip (s : string) : string := rstrip (lstrip s).

(** [s.startswith(p)] *)
Definition startswith (s p : string) : bool := String.prefix p s.

(** [s.startswith((p1, ..., pn))] *)
Definition startswith_any (s : string) (ps : list string) : bool :=
  existsb (startswith s) ps.

(** [x in xs] for a list of strings *)
Definition mem (x : string) (xs : list string) : bool :=
  existsb (String.eqb x) xs.

(** [not s] *)
(** [str.isascii]: every character is one of U+0000..U+007F; on such text
    the methods above are the ones of CPython. *)
Definition isascii (s : string) : bool :=
  forallb (fun c => (nat_of_ascii c <? 128)%nat) (list_ascii_of_string s).

Definition is_empty (s : string) : bool :=
  match s with EmptyString => true | _ => false end.

(** [s.replace(a, b)] for single characters [a] and [b] *)
Fixpoint replace_char (a b : ascii) (s : string) : string :=
  match s with
  | EmptyString => EmptyString
  | String c r => String (if Ascii.eqb c a then b else c) (replace_char a b r)
  end.

(** [s.title()]: a cased character is upper-cased when the character before
    it is not cased and lower-cased when it is. *)
Fixpoint title_from (previous_is_cased : bool) (s : string) : string :=
  match s with
  | EmptyString => EmptyString
  | String c r =>
      if islower c then
        String (if previous_is_cased then c else upper_char c) (title_from true r)
      else if isupper c then
        String (if previous_is_cased then lower_char c else c) (title_from true r)
      else String c (title_from false r)
  end.

Definition title (s : string) : string := title_from false s.

(** [s.split(sep)[0]] for a single character [sep] *)
Fixpoint split_first (sep : ascii) (s : string) : string :=
  match s with
  | EmptyString => EmptyString
  | String c r => if Ascii.eqb c sep then EmptyString else String c (split_first sep r)
  end.

(** [str(n)] for a natural number and for an integer *)
Definition of_nat (n : nat) : string := NilEmpty.string_of_uint (Nat.to_uint n).
Definition of_Z (z : Z) : string := NilEmpty.string_of_int (Z.to_int z).

(** [re.sub(r'https?://', '', s)]: every match is removed, scanning from the
    left; [skip] counts the characters of the current match still to drop. *)
Fixpoint sub_scheme_from (skip : nat) (s : string) : string :=
  match s with
  | EmptyString => EmptyString
  | String c r =>
      match skip with
      | S k => sub_scheme_from k r
      | O =>
          if String.prefix "https://" s then sub_scheme_from 7 r
          else if String.prefix "http://" s then sub_scheme_from 6 r
          else String c (sub_scheme_from 0 r)
      end
  end.

Definition sub_scheme (s : string) : string := sub_scheme_from 0 s.

(** [re.sub(r'^www\.', '', s)] *)
Definition sub_www (s : string) : string :=
  if String.prefix "www." s then String.substring 4 (String.length s - 4) s else s.

(** [d.get(k, dflt)] for a dictionary of strings *)
Fixpoint dict_get (d : list (string * string)) (k dflt : string) : string :=
  match d with
  | [] => dflt
  | (k', v) :: r => if String.eqb k k' then v else dict_get r k dflt
  end.

End PyStr.

(** ** Python floats

    IEEE 754 binary64 through the executable specification of the standard
    library ([SpecFloat]).  [int / int] rounds the exact quotient of the two
    integers once, to the nearest binary64 with ties to even, whatever
    their size: [true_div] hands the integers themselves to [SFdiv] as
    mantissas with exponent 0, so that no operand is rounded before the
    division.  A quotient beyond the range of binary64, where Python raises
    [OverflowError], is infinite here.  [of_Z] converts an integer with
    round-to-nearest-even, as [float * int] does; it is exact below 2^53. *)

Module B64.

Definition prec : Z := 53.
Definition emax : Z := 1024.

Definition of_Z (z : Z) : spec_float := binary_normalize prec emax z 0 false.
Definition mul (x y : spec_float) : spec_float := SFmul prec emax x y.

(** An integer as mantissa and sign, not rounded *)
Definition of_int (z : Z) : spec_float :=
  match z with
  | Z0 => S754_zero false
  | Zpos p => S754_finite false p 0
  | Zneg p => S754_finite true p 0
  end.

(** [a / b] for two integers, [b] not 0 *)
Definition true_div (a b : Z) : spec_float := SFdiv prec emax (of_int a) (of_int b).

(** A decimal literal [m * 10^-k], as [0.05] is 5 * 10^-2: the binary64
    nearest to it *)
Definition of_decimal (m : Z) (k : nat) : spec_float := true_div m (10 ^ Z.of_nat k).

Definition ltb (x y : spec_float) : bool := SFltb x y.

(** [int(x)]: truncation toward zero; [None] where Python raises
    (infinities and NaN). *)
Definition to_int (x : spec_float) : option Z :=
  match x with
  | S754_zero _ => Some 0%Z
  | S754_finite s m e =>
      let a := (if 0 <=? e then Z.pos m * 2 ^ e else Z.pos m / 2 ^ (- e))%Z in
      Some (if s then (- a)%Z else a)
  | S754_infinity _ | S754_nan => None
  end.

End B64.

(** ** [ImageInfo] *)

Module ImageInfo.

Record t := mk {
  name : string;
  width : Z;
  height : Z;
  page_number : nat;
  is_decorative : bool;
  alt_text : string
}.

(** [ImageInfo.determine_if_decorative]; the quotient is a binary64 number
    and the two comparisons are made on it. *)
Definition determine_if_decorative (self : t) : bool :=
  if ((width self <? 20) || (height self <? 20))%Z then true
  else
    let aspect_ratio :=
      if (0 <? height self)%Z then B64.true_div (width self) (height self)
      else B64.of_Z 0 in
    if B64.ltb (B64.of_Z 20) aspect_ratio || B64.ltb aspect_ratio (B64.of_decimal 5 2)
    then true
    else if (width self * height self <? 400)%Z then true
    else false.

End ImageInfo.

(** ** [LinkInfo] *)

Module LinkInfo.

Record t := mk {
  text : string;
  url : string;
  page_number : nat;
  is_descriptive : bool
}.

Definition generic_phrases : list string :=
  ["click here"; "read more"; "more"; "link"; "here";
   "this"; "page"; "website"; "download"; "view"].

(** [LinkInfo.is_generic_link_text] *)
Definition is_generic_link_text (self : t) : bool :=
  let text_lower := PyStr.strip (PyStr.lower (text self)) in
  PyStr.mem text_lower generic_phrases || (String.length text_lower <? 3)%nat.

End LinkInfo.

(** ** The alt-text validator *)

Definition alt_generic_phrases : list string :=
  ["image"; "picture"; "photo"; "graphic"; "icon"; "logo"; "diagram";
   "illustration"; "figure"; "chart"; "graph"; "screenshot"; "placeholder"].

(** [EnhancedPDFRemediator._validate_alt_text_for_content]; the parameter
    [element_type] is not read by the body. *)
Definition _validate_alt_text_for_content (alt_text : string) (element_type : string) : bool :=
  if PyStr.is_empty alt_text || String.eqb (PyStr.strip alt_text) "" then false
  else
    let alt_lower := PyStr.strip (PyStr.lower alt_text) in
    if PyStr.mem alt_lower alt_generic_phrases then false
    else if PyStr.startswith_any alt_lower ["image of"; "picture of"; "photo of"; "graphic of"]
            && (String.length alt_lower <? 20)%nat then false
    else if (String.length (PyStr.strip alt_text) <? 10)%nat then false
    else true.

(** [EnhancedPDFRemediator._generate_link_description] *)
Definition _generate_link_description (url : string) : string :=
  let url := PyStr.sub_scheme url in
  let url := PyStr.sub_www url in
  let domain := PyStr.split_first "/" url in
  let domain := PyStr.replace_char "_" " " (PyStr.replace_char "-" " " domain) in
  "Link to " ++ domain.

(** [EnhancedPDFRemediator._generate_alt_text] *)
Definition _generate_alt_text (img_info : ImageInfo.t) (page_num : nat) : string :=
  let aspect_ratio :=
    if (0 <? ImageInfo.height img_info)%Z
    then B64.true_div (ImageInfo.width img_info) (ImageInfo.height img_info)
    else B64.of_Z 1 in
  if B64.ltb (B64.of_Z 2) aspect_ratio then
    "Horizontal diagram or illustration (page " ++ PyStr.of_nat page_num
      ++ "). Review and update with actual content description."
  else if B64.ltb aspect_ratio (B64.of_decimal 5 1) then
    "Vertical graphic (page " ++ PyStr.of_nat page_num
      ++ "). Review and update with actual content description."
  else if ((400 <? ImageInfo.width img_info) && (400 <? ImageInfo.height img_info))%Z then
    "Figure or photograph (page " ++ PyStr.of_nat page_num
      ++ "). Review and update with description of what image depicts."
  else
    "Graphic element (page " ++ PyStr.of_nat page_num
      ++ "). Review and update with actual content or purpose.".

(** ** The parsed HTML document, as far as its headings go

    [find_all(['h1', ..., 'h6'])] lists the headings in document order;
    [main.insert(0, h)] puts [h] at the start of the first [main] element.
    The document is therefore kept as the headings that start before the
    first [main] element and, when there is one, the headings inside or
    after it. *)

Module Soup.

Record heading := mk_heading {
  level : nat;             (* the digit of the tag name h1..h6 *)
  strings : list string    (* the text nodes below the heading *)
}.

Record t := mk {
  before_main : list heading;
  main : option (list heading)
}.

Definition main_headings (soup : t) : list heading :=
  match main soup with Some hs => hs | None => [] end.

(** [soup.find_all(['h1', 'h2', 'h3', 'h4', 'h5', 'h6'])] *)
Definition find_all_headings (soup : t) : list heading :=
  before_main soup ++ main_headings soup.

(** [h.get_text(strip=True)]: the stripped text nodes that are not empty,
    joined without a separator. *)
Definition get_text_strip (h : heading) : string :=
  String.concat "" (filter (fun s => negb (PyStr.is_empty s)) (map PyStr.strip (strings h))).

Definition levels (soup : t) : list nat := map level (find_all_headings soup).

Definition set_level (h : heading) (l : nat) : heading :=
  mk_heading l (strings h).

(** [soup.new_tag('h1')] with [h1.string = 'Document'] *)
Definition new_document_h1 : heading := mk_heading 1 ["Document"].

(** [main.insert(0, h)] *)
Definition main_insert0 (soup : t) (h : heading) : t :=
  match main soup with
  | Some hs => mk (before_main soup) (Some (h :: hs))
  | None => soup
  end.

(** [first_heading.name = 'h1'] for the first heading of the document *)
Definition rename_first (soup : t) (l : nat) : t :=
  match before_main soup with
  | h :: r => mk (set_level h l :: r) (main soup)
  | [] =>
      match main soup with
      | Some (h :: r) => mk [] (Some (set_level h l :: r))
      | _ => soup
      end
  end.

End Soup.

(** ** [PDFProcessor.fix_heading_hierarchy] *)

Module PDFProcessor.

Import Soup.

(** The loop over the headings: [last_level] is threaded through, a heading
    more than one level below [last_level] is renamed. *)
Fixpoint clamp_levels (last_level : nat) (hs : list heading) : list heading * nat :=
  match hs with
  | [] => ([], last_level)
  | h :: r =>
      let current_level := level h in
      if (last_level + 1 <? current_level)%nat then
        let (r', l') := clamp_levels (last_level + 1) r in
        (set_level h (last_level + 1) :: r', l')
      else
        let (r', l') := clamp_levels current_level r in
        (h :: r', l')
  end.

Definition clamp_soup (soup : t) : t :=
  let (b, l) := clamp_levels 1 (before_main soup) in
  match main soup with
  | Some hs => mk b (Some (fst (clamp_levels l hs)))
  | None => mk b None
  end.

Definition fix_heading_hierarchy (soup : t) : t :=
  match find_all_headings soup with
  | [] =>
      (* add a default h1 if no headings exist *)
      main_insert0 soup new_document_h1
  | first_heading :: _ =>
      let soup :=
        if negb (level first_heading =? 1)%nat then
          match main soup with
          | Some _ =>
              if (String.length (get_text_strip first_heading) <? 100)%nat
              then rename_first soup 1
              else main_insert0 soup new_document_h1
          | None => soup
          end
        else soup in
      clamp_soup soup
  end.

End PDFProcessor.

(** ** [AccessibilityChecker] *)

Module AccessibilityChecker.

(** An issue or warning record; the static remediation text is left out. *)
Record issue := mk_issue {
  guideline : string;
  guideline_name : string;
  title : string;
  description : string;
  severity : string;
  level : string;
  type : string
}.

Record passed_check := mk_passed {
  p_guideline : string;
  p_guideline_name : string;
  p_title : string
}.

Record t := mk {
  issues : list issue;
  warnings : list issue;
  passed_checks : list passed_check
}.

Definition wcag_guidelines : list (string * string) :=
  [("1.1.1", "Non-text Content (Level A)");
   ("1.3.1", "Info and Relationships (Level A)");
   ("1.3.2", "Meaningful Sequence (Level A)");
   ("1.4.3", "Contrast (Minimum) (Level AA)");
   ("2.1.1", "Keyboard (Level A)");
   ("2.4.1", "Bypass Blocks (Level A)");
   ("2.4.2", "Page Titled (Level A)");
   ("2.4.4", "Link Purpose (In Context) (Level A)");
   ("2.4.6", "Headings and Labels (Level AA)");
   ("3.1.1", "Language of Page (Level A)");
   ("3.1.2", "Language of Parts (Level AA)");
   ("4.1.2", "Name, Role, Value (Level A)")].

Definition add_issue (self : t) (guideline title description severity issue_type : string) : t :=
  let i := mk_issue guideline (PyStr.dict_get wcag_guidelines guideline "Unknown")
             title description severity
             (if PyStr.mem guideline ["1.4.3"; "2.4.6"; "3.1.2"] then "AA" else "A")
             issue_type in
  if String.eqb severity "error"
  then mk (issues self ++ [i]) (warnings self) (passed_checks self)
  else mk (issues self) (warnings self ++ [i]) (passed_checks self).

Definition add_passed_check (self : t) (guideline title : string) : t :=
  mk (issues self) (warnings self)
     (passed_checks self ++ [mk_passed guideline (PyStr.dict_get wcag_guidelines guideline "Unknown") title]).

(** The loop of [check_heading_hierarchy] that collects the skipped levels. *)
Fixpoint skipped_levels_from (last_level : nat) (hs : list Soup.heading) : list string :=
  match hs with
  | [] => []
  | h :: r =>
      let current_level := Soup.level h in
      (if (0 <? last_level)%nat && (last_level + 1 <? current_level)%nat
       then ["h" ++ PyStr.of_nat last_level ++ " to h" ++ PyStr.of_nat current_level]
       else [])
      ++ skipped_levels_from current_level r
  end.

(** [set(xs)], listed in the order of first occurrence (Python leaves the
    order of a set unspecified). *)
Fixpoint set_of (xs : list string) : list string :=
  match xs with
  | [] => []
  | x :: r => x :: filter (fun y => negb (String.eqb x y)) (set_of r)
  end.

Definition check_heading_hierarchy (self : t) (soup : Soup.t) : t :=
  match Soup.find_all_headings soup with
  | [] =>
      add_issue self "2.4.6" "No Headings Found"
        "The document does not contain any headings." "error" "missing_headings"
  | (first_heading :: _) as headings =>
      let self :=
        if negb (Soup.level first_heading =? 1)%nat then
          add_issue self "2.4.6" "First Heading is Not H1"
            ("The first heading is H" ++ PyStr.of_nat (Soup.level first_heading) ++ ", not H1.")
            "error" "wrong_first_heading"
        else self in
      let skipped_levels := skipped_levels_from 0 headings in
      let self :=
        match skipped_levels with
        | _ :: _ =>
            add_issue self "1.3.1" "Skipped Heading Levels"
              ("Heading levels are skipped: " ++ String.concat ", " (set_of skipped_levels))
              "error" "skipped_heading_levels"
        | [] => add_passed_check self "2.4.6" "Heading hierarchy is logical (no skipped levels)"
        end in
      let empty_headings :=
        filter (fun h => PyStr.is_empty (Soup.get_text_strip h)) headings in
      match empty_headings with
      | _ :: _ =>
          add_issue self "2.4.6" "Empty Headings Found"
            ("Found " ++ PyStr.of_nat (List.length empty_headings) ++ " empty heading(s).")
            "error" "unknown"
      | [] => add_passed_check self "2.4.6" "All headings contain text"
      end
  end.

Record summary := mk_summary { status : string }.

Record report := mk_report {
  compliance_score : option Z;
  passes_wcag : bool;
  total_checks : nat;
  passed_count : nat;
  issues_count : nat;
  warnings_count : nat;
  report_summary : option summary
}.

(** [int((passed_count / total_checks) * 100)] *)
Definition score_of (passed_count total_checks : nat) : option Z :=
  if (0 <? total_checks)%nat then
    B64.to_int (B64.mul (B64.true_div (Z.of_nat passed_count) (Z.of_nat total_checks))
                        (B64.of_Z 100))
  else Some 0%Z.

Definition generate_summary (passes_wcag : bool) (compliance_score : Z) : summary :=
  if passes_wcag then mk_summary "pass"
  else if (80 <=? compliance_score)%Z then mk_summary "near_pass"
  else if (50 <=? compliance_score)%Z then mk_summary "needs_work"
  else mk_summary "fail".

Definition generate_report (self : t) : report :=
  let total_checks :=
    (List.length (issues self) + List.length (warnings self) + List.length (passed_checks self))%nat in
  let passed_count := List.length (passed_checks self) in
  let issues_count := List.length (issues self) in
  let warnings_count := List.length (warnings self) in
  let compliance_score := score_of passed_count total_checks in
  let passes_wcag := (issues_count =? 0)%nat in
  mk_report compliance_score passes_wcag total_checks passed_count issues_count warnings_count
    (option_map (generate_summary passes_wcag) compliance_score).

End AccessibilityChecker.

(** ** The PDF document, as far as the remediator reads and writes it

    Annotation and form-field dictionaries are objects shared between the
    document and the remediator's caches ([annot_ref], [field_ref]); they
    live in two stores addressed by position, and a reference is an
    address.  The ParentTree [/Nums] array, which alternates keys and
    values, is kept as a list of (key, value) pairs, so that
    [len(Nums) // 2] is the length of the list. *)

Module Pdf.

Record xobject := mk_xobject {
  x_Subtype : string;      (* name without the slash, empty when absent *)
  x_Width : Z;
  x_Height : Z
}.

Record annot := mk_annot {
  a_Subtype : string;
  a_Contents : option string;
  a_Alt : bool;                     (* '/Alt' in annot *)
  a_URI : option string;            (* annot.A.URI *)
  a_StructParent : option nat
}.

Record field := mk_field {
  f_FT : option string;
  f_T : option string;
  f_TU : option string;
  f_P : option nat;                 (* the number of the page that /P refers to *)
  f_Ff : Z;
  f_StructParent : option nat
}.

Record page := mk_page {
  pg_XObject : option (list (string * xobject));   (* page.Resources.XObject *)
  pg_Annots : option (list nat)
}.

(** A marked-content reference *)
Record mcr := mk_mcr { MCID : nat; Pg : option nat }.

Record struct_elem := mk_elem {
  se_S : string;                    (* structure type, without the slash *)
  se_P : bool;                      (* carries a /P link to the root *)
  se_T : option string;
  se_Alt : option string;
  se_BBox : option (list Z);
  se_Summary : option string;
  se_K : list mcr
}.

Record parent_tree := mk_parent_tree {
  Nums : option (list (nat * struct_elem))
}.

Record struct_tree_root := mk_root {
  K : option (list struct_elem);
  ParentTree : option parent_tree;
  RoleMap : bool
}.

Record t := mk {
  pages : list page;
  annots : list annot;                       (* the annotation objects *)
  AcroForm_Fields : option (list field);     (* Root.AcroForm.Fields *)
  MarkInfo_Marked : option bool;             (* Root.MarkInfo and its /Marked *)
  StructTreeRoot : option struct_tree_root
}.

(** [enumerate(xs, 1)] *)
Definition enumerate1 {A} (xs : list A) : list (nat * A) :=
  combine (seq 1 (List.length xs)) xs.

(** Replacing the object at an address *)
Fixpoint store_set {A} (xs : list A) (i : nat) (x : A) : list A :=
  match xs, i with
  | [], _ => []
  | _ :: r, O => x :: r
  | y :: r, S j => y :: store_set r j x
  end.

End Pdf.

Module TableInfo.

Record t := mk {
  page_number : nat;
  rows : nat;
  columns : nat;
  has_header_row : bool;
  has_header_column : bool;
  summary : string
}.

Definition generate_summary (self : t) : string :=
  if negb (PyStr.is_empty (summary self)) then summary self
  else
    let s := "Table with " ++ PyStr.of_nat (rows self) ++ " rows and "
               ++ PyStr.of_nat (columns self) ++ " columns" in
    if has_header_row self && has_header_column self then s ++ " with row and column headers"
    else if has_header_row self then s ++ " with column headers"
    else if has_header_column self then s ++ " with row headers"
    else s.

End TableInfo.

Module FormFieldInfo.

Record t := mk {
  field_type : string;
  name : string;
  page_number : nat;
  has_label : bool;
  has_tooltip : bool;
  tooltip_text : string;
  label_text : string;
  is_required : bool;
  field_ref : option nat
}.

End FormFieldInfo.

Module AnnotationInfo.

Record t := mk {
  annotation_type : string;
  subtype : string;
  page_number : nat;
  contents : string;
  has_alt_text : bool;
  is_tagged : bool;
  annot_ref : option nat
}.

Definition taggable_types : list string :=
  ["Text"; "FreeText"; "Stamp"; "Ink"; "Highlight"; "Underline"; "StrikeOut";
   "Square"; "Circle"; "Polygon"; "PolyLine"; "FileAttachment"].

Definition should_be_tagged (self : t) : bool :=
  PyStr.mem (subtype self) taggable_types.

Definition set_contents (self : t) (c : string) : t :=
  mk (annotation_type self) (subtype self) (page_number self) c
     (has_alt_text self) (is_tagged self) (annot_ref self).

End AnnotationInfo.

Record AccessibilityIssue := mk_AccessibilityIssue {
  category : string;
  severity : string;
  description : string;
  wcag_criterion : string;
  issue_page_number : option nat;
  remediated : bool
}.

Module RemediationReport.

Record t := mk {
  issues_fixed : list AccessibilityIssue;
  images_tagged : nat;
  tables_tagged : nat;
  headings_tagged : nat;
  links_fixed : nat;
  decorative_images : nat;
  form_fields_tagged : nat;
  annotations_tagged : nat;
  artifacts_marked : nat
}.

Definition empty : t := mk [] 0 0 0 0 0 0 0 0.

End RemediationReport.

(** ** [EnhancedPDFRemediator]

    A method that mutates [self] and returns a count is a function from the
    remediator to the count and the new remediator.  Output on the console
    is not modelled; [_check_alt_text_not_hiding_annotation], whose result
    is only printed, is left out with it. *)

Module EnhancedPDFRemediator.

Import Pdf.
Import RemediationReport.

Record t := mk {
  pdf : Pdf.t;
  report : RemediationReport.t;
  images : list ImageInfo.t;
  tables : list TableInfo.t;
  links : list LinkInfo.t;
  form_fields : list FormFieldInfo.t;
  annotations : list AnnotationInfo.t
}.

Definition set_pdf (self : t) (p : Pdf.t) : t :=
  mk p (report self) (images self) (tables self) (links self) (form_fields self) (annotations self).
Definition set_report (self : t) (r : RemediationReport.t) : t :=
  mk (pdf self) r (images self) (tables self) (links self) (form_fields self) (annotations self).
Definition set_images (self : t) (x : list ImageInfo.t) : t :=
  mk (pdf self) (report self) x (tables self) (links self) (form_fields self) (annotations self).
Definition set_links (self : t) (x : list LinkInfo.t) : t :=
  mk (pdf self) (report self) (images self) (tables self) x (form_fields self) (annotations self).
Definition set_form_fields (self : t) (x : list FormFieldInfo.t) : t :=
  mk (pdf self) (report self) (images self) (tables self) (links self) x (annotations self).
Definition set_annotations (self : t) (x : list AnnotationInfo.t) : t :=
  mk (pdf self) (report self) (images self) (tables self) (links self) (form_fields self) x.

Definition set_tree (p : Pdf.t) (tr : struct_tree_root) : Pdf.t :=
  Pdf.mk (pages p) (annots p) (AcroForm_Fields p) (MarkInfo_Marked p) (Some tr).
Definition set_annots (p : Pdf.t) (a : list annot) : Pdf.t :=
  Pdf.mk (pages p) a (AcroForm_Fields p) (MarkInfo_Marked p) (StructTreeRoot p).
Definition set_fields (p : Pdf.t) (f : list field) : Pdf.t :=
  Pdf.mk (pages p) (annots p) (Some f) (MarkInfo_Marked p) (StructTreeRoot p).
Definition set_marked (p : Pdf.t) : Pdf.t :=
  Pdf.mk (pages p) (annots p) (AcroForm_Fields p) (Some true) (StructTreeRoot p).

Definition set_K (tr : struct_tree_root) (k : list struct_elem) : struct_tree_root :=
  mk_root (Some k) (ParentTree tr) (RoleMap tr).
Definition set_Nums (tr : struct_tree_root) (n : list (nat * struct_elem)) : struct_tree_root :=
  mk_root (K tr) (Some (mk_parent_tree (Some n))) (RoleMap tr).

Definition fixed (r : RemediationReport.t) (category severity description wcag : string)
  : RemediationReport.t :=
  RemediationReport.mk
    (issues_fixed r ++ [mk_AccessibilityIssue category severity description wcag None true])
    (images_tagged r) (tables_tagged r) (headings_tagged r) (links_fixed r)
    (decorative_images r) (form_fields_tagged r) (annotations_tagged r) (artifacts_marked r).
Definition set_images_tagged (r : RemediationReport.t) (n : nat) :=
  RemediationReport.mk (issues_fixed r) n (tables_tagged r) (headings_tagged r) (links_fixed r)
    (decorative_images r) (form_fields_tagged r) (annotations_tagged r) (artifacts_marked r).
Definition set_tables_tagged (r : RemediationReport.t) (n : nat) :=
  RemediationReport.mk (issues_fixed r) (images_tagged r) n (headings_tagged r) (links_fixed r)
    (decorative_images r) (form_fields_tagged r) (annotations_tagged r) (artifacts_marked r).
Definition set_headings_tagged (r : RemediationReport.t) (n : nat) :=
  RemediationReport.mk (issues_fixed r) (images_tagged r) (tables_tagged r) n (links_fixed r)
    (decorative_images r) (form_fields_tagged r) (annotations_tagged r) (artifacts_marked r).
Definition set_links_fixed (r : RemediationReport.t) (n : nat) :=
  RemediationReport.mk (issues_fixed r) (images_tagged r) (tables_tagged r) (headings_tagged r) n
    (decorative_images r) (form_fields_tagged r) (annotations_tagged r) (artifacts_marked r).
Definition set_decorative_images (r : RemediationReport.t) (n : nat) :=
  RemediationReport.mk (issues_fixed r) (images_tagged r) (tables_tagged r) (headings_tagged r)
    (links_fixed r) n (form_fields_tagged r) (annotations_tagged r) (artifacts_marked r).
Definition set_form_fields_tagged (r : RemediationReport.t) (n : nat) :=
  RemediationReport.mk (issues_fixed r) (images_tagged r) (tables_tagged r) (headings_tagged r)
    (links_fixed r) (decorative_images r) n (annotations_tagged r) (artifacts_marked r).
Definition set_annotations_tagged (r : RemediationReport.t) (n : nat) :=
  RemediationReport.mk (issues_fixed r) (images_tagged r) (tables_tagged r) (headings_tagged r)
    (links_fixed r) (decorative_images r) (form_fields_tagged r) n (artifacts_marked r).
Definition set_artifacts_marked (r : RemediationReport.t) (n : nat) :=
  RemediationReport.mk (issues_fixed r) (images_tagged r) (tables_tagged r) (headings_tagged r)
    (links_fixed r) (decorative_images r) (form_fields_tagged r) (annotations_tagged r) n.

(** [str(d.get(key, ''))] *)
Definition str_or_empty (o : option string) : string :=
  match o with Some s => s | None => "" end.

(** *** The analyses *)

Definition analyze_image (page_num : nat) (entry : string * xobject) : list ImageInfo.t :=
  let (obj_name, obj) := entry in
  if String.eqb (x_Subtype obj) "Image" then
    let img_info := ImageInfo.mk obj_name (x_Width obj) (x_Height obj) page_num false "" in
    let dec := ImageInfo.determine_if_decorative img_info in
    let img_info := ImageInfo.mk obj_name (x_Width obj) (x_Height obj) page_num dec "" in
    if dec then [img_info]
    else [ImageInfo.mk obj_name (x_Width obj) (x_Height obj) page_num dec
            (_generate_alt_text img_info page_num)]
  else [].

Definition page_images (pp : nat * page) : list ImageInfo.t :=
  match pg_XObject (snd pp) with
  | None => []
  | Some xobjects => flat_map (analyze_image (fst pp)) xobjects
  end.

Definition analyze_images (self : t) : t :=
  let images := flat_map page_images (enumerate1 (pages (pdf self))) in
  let decorative := List.length (filter ImageInfo.is_decorative images) in
  let r := report self in
  set_images (set_report self (set_decorative_images r (decorative_images r + decorative))) images.

(** The annotation objects of a page; an address without an object is
    skipped, as the [try] around each annotation does. *)
Definition page_annots (p : Pdf.t) (pg : page) : list (nat * annot) :=
  match pg_Annots pg with
  | None => []
  | Some addrs =>
      flat_map (fun a => match nth_error (annots p) a with
                         | Some o => [(a, o)]
                         | None => []
                         end) addrs
  end.

Definition analyze_annotation (page_num : nat) (ao : nat * annot) : list AnnotationInfo.t :=
  let (addr, annot) := ao in
  let subtype := a_Subtype annot in
  if String.eqb subtype "Link" then []
  else
    let contents := str_or_empty (a_Contents annot) in
    let is_tagged := match a_StructParent annot with Some _ => true | None => false end in
    let has_alt_text := negb (PyStr.is_empty contents) || a_Alt annot in
    [AnnotationInfo.mk subtype subtype page_num contents has_alt_text is_tagged (Some addr)].

Definition analyze_annotations (self : t) : t :=
  set_annotations self
    (flat_map (fun pp => flat_map (analyze_annotation (fst pp)) (page_annots (pdf self) (snd pp)))
              (enumerate1 (pages (pdf self)))).

Definition analyze_link (page_num : nat) (ao : nat * annot) : list LinkInfo.t :=
  let annot := snd ao in
  if negb (String.eqb (a_Subtype annot) "Link") then []
  else
    let url := str_or_empty (a_URI annot) in
    let link_text := str_or_empty (a_Contents annot) in
    if negb (PyStr.is_empty link_text) || negb (PyStr.is_empty url) then
      let link_info := LinkInfo.mk link_text url page_num false in
      [LinkInfo.mk link_text url page_num (negb (LinkInfo.is_generic_link_text link_info))]
    else [].

Definition analyze_links (self : t) : t :=
  set_links self
    (flat_map (fun pp => flat_map (analyze_link (fst pp)) (page_annots (pdf self) (snd pp)))
              (enumerate1 (pages (pdf self)))).

(** [enumerate(xs)] *)
Definition enumerate0 {A} (xs : list A) : list (nat * A) :=
  combine (seq 0 (List.length xs)) xs.

Definition analyze_form_field (npages : nat) (af : nat * field) : FormFieldInfo.t :=
  let (addr, field) := af in
  let field_type := match f_FT field with Some s => s | None => "Unknown" end in
  let field_name := str_or_empty (f_T field) in
  let page_num :=
    match f_P field with
    | Some n => if (1 <=? n)%nat && (n <=? npages)%nat then n else 1
    | None => 1
    end in
  let tooltip_text := str_or_empty (f_TU field) in
  let label_text := str_or_empty (f_T field) in
  FormFieldInfo.mk field_type field_name page_num
    (negb (PyStr.is_empty label_text)) (negb (PyStr.is_empty tooltip_text))
    tooltip_text label_text (negb (Z.land (f_Ff field) 2 =? 0)%Z) (Some addr).

(** Without [/AcroForm] or [/Fields] the method returns before
    [self.form_fields] is assigned. *)
Definition analyze_form_fields (self : t) : t :=
  match AcroForm_Fields (pdf self) with
  | None => self
  | Some fields =>
      set_form_fields self
        (map (analyze_form_field (List.length (pages (pdf self)))) (enumerate0 fields))
  end.

(** *** [_fix_document_structure] *)

Definition empty_tree (role_map : bool) : struct_tree_root :=
  mk_root (Some []) (Some (mk_parent_tree (Some []))) role_map.

Definition _fix_document_structure (self : t) : bool * t :=
  let p := pdf self in
  let '(p, fixed1) :=
    match MarkInfo_Marked p with
    | Some true => (p, false)
    | _ => (set_marked p, true)
    end in
  let '(p, fixed2) :=
    match StructTreeRoot p with
    | Some _ => (p, false)
    | None => (set_tree p (empty_tree false), true)
    end in
  if fixed1 || fixed2 then
    (true, set_report (set_pdf self p)
             (fixed (report self) "Document Structure" "critical"
                "Enabled document tagging structure" "1.3.1 Info and Relationships"))
  else (false, set_pdf self p).

(** [if not self.images: self.analyze_images()], and the like *)
Definition ensure_images (self : t) : t :=
  match images self with [] => analyze_images self | _ :: _ => self end.

Definition ensure_annotations (self : t) : t :=
  match annotations self with [] => analyze_annotations self | _ :: _ => self end.

Definition ensure_form_fields (self : t) : t :=
  match form_fields self with [] => analyze_form_fields self | _ :: _ => self end.

Definition ensure_links (self : t) : t :=
  match links self with [] => analyze_links self | _ :: _ => self end.

(** [if '/StructTreeRoot' not in self.pdf.Root: self._fix_document_structure()] *)
Definition ensure_structure_tree (self : t) : t :=
  match StructTreeRoot (pdf self) with
  | None => snd (_fix_document_structure self)
  | Some _ => self
  end.

(** *** The tagging methods *)

Definition K_list (tr : struct_tree_root) : list struct_elem :=
  match K tr with Some k => k | None => [] end.

Definition Nums_list (tr : struct_tree_root) : list (nat * struct_elem) :=
  match ParentTree tr with
  | Some pt => match Nums pt with Some n => n | None => [] end
  | None => []
  end.

(** [if '/K' not in struct_tree or not struct_tree.K: struct_tree['/K'] = Array([])] *)
Definition ensure_K (tr : struct_tree_root) : struct_tree_root :=
  match K tr with
  | Some (_ :: _) => tr
  | _ => set_K tr []
  end.

Record image_loop := mk_image_loop {
  il_K : list struct_elem;
  il_Nums : list (nat * struct_elem);
  il_tagged_count : nat;
  il_alt_text_warnings : list string
}.

Definition find_image (images : list ImageInfo.t) (page_num : nat) (obj_name : string)
  : option ImageInfo.t :=
  find (fun img => (ImageInfo.page_number img =? page_num)%nat
                   && String.eqb (ImageInfo.name img) obj_name) images.

(** The body of the loop of [tag_images] over the XObjects of a page *)
Definition tag_image (images : list ImageInfo.t) (page_num : nat)
    (ls : image_loop) (entry : string * xobject) : image_loop :=
  let (obj_name, obj) := entry in
  if negb (String.eqb (x_Subtype obj) "Image") then ls
  else
    match find_image images page_num obj_name with
    | None => ls
    | Some img_info =>
        let bbox := [0; 0; x_Width obj; x_Height obj]%Z in
        let k := [mk_mcr 0 (Some page_num)] in
        let '(struct_elem, warnings) :=
          if ImageInfo.is_decorative img_info then
            (mk_elem "Artifact" true None (Some "") (Some bbox) None k,
             il_alt_text_warnings ls)
          else
            (mk_elem "Figure" true (Some ("Image on page " ++ PyStr.of_nat page_num))
               (Some (ImageInfo.alt_text img_info)) (Some bbox) None k,
             if _validate_alt_text_for_content (ImageInfo.alt_text img_info) "image"
             then il_alt_text_warnings ls
             else List.app (il_alt_text_warnings ls)
                    ["Page " ++ PyStr.of_nat page_num ++ ", Image " ++ obj_name
                     ++ ": Alt text may be too generic. Consider updating to describe actual content."])
        in
        let struct_parent_idx := List.length (il_Nums ls) in
        mk_image_loop (il_K ls ++ [struct_elem])
                      (il_Nums ls ++ [(struct_parent_idx, struct_elem)])
                      (il_tagged_count ls + 1) warnings
    end.

Definition tag_images_page (images : list ImageInfo.t) (ls : image_loop) (pp : nat * page)
  : image_loop :=
  match pg_XObject (snd pp) with
  | None => ls
  | Some xobjects => fold_left (tag_image images (fst pp)) xobjects ls
  end.

Definition tag_images (self : t) : nat * t :=
  let self := ensure_images self in
  let self := ensure_annotations self in
  let p := pdf self in
  let struct_tree :=
    match StructTreeRoot p with Some tr => tr | None => empty_tree true end in
  let struct_tree := ensure_K struct_tree in
  let ls := fold_left (tag_images_page (images self)) (enumerate1 (pages p))
              (mk_image_loop (K_list struct_tree) (Nums_list struct_tree) 0 []) in
  let struct_tree := set_Nums (set_K struct_tree (il_K ls)) (il_Nums ls) in
  let tagged_count := il_tagged_count ls in
  let r := set_images_tagged (report self) tagged_count in
  let r :=
    if (0 <? tagged_count)%nat then
      let description :=
        "Tagged " ++ PyStr.of_nat tagged_count
          ++ " images with complete accessibility information ("
          ++ PyStr.of_nat (decorative_images r) ++ " decorative, "
          ++ PyStr.of_Z (Z.of_nat tagged_count - Z.of_nat (decorative_images r))
          ++ " descriptive)" in
      let description :=
        match il_alt_text_warnings ls with
        | [] => description
        | w => description ++ ". Note: " ++ PyStr.of_nat (List.length w)
                 ++ " images may need manual alt text review."
        end in
      fixed r "Image Tagging" "major" description "1.1.1 Non-text Content"
    else r in
  (tagged_count, set_report (set_pdf self (set_tree p struct_tree)) r).

(** [tag_headings]; [heading_map] is the dictionary in insertion order.
    Without a structure tree or its [/K] the attribute access raises and
    the method returns 0 from its handler. *)
Definition tag_headings (heading_map : list (nat * string)) (self : t) : nat * t :=
  match heading_map with
  | [] => (0, set_report self (set_headings_tagged (report self) 0))
  | _ :: _ =>
      match StructTreeRoot (pdf self) with
      | Some tr =>
          match K tr with
          | Some k =>
              let new := map (fun e => mk_elem "H1" false (Some (snd e)) None None None [])
                             heading_map in
              let tagged_count := List.length heading_map in
              let r := set_headings_tagged (report self) tagged_count in
              let r := fixed r "Document Structure" "major"
                         ("Tagged " ++ PyStr.of_nat tagged_count ++ " headings")
                         "2.4.6 Headings and Labels" in
              (tagged_count, set_report (set_pdf self (set_tree (pdf self) (set_K tr (k ++ new)))) r)
          | None => (0, self)
          end
      | None => (0, self)
      end
  end.

(** [analyze_tables] is a placeholder that finds no table. *)
Definition analyze_tables (self : t) : t :=
  mk (pdf self) (report self) (images self) [] (links self) (form_fields self) (annotations self).

Definition tag_tables (self : t) : nat * t :=
  let self := match tables self with [] => analyze_tables self | _ => self end in
  match StructTreeRoot (pdf self) with
  | Some tr =>
      match K tr with
      | Some k =>
          let new := map (fun tb => mk_elem "Table" false None None None
                                      (Some (TableInfo.generate_summary tb)) [])
                         (tables self) in
          let tagged_count := List.length (tables self) in
          let r := set_tables_tagged (report self) tagged_count in
          let r :=
            if (0 <? tagged_count)%nat then
              fixed r "Table Structure" "major"
                ("Tagged " ++ PyStr.of_nat tagged_count ++ " tables with structure and summaries")
                "1.3.1 Info and Relationships"
            else r in
          (tagged_count, set_report (set_pdf self (set_tree (pdf self) (set_K tr (k ++ new)))) r)
      | None => (0, self)
      end
  | None => (0, self)
  end.

(** Linking a new element into the ParentTree, for an object without
    [/StructParent]: the index is [len(nums) // 2].  When the tree has no
    [/ParentTree] the code works on a dictionary of its own that is not
    stored anywhere, so the index is 0 and the tree does not change. *)
Definition link_to_parent_tree (tr : struct_tree_root) (struct_elem : struct_elem)
  : nat * struct_tree_root :=
  match ParentTree tr with
  | None => (0, tr)
  | Some _ =>
      let nums := Nums_list tr in
      let struct_parent_idx := List.length nums in
      (struct_parent_idx, set_Nums tr (nums ++ [(struct_parent_idx, struct_elem)]))
  end.

Definition append_K (tr : struct_tree_root) (e : struct_elem) : struct_tree_root :=
  set_K tr (K_list tr ++ [e]).

Record field_loop := mk_field_loop {
  fl_fields : list field;
  fl_tree : struct_tree_root;
  fl_tagged_count : nat
}.

Definition set_TU (f : field) (s : string) : field :=
  mk_field (f_FT f) (f_T f) (Some s) (f_P f) (f_Ff f) (f_StructParent f).
Definition set_T (f : field) (s : string) : field :=
  mk_field (f_FT f) (Some s) (f_TU f) (f_P f) (f_Ff f) (f_StructParent f).
Definition set_field_StructParent (f : field) (i : nat) : field :=
  mk_field (f_FT f) (f_T f) (f_TU f) (f_P f) (f_Ff f) (Some i).

(** The tooltip ([/TU]) and the name ([/T]) that [tag_form_fields] gives a
    field that lacks them *)
Definition ensure_tooltip_and_name (field_info : FormFieldInfo.t) (tagged_count : nat)
    (field : Pdf.field) : Pdf.field :=
  let field :=
    if negb (FormFieldInfo.has_tooltip field_info) then
      let tooltip :=
        if negb (PyStr.is_empty (FormFieldInfo.label_text field_info))
        then PyStr.title (PyStr.replace_char "_" " " (FormFieldInfo.label_text field_info))
        else FormFieldInfo.field_type field_info ++ " field" in
      set_TU field tooltip
    else field in
  if negb (FormFieldInfo.has_label field_info) then
    if negb (PyStr.is_empty (FormFieldInfo.name field_info))
    then set_T field (FormFieldInfo.name field_info)
    else set_T field ("Field_" ++ PyStr.of_nat (tagged_count + 1))
  else field.

(** The body of the loop of [tag_form_fields]; a reference that is [None]
    (or an address without an object) is skipped. *)
Definition tag_form_field (ls : field_loop) (field_info : FormFieldInfo.t) : field_loop :=
  match FormFieldInfo.field_ref field_info with
  | None => ls
  | Some addr =>
      match nth_error (fl_fields ls) addr with
      | None => ls
      | Some field =>
          let field := ensure_tooltip_and_name field_info (fl_tagged_count ls) field in
          let struct_elem :=
            mk_elem "Form" false
              (Some (match f_TU field with Some s => s | None => str_or_empty (f_T field) end))
              (Some (str_or_empty (f_TU field))) None None [] in
          let '(field, tr) :=
            match f_StructParent field with
            | Some _ => (field, fl_tree ls)
            | None =>
                let (struct_parent_idx, tr) := link_to_parent_tree (fl_tree ls) struct_elem in
                (set_field_StructParent field struct_parent_idx, tr)
            end in
          mk_field_loop (store_set (fl_fields ls) addr field) (append_K tr struct_elem)
                        (fl_tagged_count ls + 1)
      end
  end.

Definition fields_store (p : Pdf.t) : list field :=
  match AcroForm_Fields p with Some f => f | None => [] end.

Definition put_fields (p : Pdf.t) (f : list field) : Pdf.t :=
  match AcroForm_Fields p with Some _ => set_fields p f | None => p end.

Definition tag_form_fields (self : t) : nat * t :=
  let self := ensure_form_fields self in
  match form_fields self with
  | [] => (0, self)
  | _ :: _ =>
      let self := ensure_structure_tree self in
      match StructTreeRoot (pdf self) with
      | None => (0, self)
      | Some struct_tree =>
          let ls := fold_left tag_form_field (form_fields self)
                      (mk_field_loop (fields_store (pdf self)) (ensure_K struct_tree) 0) in
          let tagged_count := fl_tagged_count ls in
          let r := set_form_fields_tagged (report self) tagged_count in
          let r :=
            if (0 <? tagged_count)%nat then
              fixed r "Form Fields" "major"
                ("Tagged " ++ PyStr.of_nat tagged_count
                   ++ " form fields with proper labels and structure")
                "4.1.2 Name, Role, Value"
            else r in
          (tagged_count,
           set_report (set_pdf self (set_tree (put_fields (pdf self) (fl_fields ls)) (fl_tree ls))) r)
      end
  end.

Record annot_loop := mk_annot_loop {
  al_annots : list annot;
  al_tree : struct_tree_root;
  al_infos : list AnnotationInfo.t;      (* the entries of [self.annotations] gone through *)
  al_tagged_count : nat
}.

Definition struct_type_map : list (string * string) :=
  [("Text", "Note"); ("FreeText", "Note"); ("Stamp", "Stamp"); ("Ink", "Annot");
   ("Highlight", "Span"); ("Underline", "Span"); ("StrikeOut", "Span");
   ("Square", "Figure"); ("Circle", "Figure"); ("Polygon", "Figure");
   ("PolyLine", "Figure"); ("FileAttachment", "Annot")].

Definition set_Contents (a : annot) (s : string) : annot :=
  mk_annot (a_Subtype a) (Some s) (a_Alt a) (a_URI a) (a_StructParent a).
Definition set_annot_StructParent (a : annot) (i : nat) : annot :=
  mk_annot (a_Subtype a) (a_Contents a) (a_Alt a) (a_URI a) (Some i).

Definition skip_annotation (ls : annot_loop) (annot_info : AnnotationInfo.t) : annot_loop :=
  mk_annot_loop (al_annots ls) (al_tree ls) (List.app (al_infos ls) [annot_info])
                (al_tagged_count ls).

(** The contents that [tag_annotations] gives an annotation without alt
    text, in the document and in the remediator's entry *)
Definition ensure_contents (annot_info : AnnotationInfo.t) (annot : Pdf.annot)
  : Pdf.annot * AnnotationInfo.t :=
  if negb (AnnotationInfo.has_alt_text annot_info) then
    let default_contents :=
      AnnotationInfo.subtype annot_info ++ " annotation on page "
        ++ PyStr.of_nat (AnnotationInfo.page_number annot_info) in
    (set_Contents annot default_contents,
     AnnotationInfo.set_contents annot_info default_contents)
  else (annot, annot_info).

(** The body of the loop of [tag_annotations] *)
Definition tag_annotation (ls : annot_loop) (annot_info : AnnotationInfo.t) : annot_loop :=
  if negb (AnnotationInfo.should_be_tagged annot_info) then skip_annotation ls annot_info
  else
    match AnnotationInfo.annot_ref annot_info with
    | None => skip_annotation ls annot_info
    | Some addr =>
        match nth_error (al_annots ls) addr with
        | None => skip_annotation ls annot_info
        | Some annot =>
            let '(annot, annot_info) := ensure_contents annot_info annot in
            let struct_type :=
              PyStr.dict_get struct_type_map (AnnotationInfo.subtype annot_info) "Annot" in
            let struct_elem :=
              mk_elem struct_type false
                (Some (AnnotationInfo.subtype annot_info ++ " annotation"))
                (Some (AnnotationInfo.contents annot_info)) None None [] in
            let '(annot, tr) :=
              match a_StructParent annot with
              | Some _ => (annot, al_tree ls)
              | None =>
                  let (struct_parent_idx, tr) := link_to_parent_tree (al_tree ls) struct_elem in
                  (set_annot_StructParent annot struct_parent_idx, tr)
              end in
            mk_annot_loop (store_set (al_annots ls) addr annot) (append_K tr struct_elem)
                          (List.app (al_infos ls) [annot_info]) (al_tagged_count ls + 1)
        end
    end.

Definition tag_annotations (self : t) : nat * t :=
  let self := ensure_annotations self in
  match annotations self with
  | [] => (0, self)
  | _ :: _ =>
      let self := ensure_structure_tree self in
      match StructTreeRoot (pdf self) with
      | None => (0, self)
      | Some struct_tree =>
          let ls := fold_left tag_annotation (annotations self)
                      (mk_annot_loop (annots (pdf self)) (ensure_K struct_tree) [] 0) in
          let tagged_count := al_tagged_count ls in
          let r := set_annotations_tagged (report self) tagged_count in
          let r :=
            if (0 <? tagged_count)%nat then
              fixed r "Annotations" "major"
                ("Tagged " ++ PyStr.of_nat tagged_count
                   ++ " annotations with proper alt text and structure")
                "1.1.1 Non-text Content"
            else r in
          (tagged_count,
           set_annotations
             (set_report (set_pdf self (set_tree (set_annots (pdf self) (al_annots ls)) (al_tree ls))) r)
             (al_infos ls))
      end
  end.

(** The body of the loop of [mark_unmarked_content_as_artifacts] over the
    XObjects of a page; the state is the [/K] array and [marked_count]. *)
Definition mark_xobject (images : list ImageInfo.t) (tagged_images : list string)
    (page_num : nat) (ls : list struct_elem * nat) (entry : string * xobject)
  : list struct_elem * nat :=
  let (obj_name, obj) := entry in
  let obj_identifier := "Image on page " ++ PyStr.of_nat page_num in
  if PyStr.mem obj_identifier tagged_images then ls
  else if String.eqb (x_Subtype obj) "Image" then
    match find_image images page_num obj_name with
    | Some _ => ls
    | None =>
        let bbox := [0; 0; x_Width obj; x_Height obj]%Z in
        (List.app (fst ls) [mk_elem "Artifact" true None (Some "") (Some bbox) None []],
         snd ls + 1)
    end
  else if String.eqb (x_Subtype obj) "Form" then
    (List.app (fst ls) [mk_elem "Artifact" true None (Some "") None None []], snd ls + 1)
  else ls.

Definition mark_page (images : list ImageInfo.t) (tagged_images : list string)
    (ls : list struct_elem * nat) (pp : nat * page) : list struct_elem * nat :=
  match pg_XObject (snd pp) with
  | None => ls
  | Some xobjects => fold_left (mark_xobject images tagged_images (fst pp)) xobjects ls
  end.

Definition mark_unmarked_content_as_artifacts (self : t) : nat * t :=
  let self := ensure_structure_tree self in
  match StructTreeRoot (pdf self) with
  | None => (0, self)
  | Some struct_tree =>
      let struct_tree := ensure_K struct_tree in
      let tagged_images :=
        map (fun e => str_or_empty (se_T e))
            (filter (fun e => String.eqb (se_S e) "Figure") (K_list struct_tree)) in
      let ls := fold_left (mark_page (images self) tagged_images)
                  (enumerate1 (pages (pdf self))) (K_list struct_tree, 0) in
      let marked_count := snd ls in
      let r := set_artifacts_marked (report self) marked_count in
      let r :=
        if (0 <? marked_count)%nat then
          fixed r "Content Artifact Marking" "major"
            ("Marked " ++ PyStr.of_nat marked_count
               ++ " unmarked content elements as artifacts to ensure all content is either tagged or marked as decorative")
            "1.3.1 Info and Relationships"
        else r in
      (marked_count, set_report (set_pdf self (set_tree (pdf self) (set_K struct_tree (fst ls)))) r)
  end.

(** *** [fix_links] *)

Definition needs_fix (link : LinkInfo.t) : bool :=
  negb (LinkInfo.is_descriptive link) && negb (PyStr.is_empty (LinkInfo.url link)).

Definition fix_link (link : LinkInfo.t) : LinkInfo.t :=
  if needs_fix link then
    LinkInfo.mk (_generate_link_description (LinkInfo.url link)) (LinkInfo.url link)
                (LinkInfo.page_number link) (LinkInfo.is_descriptive link)
  else link.

Definition fix_links (self : t) : nat * t :=
  let self := ensure_links self in
  let fixed_count := List.length (filter needs_fix (links self)) in
  let r := set_links_fixed (report self) fixed_count in
  let r :=
    if (0 <? fixed_count)%nat then
      fixed r "Link Descriptions" "major"
        ("Improved " ++ PyStr.of_nat fixed_count ++ " non-descriptive links")
        "2.4.4 Link Purpose (In Context)"
    else r in
  (fixed_count, set_links (set_report self r) (map fix_link (links self))).

(** *** Runs of the builder *)

Inductive op :=
| TagImages
| TagHeadings (heading_map : list (nat * string))
| TagTables
| TagFormFields
| TagAnnotations
| MarkArtifacts.

Definition step (o : op) (self : t) : nat * t :=
  match o with
  | TagImages => tag_images self
  | TagHeadings heading_map => tag_headings heading_map self
  | TagTables => tag_tables self
  | TagFormFields => tag_form_fields self
  | TagAnnotations => tag_annotations self
  | MarkArtifacts => mark_unmarked_content_as_artifacts self
  end.

Definition run (ops : list op) (self : t) : t :=
  fold_left (fun s o => snd (step o s)) ops self.

(** The per-category counts of the nodes a run of the builder creates *)
Record counts := mk_counts {
  c_images : nat;
  c_form_fields : nat;
  c_annotations : nat;
  c_artifacts : nat
}.

(** The steps of [remediate] that build the structure tree, in its order:
    images, form fields, annotations, then the marking of artifacts. *)
Definition structure_tree_builder (self : t) : counts * t :=
  let (n_images, self) := tag_images self in
  let (n_fields, self) := tag_form_fields self in
  let (n_annotations, self) := tag_annotations self in
  let (n_artifacts, self) := mark_unmarked_content_as_artifacts self in
  (mk_counts n_images n_fields n_annotations n_artifacts, self).

Definition tree_K (self : t) : list struct_elem :=
  match StructTreeRoot (pdf self) with Some tr => K_list tr | None => [] end.

Definition tree_Nums (self : t) : list (nat * struct_elem) :=
  match StructTreeRoot (pdf self) with Some tr => Nums_list tr | None => [] end.

End EnhancedPDFRemediator.

(** ** The statements of the specification that the code departs from

    Each definition follows the words of the specification; it is compared
    with the code in the second part. *)

Module Spec.

(** Rounding to the nearest integer *)
Definition round_nearest (q : Q) : Z := Qfloor (q + (1 # 2))%Q.

(** "Compliance score = round(100 x passed / (passed + issues + warnings))" *)
Definition compliance_score (passed issues warnings : nat) : Z :=
  round_nearest (inject_Z (100 * Z.of_nat passed)
                 / inject_Z (Z.of_nat (passed + issues + warnings)))%Q.

(** The denylist of generic link texts of the rule engine *)
Definition generic_link_texts : list string :=
  ["click here"; "read more"; "more"; "link"; "here"].

(** "only if its text is empty or is a case-insensitive member of the
    denylist": what a link must satisfy when its text is rewritten. *)
Definition fails_link_check (text : string) : Prop :=
  text = "" \/ In (PyStr.lower text) generic_link_texts.


(** "decorative exactly when width<20, or height<20, or width x height<400,
    or the aspect ratio width/height is >20 or <0.05" *)
Definition decorative (w h : Z) : Prop :=
  (w < 20)%Z \/ (h < 20)%Z \/ (w * h < 400)%Z
  \/ (20 < inject_Z w / inject_Z h)%Q \/ (inject_Z w / inject_Z h < 5 # 100)%Q.

End Spec.

(** ** Inputs and checks used in the second part *)

(** The mantissa and the change of the exponent that [binary_round_aux]
    gives a quotient [q] of 53 or 54 bits at the location [l]: a 54-bit
    quotient loses its last bit first, then the mantissa is rounded to
    nearest-even; [renorm] is the step back to 53 bits when the rounding has
    carried into 2^53. *)
Definition round53 (q : Z) (l : location) : Z * Z :=
  if (q <? 2 ^ 53)%Z then (round_nearest_even q l, 0%Z)
  else
    (round_nearest_even (q / 2)
       (loc_of_shr_record
          {| shr_m := (q / 2)%Z; shr_r := Z.odd q;
             shr_s := match l with loc_Exact => false | _ => true end |}), 1%Z).

Definition renorm (me : Z * Z) : Z * Z :=
  if (fst me =? 2 ^ 53)%Z then ((2 ^ 52)%Z, (snd me + 1)%Z) else me.

Definition b2z (b : bool) : Z := if b then 1%Z else 0%Z.

(** A checker that has recorded [i] issues, [w] warnings and [p] passed
    checks *)
Definition checker_with (p i w : nat) : AccessibilityChecker.t :=
  AccessibilityChecker.mk
    (repeat (AccessibilityChecker.mk_issue "2.4.2" "Page Titled (Level A)"
               "Missing or Empty Page Title" "" "error" "A" "missing_title") i)
    (repeat (AccessibilityChecker.mk_issue "1.3.1" "Info and Relationships (Level A)"
               "Limited Semantic Structure" "" "warning" "A" "unknown") w)
    (repeat (AccessibilityChecker.mk_passed "1.1.1" "Non-text Content (Level A)"
               "No images found") p).

(** Whether the score is the floor of 100 p / t for every total up to [n] *)
Definition score_is_floor_upto (n : nat) : bool :=
  forallb (fun t =>
    forallb (fun p =>
      match AccessibilityChecker.score_of p t with
      | Some s => (s =? 100 * Z.of_nat p / Z.of_nat t)%Z
      | None => false
      end) (seq 0 (S t))) (seq 1 n).

(** A document with one link whose text is "download" *)
Definition download_doc : EnhancedPDFRemediator.t :=
  EnhancedPDFRemediator.mk
    (Pdf.mk [Pdf.mk_page None (Some [0])]
            [Pdf.mk_annot "Link" (Some "download") false
               (Some "https://www.example.com/files/report.pdf") None]
            None None None)
    RemediationReport.empty [] [] [] [] [].

(** Headings and documents of the heading examples *)
Definition heading_of (l : nat) : Soup.heading := Soup.mk_heading l ["Section"].

Definition long_text : string := String.concat "" (repeat "A long heading. " 7).




(** All headings inside [main]: h1, h3, h2 *)
Definition soup_1_3_2 : Soup.t :=
  Soup.mk [] (Some [heading_of 1; heading_of 3; heading_of 2]).

(** An h2 of 112 characters in a header before an empty [main] *)
Definition soup_long_h2_before_main : Soup.t :=
  Soup.mk [Soup.mk_heading 2 [long_text]] (Some []).

(** No level is more than one above the level before it, [last_level]
    being the level before the first *)
Fixpoint no_skip (last_level : nat) (levels : list nat) : Prop :=
  match levels with
  | [] => True
  | l :: r => l <= last_level + 1 /\ no_skip l r
  end.

(** The first heading is an h1 already or will be renamed: it is the first
    heading of the document and has fewer than 100 characters of text *)
Definition first_heading_fixable (soup : Soup.t) : Prop :=
  Soup.before_main soup = []
  \/ exists h r, Soup.before_main soup = h :: r
                 /\ (Soup.level h = 1 \/ String.length (Soup.get_text_strip h) < 100).

Definition empty_checker : AccessibilityChecker.t := AccessibilityChecker.mk [] [] [].

(** A created node that has the Artifact role carries the empty alt text *)
Definition artifact_alt_empty (e : Pdf.struct_elem) : Prop :=
  Pdf.se_S e = "Artifact" -> Pdf.se_Alt e = Some "".

(** The keys of the ParentTree *)
Definition tree_keys (self : EnhancedPDFRemediator.t) : list nat :=
  map fst (EnhancedPDFRemediator.tree_Nums self).

(** A document with one page that shows one image of 500 x 500 pixels and
    one of 10 x 10 pixels, without a structure tree *)
Definition two_image_doc : EnhancedPDFRemediator.t :=
  EnhancedPDFRemediator.mk
    (Pdf.mk [Pdf.mk_page (Some [("/Im0", Pdf.mk_xobject "Image" 500 500);
                                ("/Im1", Pdf.mk_xobject "Image" 10 10)]) None]
            [] None None None)
    RemediationReport.empty [] [] [] [] [].

(** The same page in a document that another tool has tagged: its
    ParentTree holds one entry, under the key 1 *)
Definition tagged_elsewhere_doc : EnhancedPDFRemediator.t :=
  EnhancedPDFRemediator.mk
    (Pdf.mk [Pdf.mk_page (Some [("/Im0", Pdf.mk_xobject "Image" 500 500)]) None]
            [] None (Some true)
            (Some (Pdf.mk_root
                     (Some [Pdf.mk_elem "P" true None None None None []])
                     (Some (Pdf.mk_parent_tree
                              (Some [(1, Pdf.mk_elem "P" true None None None None [])])))
                     false)))
    RemediationReport.empty [] [] [] [] [].

(** A new remediator that has loaded the document which [self] has
    written: [EnhancedPDFRemediator(path, ...)] followed by [load_pdf()] *)
Definition reloaded (self : EnhancedPDFRemediator.t) : EnhancedPDFRemediator.t :=
  EnhancedPDFRemediator.mk (EnhancedPDFRemediator.pdf self)
    RemediationReport.empty [] [] [] [] [].

(** "a second run creates zero new structure nodes of any category and
    leaves the ParentTree entry count unchanged": the counts of the second
    run and the numbers of ParentTree entries after the first and after the
    second run *)
Definition second_run_adds_nothing (c2 : EnhancedPDFRemediator.counts)
    (entries1 entries2 : nat) : Prop :=
  EnhancedPDFRemediator.c_images c2 = 0
  /\ EnhancedPDFRemediator.c_form_fields c2 = 0
  /\ EnhancedPDFRemediator.c_annotations c2 = 0
  /\ EnhancedPDFRemediator.c_artifacts c2 = 0
  /\ entries2 = entries1.

(** ** What the loops of the builder keep

    The relations between the state of a loop before and after some of its
    rounds, and the conditions on the document that a run leaves behind for
    the next one. *)

Section BuilderInvariants.

Import Pdf RemediationReport EnhancedPDFRemediator.
Local Open Scope list_scope.

(** [k'] is [k] followed by nodes that satisfy [P] *)
Definition extends (P : Pdf.struct_elem -> Prop) (k k' : list Pdf.struct_elem) : Prop :=
  exists new, k' = k ++ new /\ Forall P new.

(** [n'] is [n] followed by entries whose keys count up from the length of
    [n] *)
Definition nums_extends (n n' : list (nat * Pdf.struct_elem)) : Prop :=
  exists new, n' = n ++ new /\ map fst new = seq (List.length n) (List.length new).

(** The images and the annotations that [tag_images] works with *)
Definition images_used (self : t) : list ImageInfo.t := images (ensure_images self).

Definition annotations_used (self : t) : list AnnotationInfo.t :=
  annotations (ensure_annotations self).

(** What one or more rounds of the loop do to its state: nodes are only
    appended, the Artifact nodes among them with an empty alt text, each
    with the next ParentTree key, and the count goes up with them. *)
Definition image_loop_rel (ls ls' : image_loop) : Prop :=
  extends artifact_alt_empty (il_K ls) (il_K ls')
  /\ nums_extends (il_Nums ls) (il_Nums ls')
  /\ List.length (il_K ls') + il_tagged_count ls
     = List.length (il_K ls) + il_tagged_count ls'
  /\ List.length (il_Nums ls') + il_tagged_count ls
     = List.length (il_Nums ls) + il_tagged_count ls'.

(** The number of images that [tag_images] tags, from the image list and
    the pages alone *)
Definition image_count (images : list ImageInfo.t) (pages : list page) : nat :=
  il_tagged_count
    (fold_left (tag_images_page images) (enumerate1 pages) (mk_image_loop [] [] 0 [])).

(** The field at an address carries [/StructParent] *)
Definition field_linked (store : list field) (a : nat) : Prop :=
  exists f, nth_error store a = Some f /\ f_StructParent f <> None.

Definition field_loop_rel (ls ls' : field_loop) : Prop :=
  extends artifact_alt_empty (K_list (fl_tree ls)) (K_list (fl_tree ls'))
  /\ nums_extends (Nums_list (fl_tree ls)) (Nums_list (fl_tree ls'))
  /\ List.length (K_list (fl_tree ls')) + fl_tagged_count ls
     = List.length (K_list (fl_tree ls)) + fl_tagged_count ls'
  /\ List.length (fl_fields ls') = List.length (fl_fields ls)
  /\ forall a, field_linked (fl_fields ls) a -> field_linked (fl_fields ls') a.

(** The fields of [l] that have an object carry [/StructParent] *)
Definition fields_all_linked (l : list FormFieldInfo.t) (store : list field) : Prop :=
  forall field_info addr,
    In field_info l -> FormFieldInfo.field_ref field_info = Some addr ->
    addr < List.length store -> field_linked store addr.

(** The form fields that [tag_form_fields] works with *)
Definition fields_used (self : t) : list FormFieldInfo.t :=
  form_fields (ensure_form_fields self).

(** The annotation at an address carries [/StructParent] *)
Definition annot_linked (store : list annot) (a : nat) : Prop :=
  exists o, nth_error store a = Some o /\ a_StructParent o <> None.

Definition annot_loop_rel (ls ls' : annot_loop) : Prop :=
  extends artifact_alt_empty (K_list (al_tree ls)) (K_list (al_tree ls'))
  /\ nums_extends (Nums_list (al_tree ls)) (Nums_list (al_tree ls'))
  /\ List.length (K_list (al_tree ls')) + al_tagged_count ls
     = List.length (K_list (al_tree ls)) + al_tagged_count ls'
  /\ List.length (al_annots ls') = List.length (al_annots ls)
  /\ forall a, annot_linked (al_annots ls) a -> annot_linked (al_annots ls') a.

(** The entries of [infos] that are taggable and have an object carry
    [/StructParent] *)
Definition annots_all_linked (infos : list AnnotationInfo.t) (store : list annot) : Prop :=
  forall annot_info addr,
    In annot_info infos ->
    AnnotationInfo.should_be_tagged annot_info = true ->
    AnnotationInfo.annot_ref annot_info = Some addr ->
    addr < List.length store -> annot_linked store addr.

Definition mark_loop_rel (ls ls' : list struct_elem * nat) : Prop :=
  extends artifact_alt_empty (fst ls) (fst ls')
  /\ List.length (fst ls') + snd ls = List.length (fst ls) + snd ls'.

(** The form fields the remediator works with carry [/StructParent], as
    far as they have an object; likewise the taggable annotations *)
Definition fields_inv (self : t) : Prop :=
  fields_all_linked (fields_used self) (fields_store (pdf self)).

Definition annots_inv (self : t) : Prop :=
  annots_all_linked (annotations_used self) (annots (pdf self)).

(** The four steps of a run, from one state to the next *)
Inductive builder_run (self : t) (c : counts) (self' : t) : Prop :=
| builder_run_intro (n1 n2 n3 n4 : nat) (a1 a2 a3 : t) :
    tag_images self = (n1, a1) ->
    tag_form_fields a1 = (n2, a2) ->
    tag_annotations a2 = (n3, a3) ->
    mark_unmarked_content_as_artifacts a3 = (n4, self') ->
    c = mk_counts n1 n2 n3 n4 ->
    builder_run self c self'.

End BuilderInvariants.

(** ** Further checks of the remediator, and what the second part says
       about repairs

    [_check_forms] and [_check_annotations] re-run the analysis and count
    what is still missing.  A form-field dictionary is taken to hold at
    least one key, so that a reference to it counts as true in a
    condition. *)

Section RepairChecks.

Import Pdf RemediationReport EnhancedPDFRemediator.
Local Open Scope list_scope.

(** [field_info.field_ref and '/StructParent' not in field_info.field_ref] *)
Definition field_untagged (store : list Pdf.field) (field_info : FormFieldInfo.t) : bool :=
  match FormFieldInfo.field_ref field_info with
  | Some addr =>
      match nth_error store addr with
      | Some f => match f_StructParent f with None => true | Some _ => false end
      | None => false
      end
  | None => false
  end.

(** [EnhancedPDFRemediator._check_forms] *)
Definition _check_forms (self : t) : list AccessibilityIssue * t :=
  let self := analyze_form_fields self in
  match form_fields self with
  | [] => ([], self)
  | _ :: _ =>
      let unlabeled_fields :=
        List.length (filter (fun i => negb (FormFieldInfo.has_tooltip i)
                                      && negb (FormFieldInfo.has_label i))
                            (form_fields self)) in
      let untagged_fields :=
        List.length (filter (field_untagged (fields_store (pdf self))) (form_fields self)) in
      ((if (0 <? unlabeled_fields)%nat then
          [mk_AccessibilityIssue "Form Fields" "major"
             (PyStr.of_nat unlabeled_fields ++ " form fields lack proper labels or tooltips")
             "4.1.2 Name, Role, Value" None false]
        else [])
       ++ (if (0 <? untagged_fields)%nat then
             [mk_AccessibilityIssue "Form Fields" "major"
                (PyStr.of_nat untagged_fields
                   ++ " form fields are not properly tagged in document structure")
                "4.1.2 Name, Role, Value" None false]
           else []),
       self)
  end.

(** [EnhancedPDFRemediator._check_annotations] *)
Definition _check_annotations (self : t) : list AccessibilityIssue * t :=
  let self := analyze_annotations self in
  match annotations self with
  | [] => ([], self)
  | _ :: _ =>
      let taggable := filter AnnotationInfo.should_be_tagged (annotations self) in
      let missing_alt_text :=
        List.length (filter (fun i => negb (AnnotationInfo.has_alt_text i)) taggable) in
      let untagged_annotations :=
        List.length (filter (fun i => negb (AnnotationInfo.is_tagged i)) taggable) in
      ((if (0 <? missing_alt_text)%nat then
          [mk_AccessibilityIssue "Annotations" "major"
             (PyStr.of_nat missing_alt_text ++ " annotations lack descriptive content/alt text")
             "1.1.1 Non-text Content" None false]
        else [])
       ++ (if (0 <? untagged_annotations)%nat then
             [mk_AccessibilityIssue "Annotations" "major"
                (PyStr.of_nat untagged_annotations
                   ++ " annotations are not properly tagged in document structure")
                "1.1.1 Non-text Content" None false]
           else []),
       self)
  end.

(** The field has a tooltip and a name that are not empty, and a place in
    the ParentTree *)
Definition field_accessible (f : Pdf.field) : Prop :=
  str_or_empty (f_TU f) <> "" /\ str_or_empty (f_T f) <> "" /\ f_StructParent f <> None.

Definition fields_accessible_upto (store : list Pdf.field) (k : nat) : Prop :=
  forall j, j < k -> exists f, nth_error store j = Some f /\ field_accessible f.

(** The annotation has [/Alt] or contents that are not empty *)
Definition annot_described (o : Pdf.annot) : Prop :=
  a_Alt o = true \/ str_or_empty (a_Contents o) <> "".

(** The annotation at [addr] has the subtype [subtype], a description and a
    place in the ParentTree *)
Definition annot_accessible (store : list Pdf.annot) (addr : nat) (subtype : string) : Prop :=
  exists o, nth_error store addr = Some o /\ a_Subtype o = subtype
            /\ annot_described o /\ a_StructParent o <> None.

(** An entry of [self.annotations] that agrees with its object *)
Definition annot_info_sound (store : list Pdf.annot) (annot_info : AnnotationInfo.t) : Prop :=
  exists addr o,
    AnnotationInfo.annot_ref annot_info = Some addr
    /\ nth_error store addr = Some o
    /\ AnnotationInfo.subtype annot_info = a_Subtype o
    /\ (AnnotationInfo.has_alt_text annot_info = true -> annot_described o).

(** What the rounds of the loop of [tag_annotations] keep of the objects *)
Definition annots_kept (store store' : list Pdf.annot) : Prop :=
  List.length store' = List.length store
  /\ forall a o, nth_error store a = Some o ->
       exists o', nth_error store' a = Some o'
                  /\ a_Subtype o' = a_Subtype o
                  /\ (annot_described o -> annot_described o')
                  /\ (a_StructParent o <> None -> a_StructParent o' <> None).

(** Every image object of a page in [pps] has an entry in [imgs] *)
Definition images_cover (imgs : list ImageInfo.t) (pps : list (nat * page)) : Prop :=
  forall pp xs entry,
    In pp pps -> pg_XObject (snd pp) = Some xs -> In entry xs ->
    x_Subtype (snd entry) = "Image" ->
    find_image imgs (fst pp) (fst entry) <> None.

(** The titles of the Figure nodes, which the marking takes for the
    images that are tagged *)
Definition tagged_images_of (tr : struct_tree_root) : list string :=
  map (fun e => str_or_empty (se_T e))
      (filter (fun e => String.eqb (se_S e) "Figure") (K_list tr)).

(** Whether every page that shows something has a Figure node with the
    title of its images *)
Definition pages_have_tagged_image (self : t) : bool :=
  match StructTreeRoot (pdf self) with
  | None => false
  | Some tr =>
      forallb (fun pp =>
                 match pg_XObject (snd pp) with
                 | None => true
                 | Some _ => PyStr.mem ("Image on page " ++ PyStr.of_nat (fst pp))
                               (tagged_images_of tr)
                 end)
              (enumerate1 (pages (pdf self)))
  end.

(** Every value of the ParentTree is a node of [/K] *)
Definition nums_in_K (k : list struct_elem) (n : list (nat * struct_elem)) : Prop :=
  forall key e, In (key, e) n -> In e k.

End RepairChecks.

(** A page with a note that has no contents, and a link *)
Definition annotated_doc : EnhancedPDFRemediator.t :=
  EnhancedPDFRemediator.mk
    (Pdf.mk [Pdf.mk_page None (Some [0; 1])]
            [Pdf.mk_annot "Text" None false None None;
             Pdf.mk_annot "Link" (Some "here") false (Some "https://example.com/a") None]
            None None None)
    RemediationReport.empty [] [] [] [] [].

(** A form with a text field that has a name only and a button that has
    neither name nor tooltip *)
Definition form_doc : EnhancedPDFRemediator.t :=
  EnhancedPDFRemediator.mk
    (Pdf.mk [Pdf.mk_page None None] []
            (Some [Pdf.mk_field (Some "Tx") (Some "first_name") None None 0 None;
                   Pdf.mk_field (Some "Btn") None None None 0 None])
            None None)
    RemediationReport.empty [] [] [] [] [].

(** A tagged page that shows an image and a form object *)
Definition figure_and_form_doc : EnhancedPDFRemediator.t :=
  EnhancedPDFRemediator.mk
    (Pdf.mk [Pdf.mk_page (Some [("/Im0", Pdf.mk_xobject "Image" 500 500);
                                ("/Fm0", Pdf.mk_xobject "Form" 0 0)]) None]
            [] None (Some true)
            (Some (Pdf.mk_root
                     (Some [Pdf.mk_elem "Figure" true (Some "Image on page 1")
                              (Some "A chart of the yearly results") None None []])
                     (Some (Pdf.mk_parent_tree (Some []))) false)))
    RemediationReport.empty [] [] [] [] [].

(** [h'] is [h] with its text and a level that is not higher *)
Definition kept_heading (h h' : Soup.heading) : Prop :=
  Soup.strings h' = Soup.strings h /\ 1 <= Soup.level h' <= Soup.level h.


(** The issues of one type *)
Definition issues_of_type (ty : string) (self : AccessibilityChecker.t)
  : list AccessibilityChecker.issue :=
  filter (fun i => String.eqb (AccessibilityChecker.type i) ty)
         (AccessibilityChecker.issues self).

(** A checker that has recorded skipped heading levels before *)
Definition checker_with_skipped_issue : AccessibilityChecker.t :=
  AccessibilityChecker.add_issue empty_checker "1.3.1" "Skipped Heading Levels"
    "Heading levels are skipped: h1 to h3" "error" "skipped_heading_levels".

(** Whether, for every total up to [n], the score lies between 0 and 100
    and reaches 80 and 50 exactly when 100 p / t does *)
Definition summary_tiers_upto (n : nat) : bool :=
  forallb (fun t =>
    forallb (fun p =>
      match AccessibilityChecker.score_of p t with
      | Some s =>
          Bool.eqb (80 <=? s)%Z (80 * Z.of_nat t <=? 100 * Z.of_nat p)%Z
          && Bool.eqb (50 <=? s)%Z (50 * Z.of_nat t <=? 100 * Z.of_nat p)%Z
          && (0 <=? s)%Z && (s <=? 100)%Z
      | None => false
      end) (seq 0 (S t))) (seq 1 n).

(** The status that the counts of a report call for, in integers *)
Definition status_of_counts (passed issues warnings : nat) : string :=
  let total := Z.of_nat (passed + issues + warnings) in
  if (issues =? 0)%nat then "pass"
  else if (80 * total <=? 100 * Z.of_nat passed)%Z then "near_pass"
  else if (50 * total <=? 100 * Z.of_nat passed)%Z then "needs_work"
  else "fail".

(** ** The parsed HTML document

    The tree that BeautifulSoup builds from a page: text nodes, comments
    and elements with their attributes, in document order.  Parsing and
    printing are not modelled; the checks and repairs below start from
    the tree.  An attribute holds the text of its value; [class] and
    [rel], which BeautifulSoup hands out as lists of tokens, are split on
    white space where the code looks at them. *)

Module Html.

#[warnings="-register-all"]
Inductive node :=
| Text (s : string)
| Comment (s : string)
| Elem (name : string) (attrs : list (string * string)) (children : list node).

(** The BeautifulSoup object: the nodes at the top of the document *)
Definition t := list node.

(** [tag.get(key)] *)
Fixpoint get_attr (attrs : list (string * string)) (key : string) : option string :=
  match attrs with
  | [] => None
  | (k, v) :: r => if String.eqb k key then Some v else get_attr r key
  end.

(** [tag[key] = v] *)
Fixpoint set_attr (attrs : list (string * string)) (key v : string)
  : list (string * string) :=
  match attrs with
  | [] => [(key, v)]
  | (k, x) :: r => if String.eqb k key then (k, v) :: r else (k, x) :: set_attr r key v
  end.

(** [tag.get(key, '')] *)
Definition get_or_empty (attrs : list (string * string)) (key : string) : string :=
  match get_attr attrs key with Some v => v | None => "" end.

(** [not tag.get(key)] for an attribute that holds a string *)
Definition lacks (attrs : list (string * string)) (key : string) : bool :=
  PyStr.is_empty (get_or_empty attrs key).

(** The tokens of a value, as BeautifulSoup splits [class] and [rel] *)
Fixpoint tokens (s : string) : list string :=
  match s with
  | EmptyString => []
  | String c r =>
      if PyStr.isspace c then tokens r
      else
        match r with
        | EmptyString => [String c EmptyString]
        | String c' _ =>
            if PyStr.isspace c' then String c EmptyString :: tokens r
            else
              match tokens r with
              | tok :: toks => String c tok :: toks
              | [] => [String c EmptyString]
              end
        end
  end.

(** [tag.get(key)] for [class] and [rel]: [None] without the attribute *)
Definition get_tokens (attrs : list (string * string)) (key : string) : option (list string) :=
  option_map tokens (get_attr attrs key).

(** A node and everything below it, in document order *)
Fixpoint nodes (n : node) : list node :=
  match n with
  | Elem _ _ children => n :: flat_map nodes children
  | _ => [n]
  end.

Definition nodes_list (l : list node) : list node := flat_map nodes l.

Definition children_of (n : node) : list node :=
  match n with Elem _ _ children => children | _ => [] end.

Definition attrs_of (n : node) : list (string * string) :=
  match n with Elem _ attrs _ => attrs | _ => [] end.

Definition name_of (n : node) : string :=
  match n with Elem name _ _ => name | _ => "" end.

Definition is_named (names : list string) (n : node) : bool :=
  match n with Elem name _ _ => PyStr.mem name names | _ => false end.

(** [soup.find_all(names)] *)
Definition find_all (names : list string) (soup : t) : list node :=
  filter (is_named names) (nodes_list soup).

(** [tag.find_all(names)] *)
Definition find_all_in (names : list string) (tag : node) : list node :=
  filter (is_named names) (nodes_list (children_of tag)).

(** [soup.find(name)] *)
Definition find (name : string) (soup : t) : option node :=
  hd_error (find_all [name] soup).

(** The text nodes below a node, comments left out *)
Fixpoint strings (n : node) : list string :=
  match n with
  | Text s => [s]
  | Comment _ => []
  | Elem _ _ children => flat_map strings children
  end.

(** [tag.get_text(strip=True)] *)
Definition get_text_strip (n : node) : string :=
  String.concat "" (filter (fun s => negb (PyStr.is_empty s)) (map PyStr.strip (strings n))).

(** [tag.string]: the only child when it is a string, or its [.string] *)
Fixpoint string_of (n : node) : option string :=
  match n with
  | Text s => Some s
  | Comment s => Some s
  | Elem _ _ children =>
      match children with
      | [c] => string_of c
      | _ => None
      end
  end.

(** The nodes with the names of their ancestors, the nearest first *)
Fixpoint with_ancestors (ancestors : list string) (n : node) : list (list string * node) :=
  match n with
  | Elem name _ children =>
      (ancestors, n) :: flat_map (with_ancestors (name :: ancestors)) children
  | _ => [(ancestors, n)]
  end.

Definition with_ancestors_list (l : list node) : list (list string * node) :=
  flat_map (with_ancestors []) l.

(** The digit of the name of a heading element *)
Definition heading_level (name : string) : option nat :=
  if String.eqb name "h1" then Some 1
  else if String.eqb name "h2" then Some 2
  else if String.eqb name "h3" then Some 3
  else if String.eqb name "h4" then Some 4
  else if String.eqb name "h5" then Some 5
  else if String.eqb name "h6" then Some 6
  else None.

Definition heading_of_node (n : node) : list Soup.heading :=
  match n with
  | Elem name _ _ =>
      match heading_level name with
      | Some l => [Soup.mk_heading l (strings n)]
      | None => []
      end
  | _ => []
  end.

(** The nodes before the first [main] element and those after its start *)
Fixpoint split_at_main (ns : list node) : list node * option (list node) :=
  match ns with
  | [] => ([], None)
  | n :: r =>
      if is_named ["main"] n then ([], Some r)
      else let (b, m) := split_at_main r in (n :: b, m)
  end.

(** The document as far as its headings go *)
Definition heading_view (soup : t) : Soup.t :=
  let (b, m) := split_at_main (nodes_list soup) in
  Soup.mk (flat_map heading_of_node b) (option_map (flat_map heading_of_node) m).

(** The first element of a list that [g] changes is changed *)
Section UpdateFirst.
Context {A : Type} (g : A -> option A).
Fixpoint update_first_of (l : list A) : option (list A) :=
  match l with
  | [] => None
  | c :: r =>
      match g c with
      | Some c' => Some (c' :: r)
      | None => option_map (cons c) (update_first_of r)
      end
  end.
End UpdateFirst.

(** The first node in document order that satisfies [p] is replaced by
    [f] of it; [None] when there is none *)
Fixpoint update_first (p : node -> bool) (f : node -> node) (n : node) : option node :=
  if p n then Some (f n)
  else
    match n with
    | Elem name attrs children =>
        option_map (Elem name attrs) (update_first_of (update_first p f) children)
    | _ => None
    end.

Definition update_first_list (p : node -> bool) (f : node -> node) (l : list node)
  : option (list node) :=
  update_first_of (update_first p f) l.

End Html.

(** ** Further Python string operations *)

Module PyMore.

(** The double quote *)
Definition dquote : string := String (ascii_of_nat 34) EmptyString.

Definition newline : ascii := ascii_of_nat 10.

(** [pat in s] *)
Fixpoint contains (pat s : string) : bool :=
  String.prefix pat s
  || match s with
     | EmptyString => false
     | String _ r => contains pat r
     end.

(** [re.match(r'.*content', s)]: the dot matches every character but the
    newline *)
Fixpoint match_any_content (s : string) : bool :=
  String.prefix "content" s
  || match s with
     | EmptyString => false
     | String c r => negb (Ascii.eqb c newline) && match_any_content r
     end.

(** [re.search(r'#.*content', s)] *)
Fixpoint search_hash_content (s : string) : bool :=
  match s with
  | EmptyString => false
  | String c r => (Ascii.eqb c "#" && match_any_content r) || search_hash_content r
  end.

(** [s[:n]] *)
Definition take (n : nat) (s : string) : string := String.substring 0 n s.

End PyMore.

(** ** The checks of [AccessibilityChecker] on the parsed document *)

Module HtmlChecker.

Import AccessibilityChecker.

(** [check_document_title] *)
Definition check_document_title (self : t) (soup : Html.t) : t :=
  let missing :=
    add_issue self "2.4.2" "Missing or Empty Page Title"
      "The document does not have a title or the title is empty." "error" "missing_title" in
  match Html.find "title" soup with
  | None => missing
  | Some title =>
      let title_text := Html.get_text_strip title in
      if PyStr.is_empty title_text then missing
      else if (String.length title_text <? 3)%nat then
        add_issue self "2.4.2" "Page Title Too Short"
          ("The page title " ++ PyMore.dquote ++ title_text ++ PyMore.dquote
             ++ " is too short to be meaningful.")
          "warning" "unknown"
      else add_passed_check self "2.4.2" "Page has a meaningful title"
  end.

(** [check_language] *)
Definition check_language (self : t) (soup : Html.t) : t :=
  let missing :=
    add_issue self "3.1.1" "Missing Language Declaration"
      "The HTML element does not have a lang attribute." "error" "missing_lang" in
  match Html.find "html" soup with
  | None => missing
  | Some html_tag =>
      if Html.lacks (Html.attrs_of html_tag) "lang" then missing
      else
        let lang := Html.get_or_empty (Html.attrs_of html_tag) "lang" in
        if (String.length lang <? 2)%nat then
          add_issue self "3.1.1" "Invalid Language Code"
            ("The lang attribute " ++ PyMore.dquote ++ lang ++ PyMore.dquote
               ++ " is not a valid language code.")
            "error" "unknown"
        else
          add_passed_check self "3.1.1"
            ("Document language declared as " ++ PyMore.dquote ++ lang ++ PyMore.dquote)
  end.

(** [img.has_attr('alt')] *)
Definition has_alt (img : Html.node) : bool :=
  match Html.get_attr (Html.attrs_of img) "alt" with Some _ => true | None => false end.

(** [check_images]; [missing_alt] holds the [src] of the images without
    an [alt] attribute *)
Definition check_images (self : t) (soup : Html.t) : t :=
  match Html.find_all ["img"] soup with
  | [] => add_passed_check self "1.1.1" "No images found"
  | images =>
      let missing_alt :=
        map (fun img => match Html.get_attr (Html.attrs_of img) "src" with
                        | Some src => src
                        | None => "unknown"
                        end)
            (filter (fun img => negb (has_alt img)) images) in
      match missing_alt with
      | _ :: _ =>
          add_issue self "1.1.1" "Images Missing Alt Text"
            (PyStr.of_nat (List.length missing_alt) ++ " image(s) do not have alt attributes.")
            "error" "missing_alt_text"
      | [] =>
          add_passed_check self "1.1.1"
            ("All " ++ PyStr.of_nat (List.length images) ++ " images have alt attributes")
      end
  end.

Definition generic_texts : list string :=
  ["click here"; "read more"; "more"; "link"; "here"].

(** [not link.get('rel') or 'noopener' not in link.get('rel', [])] *)
Definition lacks_noopener (link : Html.node) : bool :=
  match Html.get_tokens (Html.attrs_of link) "rel" with
  | None => true
  | Some [] => true
  | Some rel => negb (PyStr.mem "noopener" rel)
  end.

(** What the loop of [check_links] appends to [issues_found] for a link *)
Definition link_issues (link : Html.node) : list string :=
  let link_text := Html.get_text_strip link in
  let href := Html.get_or_empty (Html.attrs_of link) "href" in
  List.app
    (if PyStr.is_empty link_text then ["Empty link: " ++ PyMore.take 50 href] else [])
    (List.app
       (if PyStr.mem (PyStr.lower link_text) generic_texts
        then ["Generic link text: " ++ PyMore.dquote ++ link_text ++ PyMore.dquote]
        else [])
       (if PyStr.startswith href "http" && lacks_noopener link
        then ["External link missing security attributes: " ++ PyMore.take 50 link_text]
        else [])).

(** [check_links] *)
Definition check_links (self : t) (soup : Html.t) : t :=
  match Html.find_all ["a"] soup with
  | [] => add_passed_check self "2.4.4" "No links found"
  | links =>
      let issues_found := flat_map link_issues links in
      match issues_found with
      | _ :: _ =>
          add_issue self "2.4.4" "Link Accessibility Issues"
            ("Found " ++ PyStr.of_nat (List.length issues_found) ++ " link issue(s).")
            "warning" "unknown"
      | [] =>
          add_passed_check self "2.4.4"
            ("All " ++ PyStr.of_nat (List.length links) ++ " links have descriptive text")
      end
  end.

(** What the loop of [check_tables] appends to [issues_found] for the
    [i]-th table *)
Definition table_issues (it : nat * Html.node) : list string :=
  let (i, table) := it in
  List.app
    (match Html.find_all_in ["caption"] table with
     | [] => ["Table " ++ PyStr.of_nat i ++ " missing caption"]
     | _ :: _ => []
     end)
    (List.app
       (match Html.find_all_in ["th"] table with
        | [] => ["Table " ++ PyStr.of_nat i ++ " has no header cells (th)"]
        | headers =>
            if existsb (fun th => Html.lacks (Html.attrs_of th) "scope") headers
            then ["Table " ++ PyStr.of_nat i ++ " header missing scope attribute"]
            else []
        end)
       (if Html.lacks (Html.attrs_of table) "role"
        then ["Table " ++ PyStr.of_nat i ++ " missing role=" ++ PyMore.dquote ++ "table"
                ++ PyMore.dquote]
        else [])).

(** [check_tables] *)
Definition check_tables (self : t) (soup : Html.t) : t :=
  match Html.find_all ["table"] soup with
  | [] => add_passed_check self "1.3.1" "No tables found"
  | tables =>
      let issues_found := flat_map table_issues (Pdf.enumerate1 tables) in
      match issues_found with
      | _ :: _ =>
          add_issue self "1.3.1" "Table Accessibility Issues"
            ("Found issues in " ++ PyStr.of_nat (List.length (set_of issues_found))
               ++ " table(s).")
            "error" "table_accessibility"
      | [] =>
          add_passed_check self "1.3.1"
            ("All " ++ PyStr.of_nat (List.length tables) ++ " tables are properly structured")
      end
  end.

(** [soup.find('label', attrs={'for': elem_id})] finds a label *)
Definition has_label_for (soup : Html.t) (elem_id : string) : bool :=
  existsb (fun n => Html.is_named ["label"] n
                    && match Html.get_attr (Html.attrs_of n) "for" with
                       | Some v => String.eqb v elem_id
                       | None => false
                       end)
          (Html.nodes_list soup).

(** The body of the loop of [check_forms]: whether the element, met below
    the elements named in [ancestors], has a label *)
Definition form_element_labelled (soup : Html.t) (an : list string * Html.node) : bool :=
  let (ancestors, input_elem) := an in
  let elem_id := Html.get_or_empty (Html.attrs_of input_elem) "id" in
  (negb (PyStr.is_empty elem_id) && has_label_for soup elem_id)
  || PyStr.mem "label" ancestors
  || negb (Html.lacks (Html.attrs_of input_elem) "aria-label").

(** [check_forms] *)
Definition check_forms (self : t) (soup : Html.t) : t :=
  match filter (fun an => Html.is_named ["input"; "select"; "textarea"] (snd an))
               (Html.with_ancestors_list soup) with
  | [] => add_passed_check self "4.1.2" "No form elements found"
  | inputs =>
      let unlabeled :=
        map (fun an => Html.name_of (snd an))
            (filter (fun an => negb (form_element_labelled soup an)) inputs) in
      match unlabeled with
      | _ :: _ =>
          add_issue self "4.1.2" "Form Elements Missing Labels"
            (PyStr.of_nat (List.length unlabeled)
               ++ " form element(s) do not have associated labels.")
            "error" "unknown"
      | [] =>
          add_passed_check self "4.1.2"
            ("All " ++ PyStr.of_nat (List.length inputs) ++ " form elements have labels")
      end
  end.

(** [soup.find_all('a', href=re.compile(r'#.*content'))] *)
Definition skip_links (soup : Html.t) : list Html.node :=
  filter (fun n => match Html.get_attr (Html.attrs_of n) "href" with
                   | Some href => PyMore.search_hash_content href
                   | None => false
                   end)
         (Html.find_all ["a"] soup).

(** [check_skip_navigation] *)
Definition check_skip_navigation (self : t) (soup : Html.t) : t :=
  match skip_links soup with
  | [] =>
      add_issue self "2.4.1" "Missing Skip Navigation Link" "No skip navigation link found."
        "error" "unknown"
  | _ :: _ => add_passed_check self "2.4.1" "Skip navigation link present"
  end.

(** [check_aria_landmarks] *)
Definition check_aria_landmarks (self : t) (soup : Html.t) : t :=
  match Html.find "main" soup with
  | None =>
      add_issue self "1.3.1" "Missing Main Landmark" "No &lt;main&gt; element found."
        "error" "unknown"
  | Some main_element =>
      if Html.lacks (Html.attrs_of main_element) "role" then
        add_issue self "1.3.1" "Main Element Missing Role"
          ("The &lt;main&gt; element does not have role=" ++ PyMore.dquote ++ "main"
             ++ PyMore.dquote ++ ".")
          "warning" "unknown"
      else add_passed_check self "1.3.1" "Main landmark properly defined"
  end.

Definition low_contrast_patterns : list string :=
  ["color: #999"; "color: #ccc"; "color: gray"].

(** [check_color_contrast]; a [style] element without a single string
    below it leaves no record *)
Definition check_color_contrast (self : t) (soup : Html.t) : t :=
  match Html.find "style" soup with
  | Some style_tag =>
      match Html.string_of style_tag with
      | Some style_content =>
          if PyStr.is_empty style_content then self
          else
            match filter (fun pattern => PyMore.contains pattern (PyStr.lower style_content))
                         low_contrast_patterns with
            | _ :: _ =>
                add_issue self "1.4.3" "Potential Color Contrast Issues"
                  "Found potential low-contrast color combinations in CSS." "warning" "unknown"
            | [] => add_passed_check self "1.4.3" "No obvious color contrast issues detected"
            end
      | None => self
      end
  | None => add_passed_check self "1.4.3" "No inline styles to check"
  end.

Definition semantic_elements : list string :=
  ["header"; "nav"; "main"; "article"; "section"; "aside"; "footer"].

(** [check_semantic_structure] *)
Definition check_semantic_structure (self : t) (soup : Html.t) : t :=
  match Html.find "body" soup with
  | None =>
      add_issue self "1.3.1" "Missing Body Element" "No &lt;body&gt; element found."
        "error" "unknown"
  | Some _ =>
      let found_elements :=
        filter (fun elem => match Html.find elem soup with Some _ => true | None => false end)
               semantic_elements in
      if (List.length found_elements <? 2)%nat then
        add_issue self "1.3.1" "Limited Semantic Structure"
          "The document uses few or no semantic HTML5 elements." "warning" "unknown"
      else
        add_passed_check self "1.3.1"
          ("Document uses semantic HTML5 elements: " ++ String.concat ", " found_elements)
  end.

(** [add_ocr_warning] *)
Definition add_ocr_warning (self : t) (warning_message : string) : t :=
  add_issue self "N/A" "OCR Detection Warning" warning_message "warning" "ocr_needed".

(** The checks of [check_accessibility], in its order, on a checker that
    has been reset; [ocr_warning] is [None] or the message *)
Definition run_checks (soup : Html.t) (ocr_warning : option string) : t :=
  let self := mk [] [] [] in
  let self :=
    match ocr_warning with
    | Some message => if PyStr.is_empty message then self else add_ocr_warning self message
    | None => self
    end in
  let self := check_document_title self soup in
  let self := check_language self soup in
  let self := check_heading_hierarchy self (Html.heading_view soup) in
  let self := check_images self soup in
  let self := check_links self soup in
  let self := check_tables self soup in
  let self := check_forms self soup in
  let self := check_skip_navigation self soup in
  let self := check_aria_landmarks self soup in
  let self := check_color_contrast self soup in
  check_semantic_structure self soup.

(** [check_accessibility], from the parsed document on *)
Definition check_accessibility (soup : Html.t) (ocr_warning : option string) : report :=
  generate_report (run_checks soup ocr_warning).

End HtmlChecker.

(** ** The repairs of [PDFProcessor] on the parsed document

    A loop over [soup.find_all(...)] that changes one element at a time is
    a map over the tree, from the top: what it does to an element depends
    on that element as it was found. *)

Module HtmlRepair.

Import Html.

(** [add_alt_text_to_images] *)
Fixpoint add_alt_text_node (n : node) : node :=
  match n with
  | Elem name attrs children =>
      Elem name
        (if String.eqb name "img" && lacks attrs "alt"
         then set_attr attrs "alt" "Document image"
         else attrs)
        (map add_alt_text_node children)
  | _ => n
  end.

Definition add_alt_text_to_images (soup : t) : t := map add_alt_text_node soup.

(** The attributes that [remediate_links] gives an external link that
    lacks them *)
Definition external_link_attrs (attrs : list (string * string)) (link_text : string)
  : list (string * string) :=
  let attrs :=
    if lacks attrs "title" then set_attr attrs "title" ("External link: " ++ link_text)
    else attrs in
  let attrs := if lacks attrs "target" then set_attr attrs "target" "_blank" else attrs in
  match get_tokens attrs "rel" with
  | Some (_ :: _) => attrs
  | _ => set_attr attrs "rel" "noopener noreferrer"
  end.

(** [remediate_links]; [link.string = s] leaves the text [s] as the only
    child of the link *)
Fixpoint remediate_link_node (n : node) : node :=
  match n with
  | Elem name attrs children =>
      if String.eqb name "a" then
        let href := get_or_empty attrs "href" in
        let link_text := get_text_strip n in
        if PyStr.is_empty link_text then
          let s := if negb (PyStr.is_empty href) then href else "Link" in
          let link_text := get_text_strip (Elem name attrs [Text s]) in
          Elem name
            (if PyStr.startswith href "http" then external_link_attrs attrs link_text
             else attrs)
            [Text s]
        else
          Elem name
            (if PyStr.startswith href "http" then external_link_attrs attrs link_text
             else attrs)
            (map remediate_link_node children)
      else Elem name attrs (map remediate_link_node children)
  | _ => n
  end.

Definition remediate_links (soup : t) : t := map remediate_link_node soup.

(** [add_aria_landmarks] *)
Definition add_main_role (main : node) : node :=
  match main with
  | Elem name attrs children =>
      Elem name (if lacks attrs "role" then set_attr attrs "role" "main" else attrs) children
  | _ => main
  end.

Definition add_aria_landmarks (soup : t) : t :=
  match update_first_list (is_named ["main"]) add_main_role soup with
  | Some soup' => soup'
  | None => soup
  end.

(** [soup.find('a', attrs={'class': 'skip-link'})] finds a link *)
Definition has_skip_link_class (soup : t) : bool :=
  existsb (fun n => match get_tokens (attrs_of n) "class" with
                    | Some classes => PyStr.mem "skip-link" classes
                    | None => false
                    end)
          (find_all ["a"] soup).

Definition skip_link : node :=
  Elem "a" [("href", "#main-content"); ("class", "skip-link")] [Text "Skip to main content"].

(** [body.insert(0, skip_link)] *)
Definition insert_skip_link (body : node) : node :=
  match body with
  | Elem name attrs children => Elem name attrs (skip_link :: children)
  | _ => body
  end.

Definition add_main_id (main : node) : node :=
  match main with
  | Elem name attrs children =>
      Elem name (if lacks attrs "id" then set_attr attrs "id" "main-content" else attrs) children
  | _ => main
  end.

(** [add_skip_navigation] *)
Definition add_skip_navigation (soup : t) : t :=
  match find "body" soup with
  | None => soup
  | Some _ =>
      if has_skip_link_class soup then soup
      else
        let soup :=
          match update_first_list (is_named ["body"]) insert_skip_link soup with
          | Some soup' => soup'
          | None => soup
          end in
        match update_first_list (is_named ["main"]) add_main_id soup with
        | Some soup' => soup'
        | None => soup
        end
  end.

End HtmlRepair.

(** The number of records of a checker *)
Definition records (self : AccessibilityChecker.t) : nat :=
  (List.length (AccessibilityChecker.issues self)
   + List.length (AccessibilityChecker.warnings self)
   + List.length (AccessibilityChecker.passed_checks self))%nat.

(** A page with a title, a heading, an external link and an image *)
Definition page_doc : Html.t :=
  [Html.Elem "html" []
     [Html.Elem "head" [] [Html.Elem "title" [] [Html.Text "Annual report"]];
      Html.Elem "body" []
        [Html.Elem "main" []
           [Html.Elem "h1" [] [Html.Text "Annual report"];
            Html.Elem "a" [("href", "https://example.com/")] [Html.Text "Example"];
            Html.Elem "img" [("src", "chart.png")] []]]]].

(** The external link of [page_doc] after [remediate_links] *)
Definition page_doc_link : Html.node :=
  Html.Elem "a"
    [("href", "https://example.com/"); ("title", "External link: Example");
     ("target", "_blank"); ("rel", "noopener noreferrer")]
    [Html.Text "Example"].

(** ** The reading order of the pages

    [set_reading_order] and [_check_reading_order] read and write two keys
    of a page dictionary, [/StructParents] and [/Tabs], and the list of
    fixed issues of the report; they are kept here apart from the rest of
    the document. *)

Module ReadingOrder.

Record page := mk_page {
  StructParents : option Z;
  Tabs : option string            (* the name, without the slash *)
}.

Record t := mk {
  pages : list page;
  issues_fixed : list AccessibilityIssue
}.

(** The body of the loop of [set_reading_order] *)
Definition set_page (pp : nat * page) : page :=
  let (page_num, page) := pp in
  mk_page (match StructParents page with
           | Some k => Some k
           | None => Some (Z.of_nat page_num - 1)%Z
           end)
          (Some "S").

(** [EnhancedPDFRemediator.set_reading_order] *)
Definition set_reading_order (self : t) : bool * t :=
  (true,
   mk (map set_page (Pdf.enumerate1 (pages self)))
      (List.app (issues_fixed self)
         [mk_AccessibilityIssue "Reading Order" "major"
            "Set reading order to follow document structure" "1.3.2 Meaningful Sequence"
            None true])).

(** [EnhancedPDFRemediator._check_reading_order] *)
Definition _check_reading_order (self : t) : list AccessibilityIssue :=
  if existsb (fun page => match Tabs page with None => true | Some _ => false end)
             (pages self)
  then [mk_AccessibilityIssue "Reading Order" "major"
          "Reading order not properly configured" "1.3.2 Meaningful Sequence" None false]
  else [].

End ReadingOrder.

(** * Properties *)

Local Open Scope list_scope.
Local Open Scope nat_scope.

(** ** The quotient of two integers in binary64 *)

Section TrueDiv.
Local Open Scope Z_scope.

Lemma digits2_pos_bounds (p : positive) :
  2 ^ (Z.pos (digits2_pos p) - 1) <= Z.pos p < 2 ^ Z.pos (digits2_pos p).
Proof.
  induction p as [p IH|p IH|]; cbn [digits2_pos].
  - rewrite Pos2Z.inj_succ. replace (Z.succ (Z.pos (digits2_pos p)) - 1)
      with (Z.succ (Z.pos (digits2_pos p) - 1)) by lia.
    rewrite !Z.pow_succ_r by lia. lia.
  - rewrite Pos2Z.inj_succ. replace (Z.succ (Z.pos (digits2_pos p)) - 1)
      with (Z.succ (Z.pos (digits2_pos p) - 1)) by lia.
    rewrite !Z.pow_succ_r by lia. lia.
  - cbn. lia.
Qed.

Lemma Zdigits2_unique (z d : Z) :
  2 ^ (d - 1) <= z < 2 ^ d -> 0 < d -> Zdigits2 z = d.
Proof.
  intros [Hl Hu] Hd.
  assert (Hz : 0 < z) by (pose proof (Z.pow_pos_nonneg 2 (d - 1)); lia).
  destruct z as [|p|p]; try lia. cbn [Zdigits2].
  pose proof (digits2_pos_bounds p) as [Bl Bu].
  set (d' := Z.pos (digits2_pos p)) in *.
  assert (d' > 0) by (unfold d'; lia).
  destruct (Z.lt_trichotomy d' d) as [L|[E|G]]; [|exact E|]; exfalso.
  - assert (2 ^ d' <= 2 ^ (d - 1)) by (apply Z.pow_le_mono_r; lia). lia.
  - assert (2 ^ d <= 2 ^ (d' - 1)) by (apply Z.pow_le_mono_r; lia). lia.
Qed.

Lemma loc_of_shr_record_of_loc (m : Z) (l : location) :
  loc_of_shr_record (shr_record_of_loc m l) = l.
Proof. destruct l as [|[| |]]; reflexivity. Qed.

Lemma shr_m_of_loc (m : Z) (l : location) : shr_m (shr_record_of_loc m l) = m.
Proof. destruct l as [|[| |]]; reflexivity. Qed.

Lemma shr_1_spec (p : positive) (r s : bool) :
  shr_1 {| shr_m := Z.pos p; shr_r := r; shr_s := s |}
  = {| shr_m := Z.pos p / 2; shr_r := Z.odd (Z.pos p); shr_s := r || s |}.
Proof.
  destruct p as [p|p|]; cbn [shr_1].
  - f_equal. rewrite Pos2Z.inj_xI. apply (Z.div_unique _ _ _ 1); lia.
  - f_equal. rewrite Pos2Z.inj_xO. apply (Z.div_unique _ _ _ 0); lia.
  - reflexivity.
Qed.

Lemma round_nearest_even_bounds (q : Z) (l : location) :
  q <= round_nearest_even q l <= q + 1.
Proof.
  destruct l as [|[| |]]; cbn [round_nearest_even]; try lia.
  destruct (Z.even q); lia.
Qed.

Lemma shr_fexp_53 (m e : Z) (l : location) :
  2 ^ 52 <= m < 2 ^ 53 -> -1074 <= e ->
  shr_fexp 53 1024 m e l = (shr_record_of_loc m l, e).
Proof.
  intros Hm He. unfold shr_fexp.
  rewrite (Zdigits2_unique m 53) by (change (53 - 1) with 52; lia).
  unfold fexp, emin.
  replace (Z.max (53 + e - 53) (3 - 1024 - 53) - e) with 0 by lia.
  reflexivity.
Qed.

Lemma shr_fexp_54 (m e : Z) (l : location) :
  2 ^ 53 <= m < 2 ^ 54 -> -1074 <= e ->
  shr_fexp 53 1024 m e l = (shr_1 (shr_record_of_loc m l), e + 1).
Proof.
  intros Hm He. unfold shr_fexp.
  rewrite (Zdigits2_unique m 54) by (change (54 - 1) with 53; lia).
  unfold fexp, emin.
  replace (Z.max (54 + e - 53) (3 - 1024 - 53) - e) with 1 by lia.
  reflexivity.
Qed.

(** The second normalisation of [binary_round_aux] *)
Lemma binary_round_aux_tail (m1 e : Z) :
  2 ^ 52 <= m1 <= 2 ^ 53 -> -1074 <= e <= 961 ->
  (let '(mrs'', e'') := shr_fexp 53 1024 m1 e loc_Exact in
   match shr_m mrs'' with
   | Z0 => S754_zero false
   | Zpos m => if e'' <=? 1024 - 53 then S754_finite false m e'' else S754_infinity false
   | Zneg _ => S754_nan
   end)
  = S754_finite false (Z.to_pos (fst (renorm (m1, 0)))) (e + snd (renorm (m1, 0))).
Proof.
  intros Hm He. unfold renorm. cbn [fst snd].
  destruct (Z.eqb_spec m1 (2 ^ 53)) as [E|N].
  - subst m1. rewrite shr_fexp_54 by lia. cbn [shr_record_of_loc].
    change (2 ^ 53) with (Z.pos (2 ^ 53)%positive). rewrite shr_1_spec. cbn [shr_m fst snd].
    change (Z.pos (2 ^ 53) / 2) with (Z.pos (2 ^ 52)%positive).
    replace (e + 1 <=? 1024 - 53) with true by (symmetry; apply Z.leb_le; lia).
    reflexivity.
  - rewrite shr_fexp_53 by lia. cbn [shr_record_of_loc shr_m].
    destruct m1 as [|p|p]; try lia.
    replace (e <=? 1024 - 53) with true by (symmetry; apply Z.leb_le; lia).
    rewrite Z.add_0_r. reflexivity.
Qed.

(** What [binary_round_aux] makes of a quotient of 53 or 54 bits *)
Lemma binary_round_aux_53 (q e : Z) (l : location) :
  2 ^ 52 <= q < 2 ^ 54 -> -1074 <= e <= 960 ->
  binary_round_aux 53 1024 false q e l
  = S754_finite false (Z.to_pos (fst (renorm (round53 q l))))
      (e + snd (renorm (round53 q l))).
Proof.
  intros Hq He. unfold binary_round_aux, round53.
  destruct (Z.ltb_spec q (2 ^ 53)) as [L|G].
  - rewrite shr_fexp_53 by lia. rewrite shr_m_of_loc, loc_of_shr_record_of_loc.
    pose proof (round_nearest_even_bounds q l) as Hr.
    apply binary_round_aux_tail; lia.
  - rewrite shr_fexp_54 by lia.
    destruct q as [|pq|pq]; try lia.
    assert (S : shr_record_of_loc (Z.pos pq) l
                = {| shr_m := Z.pos pq;
                     shr_r := match l with loc_Inexact Eq | loc_Inexact Gt => true | _ => false end;
                     shr_s := match l with loc_Inexact Lt | loc_Inexact Gt => true | _ => false end |}).
    { destruct l as [|[| |]]; reflexivity. }
    rewrite S, shr_1_spec. cbn [shr_m].
    replace (match l with loc_Inexact Eq | loc_Inexact Gt => true | _ => false end
             || match l with loc_Inexact Lt | loc_Inexact Gt => true | _ => false end)
      with (match l with loc_Exact => false | _ => true end)
      by (destruct l as [|[| |]]; reflexivity).
    set (l' := loc_of_shr_record _).
    assert (Hm : 2 ^ 52 <= Z.pos pq / 2 < 2 ^ 53).
    { split; [apply Z.div_le_lower_bound; lia|apply Z.div_lt_upper_bound; lia]. }
    pose proof (round_nearest_even_bounds (Z.pos pq / 2) l') as Hr.
    rewrite binary_round_aux_tail by lia.
    unfold renorm. cbn [fst snd].
    destruct (_ =? _); cbn [fst snd]; f_equal; lia.
Qed.

(** The location of a quotient with remainder [r] *)
Lemma new_location_spec (h r : Z) :
  0 < h -> 0 <= r < h ->
  new_location h r = if r =? 0 then loc_Exact else loc_Inexact (2 * r ?= h).
Proof.
  intros Hh Hr. unfold new_location, new_location_even, new_location_odd.
  destruct (Z.even h) eqn:E; [reflexivity|].
  destruct (Z.eqb_spec r 0) as [|N]; [reflexivity|]. f_equal.
  assert (O : Z.odd h = true) by (rewrite <- Z.negb_even, E; reflexivity).
  apply Z.odd_spec in O. destruct O as [k ->].
  destruct (Z.compare_spec (2 * r + 1) (2 * k + 1)) as [C|C|C];
    destruct (Z.compare_spec (2 * r) (2 * k + 1)) as [D|D|D]; try reflexivity; lia.
Qed.

Lemma round53_new_location (q h r : Z) :
  0 < h -> 0 <= r < h ->
  round53 q (new_location h r)
  = if q <? 2 ^ 53
    then (q + b2z ((h <? 2 * r) || (h =? 2 * r) && Z.odd q), 0)
    else (q / 2 + b2z (Z.odd q && (negb (r =? 0) || Z.odd (q / 2))), 1).
Proof.
  intros Hh Hr. unfold round53. rewrite new_location_spec by assumption.
  destruct (q <? 2 ^ 53).
  - f_equal. destruct (Z.eqb_spec r 0) as [->|N]; cbn [round_nearest_even].
    + replace (h <? 2 * 0) with false by (symmetry; apply Z.ltb_ge; lia).
      replace (h =? 2 * 0) with false by (symmetry; apply Z.eqb_neq; lia).
      cbn. lia.
    + destruct (Z.compare_spec (2 * r) h) as [C|C|C].
      * replace (h <? 2 * r) with false by (symmetry; apply Z.ltb_ge; lia).
        replace (h =? 2 * r) with true by (symmetry; apply Z.eqb_eq; lia).
        cbn [orb andb]. rewrite <- Z.negb_odd. destruct (Z.odd q); cbn; lia.
      * replace (h <? 2 * r) with false by (symmetry; apply Z.ltb_ge; lia).
        replace (h =? 2 * r) with false by (symmetry; apply Z.eqb_neq; lia).
        cbn. lia.
      * replace (h <? 2 * r) with true by (symmetry; apply Z.ltb_lt; lia).
        cbn. lia.
  - f_equal. destruct (Z.odd q); cbn [andb b2z loc_of_shr_record].
    + destruct (Z.eqb_spec r 0) as [->|N]; cbn [negb orb loc_of_shr_record round_nearest_even].
      * rewrite <- Z.negb_odd. destruct (Z.odd (q / 2)); cbn; lia.
      * reflexivity.
    + destruct (r =? 0); cbn; lia.
Qed.

(** [<] on two positive floats in normal form *)
Lemma SFltb_finite (m1 e1 m2 e2 : Z) :
  0 < m1 -> 0 < m2 ->
  SFltb (S754_finite false (Z.to_pos m1) e1) (S754_finite false (Z.to_pos m2) e2)
  = (e1 <? e2) || (e1 =? e2) && (m1 <? m2).
Proof.
  intros H1 H2. unfold SFltb, SFcompare.
  destruct (Z.compare_spec e1 e2) as [C|C|C].
  - subst e2. rewrite Z.ltb_irrefl, Z.eqb_refl. cbn [orb andb].
    change (Pos.compare_cont Eq (Z.to_pos m1) (Z.to_pos m2))
      with (Z.to_pos m1 ?= Z.to_pos m2)%positive.
    rewrite Pos2Z.inj_compare, !Z2Pos.id by assumption.
    destruct (Z.compare_spec m1 m2) as [D|D|D]; symmetry;
      [apply Z.ltb_ge|apply Z.ltb_lt|apply Z.ltb_ge]; lia.
  - replace (e1 <? e2) with true by (symmetry; apply Z.ltb_lt; lia). reflexivity.
  - replace (e1 <? e2) with false by (symmetry; apply Z.ltb_ge; lia).
    replace (e1 =? e2) with false by (symmetry; apply Z.eqb_neq; lia). reflexivity.
Qed.

(** The quotient of two positive integers below 2^49: the dividend is
    scaled by [2^s] so that the integer quotient [q] has 53 or 54 bits, and
    [q] is rounded at the location that the remainder [r] gives. *)
Lemma true_div_pos (w h : Z) :
  0 < w < 2 ^ 49 -> 0 < h < 2 ^ 49 ->
  exists s q r,
    5 <= s <= 101 /\ w * 2 ^ s = q * h + r /\ 0 <= r < h /\ 2 ^ 52 <= q < 2 ^ 54
    /\ B64.true_div w h
       = S754_finite false (Z.to_pos (fst (renorm (round53 q (new_location h r)))))
           (- s + snd (renorm (round53 q (new_location h r)))).
Proof.
  intros Hw Hh. destruct w as [|pw|pw]; try lia. destruct h as [|ph|ph]; try lia.
  pose proof (digits2_pos_bounds pw) as [Wl Wu].
  pose proof (digits2_pos_bounds ph) as [Hl Hu].
  unfold B64.true_div, B64.of_int, SFdiv, SFdiv_core_binary. cbn [Zdigits2 xorb].
  set (d1 := Z.pos (digits2_pos pw)) in *. set (d2 := Z.pos (digits2_pos ph)) in *.
  assert (D1 : 1 <= d1 <= 49).
  { split; [unfold d1; lia|]. destruct (Z.le_gt_cases d1 49) as [L|G]; [exact L|].
    assert (2 ^ 49 <= 2 ^ (d1 - 1)) by (apply Z.pow_le_mono_r; lia). lia. }
  assert (D2 : 1 <= d2 <= 49).
  { split; [unfold d2; lia|]. destruct (Z.le_gt_cases d2 49) as [L|G]; [exact L|].
    assert (2 ^ 49 <= 2 ^ (d2 - 1)) by (apply Z.pow_le_mono_r; lia). lia. }
  remember (53 - d1 + d2) as s eqn:Es.
  unfold fexp, emin.
  replace (Z.min (Z.max (d1 + 0 - (d2 + 0) - B64.prec) (3 - B64.emax - B64.prec)) (0 - 0))
    with (- s) by (unfold B64.prec, B64.emax; lia).
  replace (0 - 0 - - s) with s by lia.
  assert (Hs : 5 <= s <= 101) by lia.
  assert (P1 : 2 ^ (d1 - 1) * 2 ^ s = 2 ^ 52 * 2 ^ d2).
  { rewrite <- !Z.pow_add_r by lia. f_equal. lia. }
  assert (P2 : 2 ^ d1 * 2 ^ s = 2 ^ 54 * 2 ^ (d2 - 1)).
  { rewrite <- !Z.pow_add_r by lia. f_equal. lia. }
  assert (Pp : 0 < 2 ^ s) by (apply Z.pow_pos_nonneg; lia).
  clear Es.
  assert (Sh : match s with
               | Z0 => Z.pos pw
               | Zpos _ => Z.shiftl (Z.pos pw) s
               | Zneg _ => Z0
               end = Z.pos pw * 2 ^ s).
  { destruct s; try lia. apply Z.shiftl_mul_pow2. lia. }
  rewrite Sh.
  pose proof (Z.div_eucl_eq (Z.pos pw * 2 ^ s) (Z.pos ph) ltac:(lia)) as Eq.
  pose proof (Z.mod_pos_bound (Z.pos pw * 2 ^ s) (Z.pos ph) ltac:(lia)) as Hr.
  unfold Z.modulo in Hr.
  destruct (Z.div_eucl (Z.pos pw * 2 ^ s) (Z.pos ph)) as [q r].
  assert (Hq : 2 ^ 52 <= q < 2 ^ 54).
  { split.
    - assert (2 ^ 52 * Z.pos ph < (q + 1) * Z.pos ph) by nia. nia.
    - assert (q * Z.pos ph < 2 ^ 54 * Z.pos ph) by nia. nia. }
  exists s, q, r. split; [exact Hs|]. split; [lia|]. split; [exact Hr|]. split; [exact Hq|].
  apply binary_round_aux_53; lia.
Qed.

Lemma pow2_cases (s a : Z) :
  0 <= a -> 0 <= s ->
  (s < a /\ 2 * 2 ^ s <= 2 ^ a) \/ (s = a) \/ (a < s /\ 2 * 2 ^ a <= 2 ^ s).
Proof.
  intros Ha Hs. destruct (Z.lt_trichotomy s a) as [L|[E|G]].
  - left. split; [exact L|]. rewrite <- Z.pow_succ_r by lia. apply Z.pow_le_mono_r; lia.
  - right. left. exact E.
  - right. right. split; [exact G|]. rewrite <- Z.pow_succ_r by lia. apply Z.pow_le_mono_r; lia.
Qed.

Lemma odd_div2 (q : Z) : q = 2 * (q / 2) + b2z (Z.odd q).
Proof.
  rewrite (Z.div_mod q 2) at 1 by lia. rewrite Zmod_odd. unfold b2z. reflexivity.
Qed.

Lemma b2z_range (b : bool) : 0 <= b2z b <= 1.
Proof. destruct b; cbn; lia. Qed.

(** The rounded mantissa, with the parities it depends on as integers *)
Lemma round53_cases (q h r : Z) :
  0 < h -> 0 <= r < h ->
  exists m0 m00 B B' z1 z2 : Z,
    q = 2 * m0 + B /\ 0 <= B <= 1 /\ m0 = 2 * m00 + B' /\ 0 <= B' <= 1
    /\ (z1 = 1 /\ (h < 2 * r \/ h = 2 * r /\ B = 1)
        \/ z1 = 0 /\ 2 * r <= h /\ (h <> 2 * r \/ B = 0))
    /\ (z2 = 1 /\ B = 1 /\ (r <> 0 \/ B' = 1)
        \/ z2 = 0 /\ (B = 0 \/ r = 0 /\ B' = 0))
    /\ round53 q (new_location h r)
       = if q <? 2 ^ 53 then (q + z1, 0) else (m0 + z2, 1).
Proof.
  intros Hh Hr. rewrite round53_new_location by assumption.
  exists (q / 2), (q / 2 / 2), (b2z (Z.odd q)), (b2z (Z.odd (q / 2))),
    (b2z ((h <? 2 * r) || (h =? 2 * r) && Z.odd q)),
    (b2z (Z.odd q && (negb (r =? 0) || Z.odd (q / 2)))).
  split; [apply odd_div2|]. split; [apply b2z_range|].
  split; [apply odd_div2|]. split; [apply b2z_range|].
  split; [|split; [|reflexivity]].
  - destruct (Z.ltb_spec h (2 * r)); destruct (Z.eqb_spec h (2 * r));
      destruct (Z.odd q); cbn [b2z orb andb negb]; lia.
  - destruct (Z.eqb_spec r 0); destruct (Z.odd q); destruct (Z.odd (q / 2));
      cbn [b2z orb andb negb]; lia.
Qed.

Ltac true_div_setup w h Hw Hh :=
  let s := fresh "s" in let q := fresh "q" in let r := fresh "r" in
  let Hs := fresh "Hs" in let Eq := fresh "Eq" in let Hr := fresh "Hr" in
  let Hq := fresh "Hq" in
  destruct (true_div_pos w h Hw Hh) as (s & q & r & Hs & Eq & Hr & Hq & ->);
  let m0 := fresh "m0" in let m00 := fresh "m00" in let B := fresh "B" in
  let B' := fresh "B'" in let z1 := fresh "z1" in let z2 := fresh "z2" in
  let E0 := fresh "E0" in let HB := fresh "HB" in let E00 := fresh "E00" in
  let HB' := fresh "HB'" in let Z1 := fresh "Z1" in let Z2 := fresh "Z2" in
  destruct (round53_cases q h r ltac:(lia) Hr)
    as (m0 & m00 & B & B' & z1 & z2 & E0 & HB & E00 & HB' & Z1 & Z2 & ->);
  unfold B64.ltb;
  change (2 ^ 52) with 4503599627370496 in *; change (2 ^ 53) with 9007199254740992 in *;
  change (2 ^ 54) with 18014398509481984 in *; change (2 ^ 49) with 562949953421312 in *.

Ltac cmp_cases :=
  unfold renorm;
  change (2 ^ 52) with 4503599627370496; change (2 ^ 53) with 9007199254740992;
  match goal with
  | |- context [?q <? 9007199254740992] => destruct (Z.ltb_spec q 9007199254740992)
  end;
  cbn [fst snd];
  match goal with
  | |- context [?a =? 9007199254740992] => destruct (Z.eqb_spec a 9007199254740992)
  end;
  cbn [fst snd];
  apply eq_true_iff_eq; rewrite orb_true_iff, andb_true_iff, !Z.ltb_lt, Z.eqb_eq; lia.

Lemma renorm_pos (q m0 z1 z2 : Z) :
  4503599627370496 <= q -> q <= 2 * m0 + 1 -> 0 <= z1 -> 0 <= z2 ->
  0 < fst (renorm (if q <? 9007199254740992 then (q + z1, 0) else (m0 + z2, 1))).
Proof.
  intros. unfold renorm. change (2 ^ 52) with 4503599627370496.
  destruct (q <? _); cbn [fst snd]; destruct (_ =? _); cbn [fst]; lia.
Qed.

(** The product [q * h] against [c * h], for [q] below, at and above [c] *)
Lemma pivot (q h c : Z) :
  0 < h ->
  (q <= c - 1 /\ q * h <= (c - 1) * h) \/ (q = c /\ q * h = c * h)
  \/ (c + 1 <= q /\ (c + 1) * h <= q * h).
Proof.
  intros Hh. destruct (Z.lt_trichotomy q c) as [L|[E|G]].
  - left. split; [lia|]. apply Z.mul_le_mono_nonneg_r; lia.
  - right. left. split; [exact E|]. rewrite E. reflexivity.
  - right. right. split; [lia|]. apply Z.mul_le_mono_nonneg_r; lia.
Qed.

(** Below 2^49 the rounded quotient lies above 20 exactly when the exact
    one does: a quotient above 20 is at least 20 + 2^-49 + 2^-98. *)
Lemma true_div_gt_20 (w h : Z) :
  0 < w < 2 ^ 49 -> 0 < h < 2 ^ 49 ->
  B64.ltb (B64.of_Z 20) (B64.true_div w h) = (20 * h <? w).
Proof.
  intros Hw Hh. true_div_setup w h Hw Hh.
  replace (B64.of_Z 20) with (S754_finite false (Z.to_pos 5629499534213120) (-48))
    by (vm_compute; reflexivity).
  rewrite SFltb_finite by (try apply renorm_pos; lia).
  destruct (pow2_cases s 48 ltac:(lia) ltac:(lia)) as [[S1 P1]|[S1|[S1 P1]]].
  - change (2 ^ 48) with 281474976710656 in P1.
    assert (32 * h <= w) by nia. cmp_cases.
  - subst s. change (2 ^ 48) with 281474976710656 in *.
    destruct (pivot q h 5629499534213120 ltac:(lia)) as [[C D]|[[C D]|[C D]]]; cmp_cases.
  - destruct (pow2_cases s 49 ltac:(lia) ltac:(lia)) as [[S2 P2]|[S2|[S2 P2]]]; [lia| |].
    + subst s. change (2 ^ 49) with 562949953421312 in *.
      destruct (pivot q h 11258999068426240 ltac:(lia)) as [[C D]|[[C D]|[C D]]];
        [cmp_cases|cmp_cases|].
      destruct (pivot q h 11258999068426241 ltac:(lia)) as [[C' D']|[[C' D']|[C' D']]];
        cmp_cases.
    + change (2 ^ 49) with 562949953421312 in P2.
      assert (w < 16 * h) by nia. cmp_cases.
Qed.

(** And it lies below the literal 0.05 exactly when the exact one lies
    below 1/20. *)
Lemma true_div_lt_0_05 (w h : Z) :
  0 < w < 2 ^ 49 -> 0 < h < 2 ^ 49 ->
  B64.ltb (B64.true_div w h) (B64.of_decimal 5 2) = (20 * w <? h).
Proof.
  intros Hw Hh. true_div_setup w h Hw Hh.
  replace (B64.of_decimal 5 2) with (S754_finite false (Z.to_pos 7205759403792794) (-57))
    by (vm_compute; reflexivity).
  rewrite SFltb_finite by (try apply renorm_pos; lia).
  destruct (pow2_cases s 57 ltac:(lia) ltac:(lia)) as [[S1 P1]|[S1|[S1 P1]]].
  - change (2 ^ 57) with 144115188075855872 in P1.
    assert (h <= 16 * w) by nia. cmp_cases.
  - subst s. change (2 ^ 57) with 144115188075855872 in *.
    destruct (pivot q h 7205759403792793 ltac:(lia)) as [[C D]|[[C D]|[C D]]]; cmp_cases.
  - destruct (pow2_cases s 58 ltac:(lia) ltac:(lia)) as [[S2 P2]|[S2|[S2 P2]]]; [lia| |].
    + subst s. change (2 ^ 58) with 288230376151711744 in *.
      destruct (pivot q h 14411518807585586 ltac:(lia)) as [[C D]|[[C D]|[C D]]];
        [cmp_cases|cmp_cases|].
      destruct (pivot q h 14411518807585587 ltac:(lia)) as [[C' D']|[[C' D']|[C' D']]];
        cmp_cases.
    + change (2 ^ 58) with 288230376151711744 in P2.
      assert (32 * w < h) by nia. cmp_cases.
Qed.

End TrueDiv.

(** ** The decorative classifier *)

(** For sides of 20 pixels or more, below 2^49, the two comparisons of the
    binary64 quotient are comparisons of the integers. *)
Lemma determine_if_decorative_large (self : ImageInfo.t) :
  (20 <= ImageInfo.width self < 2 ^ 49)%Z -> (20 <= ImageInfo.height self < 2 ^ 49)%Z ->
  ImageInfo.determine_if_decorative self
  = ((20 * ImageInfo.height self <? ImageInfo.width self)
     || (20 * ImageInfo.width self <? ImageInfo.height self))%Z.
Proof.
  intros Hw Hh. unfold ImageInfo.determine_if_decorative.
  replace (ImageInfo.width self <? 20)%Z with false by (symmetry; apply Z.ltb_ge; lia).
  replace (ImageInfo.height self <? 20)%Z with false by (symmetry; apply Z.ltb_ge; lia).
  replace (0 <? ImageInfo.height self)%Z with true by (symmetry; apply Z.ltb_lt; lia).
  replace (ImageInfo.width self * ImageInfo.height self <? 400)%Z with false
    by (symmetry; apply Z.ltb_ge; nia).
  cbn [orb]. rewrite true_div_gt_20, true_div_lt_0_05 by lia.
  now destruct (_ || _).
Qed.

(** The rule in whole numbers *)
Lemma determine_if_decorative_integers (self : ImageInfo.t) :
  (ImageInfo.width self < 2 ^ 49)%Z -> (ImageInfo.height self < 2 ^ 49)%Z ->
  ImageInfo.determine_if_decorative self = true
  <-> (ImageInfo.width self < 20 \/ ImageInfo.height self < 20
       \/ 20 * ImageInfo.height self < ImageInfo.width self
       \/ 20 * ImageInfo.width self < ImageInfo.height self)%Z.
Proof.
  intros Bw Bh.
  destruct (Z_lt_dec (ImageInfo.width self) 20) as [Hw|Hw].
  { split; [tauto|]. intros _. unfold ImageInfo.determine_if_decorative.
    apply Z.ltb_lt in Hw. now rewrite Hw. }
  destruct (Z_lt_dec (ImageInfo.height self) 20) as [Hh|Hh].
  { split; [tauto|]. intros _. unfold ImageInfo.determine_if_decorative.
    apply Z.ltb_lt in Hh. rewrite Hh. now rewrite orb_true_r. }
  rewrite determine_if_decorative_large by lia.
  rewrite orb_true_iff, !Z.ltb_lt. lia.
Qed.

(** The exact ratio of two positive integers against 20 and 1/20 *)
Lemma ratio_thresholds (w h : Z) :
  (0 < h)%Z ->
  ((20 < inject_Z w / inject_Z h)%Q <-> (20 * h < w)%Z)
  /\ ((inject_Z w / inject_Z h < 5 # 100)%Q <-> (20 * w < h)%Z).
Proof.
  intros Hh. destruct h as [|h|h]; try lia.
  unfold Qlt, Qdiv, Qinv, Qmult, inject_Z. cbn -[Z.mul Pos.mul Z.lt]. lia.
Qed.

(** C3, as the code has it. For a width and a height below 2^49 the
    classifier answers from the two numbers alone, and says decorative
    exactly when the width is below 20, or the height is below 20, or the
    area is below 400, or the aspect ratio is above 20 or below 0.05;
    (10,10) and (1000,10) are decorative, (500,500) is not. *)
Theorem determine_if_decorative_thresholds :
  forall self : ImageInfo.t,
    (ImageInfo.width self < 2 ^ 49)%Z -> (ImageInfo.height self < 2 ^ 49)%Z ->
    (ImageInfo.determine_if_decorative self = true
     <-> Spec.decorative (ImageInfo.width self) (ImageInfo.height self))
    /\ (forall w h n p d a n' p' d' a',
          ImageInfo.determine_if_decorative (ImageInfo.mk n w h p d a)
          = ImageInfo.determine_if_decorative (ImageInfo.mk n' w h p' d' a'))
    /\ (forall n p d a, ImageInfo.determine_if_decorative (ImageInfo.mk n 10 10 p d a) = true)
    /\ (forall n p d a, ImageInfo.determine_if_decorative (ImageInfo.mk n 1000 10 p d a) = true)
    /\ (forall n p d a, ImageInfo.determine_if_decorative (ImageInfo.mk n 500 500 p d a) = false).
Proof.
  intros self Bw Bh. split; [|repeat split; reflexivity].
  rewrite determine_if_decorative_integers by assumption. unfold Spec.decorative.
  destruct (Z_lt_dec (ImageInfo.width self) 20) as [Hw|Hw]; [tauto|].
  destruct (Z_lt_dec (ImageInfo.height self) 20) as [Hh|Hh]; [tauto|].
  destruct (ratio_thresholds (ImageInfo.width self) (ImageInfo.height self) ltac:(lia))
    as [R1 R2].
  rewrite R1, R2. split.
  - intros [H|[H|[H|H]]]; tauto.
  - intros [H|[H|[H|[H|H]]]]; try tauto. nia.
Qed.

Lemma determine_if_decorative_thresholds_witness :
  (1000 < 2 ^ 49)%Z /\ (30 < 2 ^ 49)%Z
  /\ (ImageInfo.determine_if_decorative (ImageInfo.mk "/Im0" 1000 30 1 false "") = true
      <-> Spec.decorative 1000 30).
Proof.
  split; [reflexivity|]. split; [reflexivity|].
  exact (proj1 (determine_if_decorative_thresholds (ImageInfo.mk "/Im0" 1000 30 1 false "")
                  eq_refl eq_refl)).
Defined.

(** C3 as stated fails for large numbers: the ratio of the width 20 * 2^50 + 1
    to the height 2^50 is above 20, but its binary64 quotient is 20.0 and the
    image is not classified as decorative. *)
Lemma determine_if_decorative_thresholds_counterexample :
  (22517998136852481 = 20 * 2 ^ 50 + 1)%Z /\ (1125899906842624 = 2 ^ 50)%Z
  /\ Spec.decorative 22517998136852481 1125899906842624
  /\ ImageInfo.determine_if_decorative
       (ImageInfo.mk "/Im0" 22517998136852481 1125899906842624 1 false "") = false.
Proof.
  split; [reflexivity|]. split; [reflexivity|]. split; [|vm_compute; reflexivity].
  unfold Spec.decorative. do 3 right. left.
  apply (proj1 (ratio_thresholds 22517998136852481 1125899906842624 eq_refl)). lia.
Qed.

Lemma forallb_seq (f : nat -> bool) (a n : nat) :
  forallb f (seq a n) = true -> forall i, a <= i < a + n -> f i = true.
Proof.
  intros H i Hi. rewrite forallb_forall in H. apply H, in_seq. exact Hi.
Qed.

(** ** The alt-text validator *)

Lemma validate_ignores_role (text role role' : string) :
  _validate_alt_text_for_content text role = _validate_alt_text_for_content text role'.
Proof. reflexivity. Qed.

(** C2, as the code has it. The verdict of the validator is the same for
    every role, whatever the text is, and text that is empty or only white
    space is rejected for every role, the Artifact role included. *)
Theorem validate_alt_text_rejects_blank :
  forall text role role' : string,
    _validate_alt_text_for_content text role' = _validate_alt_text_for_content text role
    /\ (PyStr.strip text = "" -> _validate_alt_text_for_content text role = false).
Proof.
  intros text role role'. split; [apply validate_ignores_role|].
  intros H. unfold _validate_alt_text_for_content. rewrite H. simpl.
  now rewrite orb_true_r.
Qed.

Lemma validate_alt_text_rejects_blank_witness :
  PyStr.strip "   " = ""
  /\ _validate_alt_text_for_content "   " "Figure"
     = _validate_alt_text_for_content "   " "Artifact"
  /\ _validate_alt_text_for_content "   " "Artifact" = false.
Proof.
  split; [reflexivity|].
  destruct (validate_alt_text_rejects_blank "   " "Artifact" "Figure") as [E B].
  split; [exact E|]. apply B. reflexivity.
Defined.

(** C2 as stated fails: the empty text is not accepted for the Artifact
    role; it is rejected as it is for a Figure. *)
Lemma validate_alt_text_artifact_counterexample :
  ~ (_validate_alt_text_for_content "" "Artifact" = true)
  /\ _validate_alt_text_for_content "" "Artifact" = false
  /\ _validate_alt_text_for_content "" "Figure" = false.
Proof. split; [simpl; discriminate|]. split; reflexivity. Qed.

Example validate_alt_text_examples :
  _validate_alt_text_for_content "image" "Figure" = false
  /\ _validate_alt_text_for_content "" "Figure" = false
  /\ _validate_alt_text_for_content "Quarterly revenue chart showing 25% growth" "Figure" = true
  /\ _validate_alt_text_for_content "Image of cat" "Figure" = false.
Proof. repeat split; reflexivity. Qed.

(** ** The compliance score *)

Lemma score_is_floor_upto_sound (n p t : nat) :
  score_is_floor_upto n = true -> 0 < t <= n -> p <= t ->
  AccessibilityChecker.score_of p t = Some (100 * Z.of_nat p / Z.of_nat t)%Z.
Proof.
  unfold score_is_floor_upto. intros G Ht Hp.
  pose proof (forallb_seq _ _ _ G t ltac:(lia)) as Gt. cbv beta in Gt.
  pose proof (forallb_seq _ _ _ Gt p ltac:(lia)) as Gp. cbv beta in Gp.
  destruct (AccessibilityChecker.score_of p t) as [s|]; [|discriminate].
  apply Z.eqb_eq in Gp. now subst.
Qed.

Lemma score_is_floor_upto_49 : score_is_floor_upto 49 = true.
Proof. vm_compute. reflexivity. Qed.

Lemma score_is_floor (p t : nat) :
  0 < t <= 49 -> p <= t ->
  AccessibilityChecker.score_of p t = Some (100 * Z.of_nat p / Z.of_nat t)%Z.
Proof. apply score_is_floor_upto_sound, score_is_floor_upto_49. Qed.

(** Beyond that the binary64 product can fall just below an integer. *)
Example score_of_29_of_50 :
  AccessibilityChecker.score_of 29 50 = Some 57%Z /\ (100 * 29 / 50 = 58)%Z.
Proof. split; vm_compute; reflexivity. Qed.

(** C4, as the code has it. For a report with p passed checks, i issues and
    w warnings, between 1 and 49 records in all, the score is 100 p / (p+i+w)
    cut to an integer (rounded down, not to the nearest). *)
Theorem compliance_score_truncates :
  forall self : AccessibilityChecker.t,
    let p := List.length (AccessibilityChecker.passed_checks self) in
    let i := List.length (AccessibilityChecker.issues self) in
    let w := List.length (AccessibilityChecker.warnings self) in
    0 < p + i + w <= 49 ->
    AccessibilityChecker.compliance_score (AccessibilityChecker.generate_report self)
    = Some (100 * Z.of_nat p / Z.of_nat (p + i + w))%Z.
Proof.
  intros self p i w H. unfold AccessibilityChecker.generate_report. simpl.
  fold p i w. replace (i + w + p) with (p + i + w) by lia.
  apply score_is_floor; lia.
Qed.

Lemma compliance_score_truncates_witness :
  0 < 8 + 2 + 0 <= 49
  /\ AccessibilityChecker.compliance_score
       (AccessibilityChecker.generate_report (checker_with 8 2 0)) = Some 80%Z.
Proof.
  split; [lia|].
  exact (compliance_score_truncates (checker_with 8 2 0) ltac:(simpl; lia)).
Defined.

(** C4 as stated fails: with 2 passed checks and 1 issue the score is 66,
    and 200/3 rounded to the nearest integer is 67. *)
Lemma compliance_score_round_counterexample :
  AccessibilityChecker.compliance_score
    (AccessibilityChecker.generate_report (checker_with 2 1 0)) = Some 66%Z
  /\ Spec.compliance_score 2 1 0 = 67%Z.
Proof. split; vm_compute; reflexivity. Qed.

(** ** The link remediator *)

Lemma analyze_link_flag (page_num : nat) (ao : nat * Pdf.annot) (l : LinkInfo.t) :
  In l (EnhancedPDFRemediator.analyze_link page_num ao) ->
  LinkInfo.is_descriptive l = negb (LinkInfo.is_generic_link_text l).
Proof.
  unfold EnhancedPDFRemediator.analyze_link.
  destruct (negb _); [intros []|].
  destruct (_ || _); [|intros []].
  intros [<-|[]]. reflexivity.
Qed.

Lemma analyze_links_flag (self : EnhancedPDFRemediator.t) (l : LinkInfo.t) :
  In l (EnhancedPDFRemediator.links (EnhancedPDFRemediator.analyze_links self)) ->
  LinkInfo.is_descriptive l = negb (LinkInfo.is_generic_link_text l).
Proof.
  simpl. intros H.
  apply in_flat_map in H as [pp [_ H]].
  apply in_flat_map in H as [ao [_ H]].
  eapply analyze_link_flag; eauto.
Qed.

(** C10, as the code has it. On a remediator that has not analysed the
    links yet, a link gets the text "Link to <host>" exactly when its URL is
    not empty and its text, lower-cased and stripped, is one of the ten
    phrases of [generic_phrases] or has fewer than three characters; every
    other link is left as it is. *)
Theorem fix_links_rewrites_generic_only :
  forall self : EnhancedPDFRemediator.t,
    EnhancedPDFRemediator.links self = [] ->
    EnhancedPDFRemediator.links (snd (EnhancedPDFRemediator.fix_links self))
    = map (fun l =>
             if LinkInfo.is_generic_link_text l && negb (PyStr.is_empty (LinkInfo.url l))
             then LinkInfo.mk (_generate_link_description (LinkInfo.url l)) (LinkInfo.url l)
                              (LinkInfo.page_number l) (LinkInfo.is_descriptive l)
             else l)
          (EnhancedPDFRemediator.links (EnhancedPDFRemediator.analyze_links self)).
Proof.
  intros self H.
  unfold EnhancedPDFRemediator.fix_links, EnhancedPDFRemediator.ensure_links.
  rewrite H.
  cbn [snd EnhancedPDFRemediator.links EnhancedPDFRemediator.set_links].
  apply map_ext_in. intros l Hl.
  unfold EnhancedPDFRemediator.fix_link, EnhancedPDFRemediator.needs_fix.
  rewrite (analyze_links_flag self l Hl), negb_involutive. reflexivity.
Qed.

Lemma fix_links_rewrites_generic_only_witness :
  EnhancedPDFRemediator.links download_doc = []
  /\ map LinkInfo.text
       (EnhancedPDFRemediator.links (snd (EnhancedPDFRemediator.fix_links download_doc)))
     = ["Link to example.com"].
Proof.
  split; [reflexivity|].
  rewrite (fix_links_rewrites_generic_only download_doc eq_refl). reflexivity.
Defined.

(** C10 as stated fails: the text "download" is neither empty nor one of
    the five phrases of the rule engine, and the link is rewritten. *)
Lemma fix_links_download_counterexample :
  map LinkInfo.text
    (EnhancedPDFRemediator.links (EnhancedPDFRemediator.analyze_links download_doc))
  = ["download"]
  /\ map LinkInfo.text
       (EnhancedPDFRemediator.links (snd (EnhancedPDFRemediator.fix_links download_doc)))
     = ["Link to example.com"]
  /\ ~ Spec.fails_link_check "download".
Proof.
  repeat split; try reflexivity.
  unfold Spec.fails_link_check. simpl.
  intros [H|H]; [discriminate|].
  repeat (destruct H as [H|H]; [discriminate|]). exact H.
Qed.

(** ** The heading normaliser *)

Section Clamp.

Import Soup PDFProcessor.

Lemma clamp_levels_cons (l : nat) (h : heading) (r : list heading) :
  clamp_levels l (h :: r)
  = if (l + 1 <? level h)%nat
    then (set_level h (l + 1) :: fst (clamp_levels (l + 1) r), snd (clamp_levels (l + 1) r))
    else (h :: fst (clamp_levels (level h) r), snd (clamp_levels (level h) r)).
Proof.
  simpl. destruct (l + 1 <? level h)%nat.
  - now destruct (clamp_levels (l + 1) r).
  - now destruct (clamp_levels (level h) r).
Qed.

Lemma clamp_levels_app (l : nat) (a b : list heading) :
  clamp_levels l (a ++ b)
  = (fst (clamp_levels l a) ++ fst (clamp_levels (snd (clamp_levels l a)) b),
     snd (clamp_levels (snd (clamp_levels l a)) b)).
Proof.
  revert l. induction a as [|h a IH]; intros l.
  - simpl. now destruct (clamp_levels l b).
  - rewrite <- app_comm_cons, !clamp_levels_cons.
    destruct (l + 1 <? level h)%nat; rewrite IH; reflexivity.
Qed.

Lemma find_all_clamp_soup (soup : t) :
  find_all_headings (clamp_soup soup) = fst (clamp_levels 1 (find_all_headings soup)).
Proof.
  unfold clamp_soup, find_all_headings, main_headings.
  rewrite clamp_levels_app.
  destruct (clamp_levels 1 (before_main soup)) as [b l] eqn:E.
  destruct (main soup) as [hs|]; simpl; [reflexivity|].
  now rewrite !app_nil_r.
Qed.

Lemma main_clamp_soup (soup : t) :
  main (clamp_soup soup)
  = option_map (fun hs => fst (clamp_levels (snd (clamp_levels 1 (before_main soup))) hs))
               (main soup).
Proof.
  unfold clamp_soup. destruct (clamp_levels 1 (before_main soup)).
  now destruct (main soup).
Qed.

Lemma before_main_clamp_soup (soup : t) :
  before_main (clamp_soup soup) = fst (clamp_levels 1 (before_main soup)).
Proof.
  unfold clamp_soup. destruct (clamp_levels 1 (before_main soup)).
  now destruct (main soup).
Qed.

(** The loop leaves no skipped level behind. *)
Lemma clamp_levels_no_skip (l : nat) (hs : list heading) :
  no_skip l (map level (fst (clamp_levels l hs))).
Proof.
  revert l. induction hs as [|h r IH]; intros l; [exact I|].
  rewrite clamp_levels_cons.
  destruct (l + 1 <? level h)%nat eqn:E; simpl.
  - split; [lia|apply IH].
  - apply Nat.ltb_ge in E. split; [lia|apply IH].
Qed.

(** On a sequence without a skipped level the loop renames nothing. *)
Lemma clamp_levels_fixed (l : nat) (hs : list heading) :
  no_skip l (map level hs) -> fst (clamp_levels l hs) = hs.
Proof.
  revert l. induction hs as [|h r IH]; intros l H; [reflexivity|].
  destruct H as [H1 H2]. rewrite clamp_levels_cons.
  replace (l + 1 <? level h)%nat with false by (symmetry; apply Nat.ltb_ge; lia).
  simpl. now rewrite IH.
Qed.

Lemma last_cons {A} (x : A) (r : list A) (d : A) : last (x :: r) d = last r x.
Proof.
  revert x d. induction r as [|y r IH]; intros x d; [reflexivity|].
  change (last (y :: r) d = last (y :: r) x). now rewrite (IH y d), (IH y x).
Qed.

Lemma clamp_levels_fixed_snd (l : nat) (hs : list heading) :
  no_skip l (map level hs) -> snd (clamp_levels l hs) = last (map level hs) l.
Proof.
  revert l. induction hs as [|h r IH]; intros l H; [reflexivity|].
  destruct H as [H1 H2]. rewrite clamp_levels_cons.
  replace (l + 1 <? level h)%nat with false by (symmetry; apply Nat.ltb_ge; lia).
  cbn [snd]. rewrite IH by assumption.
  cbn [map]. now rewrite last_cons.
Qed.

Lemma clamp_levels_snd (l : nat) (hs : list heading) :
  snd (clamp_levels l hs) = last (map level (fst (clamp_levels l hs))) l.
Proof.
  revert l. induction hs as [|h r IH]; intros l; [reflexivity|].
  rewrite clamp_levels_cons.
  destruct (l + 1 <? level h)%nat; cbn [fst snd map]; rewrite IH, last_cons;
    reflexivity.
Qed.

Lemma clamp_soup_idempotent (soup : t) :
  clamp_soup (clamp_soup soup) = clamp_soup soup.
Proof.
  assert (B : fst (clamp_levels 1 (fst (clamp_levels 1 (before_main soup))))
              = fst (clamp_levels 1 (before_main soup)))
    by apply clamp_levels_fixed, clamp_levels_no_skip.
  assert (L : snd (clamp_levels 1 (fst (clamp_levels 1 (before_main soup))))
              = snd (clamp_levels 1 (before_main soup))).
  { rewrite clamp_levels_fixed_snd by apply clamp_levels_no_skip.
    symmetry. apply clamp_levels_snd. }
  unfold clamp_soup at 1.
  rewrite before_main_clamp_soup, main_clamp_soup.
  destruct (clamp_levels 1 (fst (clamp_levels 1 (before_main soup)))) as [b l] eqn:E.
  cbn [fst snd] in B, L. subst b l.
  unfold clamp_soup.
  destruct (clamp_levels 1 (before_main soup)) as [b l].
  destruct (main soup) as [hs|]; cbn [option_map fst snd]; [|reflexivity].
  now rewrite clamp_levels_fixed by apply clamp_levels_no_skip.
Qed.


Lemma levels_clamp_soup (soup : t) :
  levels (clamp_soup soup) = map level (fst (clamp_levels 1 (find_all_headings soup))).
Proof. unfold levels. now rewrite find_all_clamp_soup. Qed.

(** The loop keeps a first heading that is an h1. *)
Lemma clamp_levels_hd_1 (hs : list heading) :
  hd_error (map level hs) = Some 1 ->
  hd_error (map level (fst (clamp_levels 1 hs))) = Some 1.
Proof.
  destruct hs as [|h r]; [discriminate|].
  intros E. simpl in E. injection E as E.
  rewrite clamp_levels_cons, E. cbn. now rewrite E.
Qed.

(** What [fix_heading_hierarchy] does to a document that has a [main]
    element and whose first heading is fixable: the loop runs on a
    sequence that starts with an h1. *)
Lemma fix_heading_hierarchy_with_main (soup : t) (hs : list heading) :
  main soup = Some hs -> first_heading_fixable soup ->
  exists soup', fix_heading_hierarchy soup = clamp_soup soup'
                /\ hd_error (levels soup') = Some 1
                /\ main soup' <> None
                /\ first_heading_fixable soup'.
Proof.
  intros Hm Hf. unfold fix_heading_hierarchy.
  destruct (find_all_headings soup) as [|first rest] eqn:E.
  - (* no heading: the default h1 goes into main *)
    unfold find_all_headings, main_headings in E. rewrite Hm in E.
    apply app_eq_nil in E as [Eb Eh]. subst hs.
    exists (main_insert0 soup new_document_h1).
    unfold main_insert0. rewrite Hm.
    repeat split.
    + unfold clamp_soup. cbn [before_main main]. rewrite Eb. reflexivity.
    + unfold levels, find_all_headings. cbn. rewrite Eb. reflexivity.
    + discriminate.
    + left. exact Eb.
  - rewrite Hm.
    destruct (level first =? 1)%nat eqn:E1; cbn [negb].
    + exists soup. apply Nat.eqb_eq in E1. repeat split; auto.
      * unfold levels. rewrite E. simpl. now rewrite E1.
      * rewrite Hm. discriminate.
    + apply Nat.eqb_neq in E1.
      destruct (String.length (get_text_strip first) <? 100)%nat eqn:E2.
      * (* the first heading is renamed *)
        exists (rename_first soup 1). split; [reflexivity|].
        unfold rename_first, levels, find_all_headings, main_headings in *.
        rewrite Hm in *.
        destruct (before_main soup) as [|b bs] eqn:Eb.
        -- simpl in E. subst hs. cbn. repeat split; try discriminate. now left.
        -- cbn. repeat split; try discriminate.
           right. exists (set_level b 1), bs. split; [reflexivity|]. now left.
      * (* the default h1 goes to the start of main *)
        apply Nat.ltb_ge in E2.
        destruct Hf as [Hb|[h [r [Hb Hh]]]].
        -- exists (main_insert0 soup new_document_h1). split; [reflexivity|].
           unfold main_insert0, levels, find_all_headings. rewrite Hm. cbn.
           rewrite Hb. repeat split; try discriminate. now left.
        -- exfalso. unfold find_all_headings in E. rewrite Hb in E.
           injection E as -> _. lia.
Qed.

End Clamp.

Section HeadingClaims.

Import Soup PDFProcessor.

Lemma fix_heading_hierarchy_h1_first (soup : t) :
  hd_error (levels soup) = Some 1 -> fix_heading_hierarchy soup = clamp_soup soup.
Proof.
  unfold fix_heading_hierarchy, levels.
  destruct (find_all_headings soup) as [|first rest]; [discriminate|].
  simpl. intros [= ->]. reflexivity.
Qed.

Lemma fix_heading_hierarchy_no_main (soup : t) :
  main soup = None -> fix_heading_hierarchy soup = clamp_soup soup.
Proof.
  intros Hm. unfold fix_heading_hierarchy.
  destruct (find_all_headings soup) as [|first rest] eqn:E.
  - unfold main_insert0, clamp_soup. rewrite Hm.
    unfold find_all_headings, main_headings in E. rewrite Hm, app_nil_r in E.
    rewrite E. destruct soup; simpl in *; now subst.
  - rewrite Hm. now destruct (negb _).
Qed.

(** The normalised sequence never steps up by more than one level, and
    its first level is at most 2. *)
Lemma fix_heading_hierarchy_no_skip (soup : t) :
  no_skip 1 (levels (fix_heading_hierarchy soup)).
Proof.
  destruct (main soup) as [hs|] eqn:Hm.
  - unfold fix_heading_hierarchy.
    destruct (find_all_headings soup) as [|first rest] eqn:E.
    + unfold find_all_headings, main_headings in E. rewrite Hm in E.
      apply app_eq_nil in E as [Eb Eh]. subst hs.
      unfold main_insert0, levels, find_all_headings. rewrite Hm. cbn.
      rewrite Eb. simpl. lia.
    + rewrite Hm.
      destruct (negb _); [destruct (_ <? _)%nat|];
        rewrite levels_clamp_soup; apply clamp_levels_no_skip.
  - rewrite fix_heading_hierarchy_no_main, levels_clamp_soup by assumption.
    apply clamp_levels_no_skip.
Qed.




(** X10. A second run of the normaliser changes nothing when the document
    has no [main] element or its first heading is fixable. *)
Lemma fix_heading_hierarchy_idempotent (soup : t) :
  main soup = None \/ first_heading_fixable soup ->
  fix_heading_hierarchy (fix_heading_hierarchy soup) = fix_heading_hierarchy soup.
Proof.
  destruct (main soup) as [hs|] eqn:Hm.
  - intros [H|Hf]; [discriminate|].
    destruct (fix_heading_hierarchy_with_main soup hs Hm Hf) as [soup' [-> [H1 _]]].
    rewrite fix_heading_hierarchy_h1_first.
    + apply clamp_soup_idempotent.
    + rewrite levels_clamp_soup. now apply clamp_levels_hd_1.
  - intros _. rewrite (fix_heading_hierarchy_no_main soup Hm).
    rewrite fix_heading_hierarchy_no_main.
    + apply clamp_soup_idempotent.
    + rewrite main_clamp_soup, Hm. reflexivity.
Qed.

(** C6 fails on a long first heading that precedes [main]: the default h1
    goes to the start of [main], behind that heading, so the first heading
    is still not an h1 and every further run puts in one more h1. *)
Lemma fix_heading_hierarchy_not_idempotent :
  levels soup_long_h2_before_main = [2]
  /\ levels (fix_heading_hierarchy soup_long_h2_before_main) = [2; 1]
  /\ levels (fix_heading_hierarchy (fix_heading_hierarchy soup_long_h2_before_main))
     = [2; 1; 1].
Proof. repeat split; vm_compute; reflexivity. Qed.

(** C7, as the code has it. A document whose headings are h1, h3, h2 is
    normalised to h1, h2, h2, and the checker reports the skipped levels
    "h1 to h3" of the original. *)
Theorem fix_heading_hierarchy_h1_h3_h2 :
  forall soup : t,
    levels soup = [1; 3; 2] ->
    levels (fix_heading_hierarchy soup) = [1; 2; 2]
    /\ exists i,
        In i (AccessibilityChecker.issues
                (AccessibilityChecker.check_heading_hierarchy empty_checker soup))
        /\ AccessibilityChecker.type i = "skipped_heading_levels"
        /\ AccessibilityChecker.description i = "Heading levels are skipped: h1 to h3".
Proof.
  intros soup H. split.
  - rewrite fix_heading_hierarchy_h1_first by now rewrite H.
    rewrite levels_clamp_soup. unfold levels in H.
    destruct (find_all_headings soup) as [|a [|b [|c [|d r]]]]; try discriminate.
    simpl in H. injection H as Ha Hb Hc.
    rewrite !clamp_levels_cons, Ha. cbn. rewrite Hb. cbn. rewrite Hc. cbn.
    now rewrite Ha, Hc.
  - unfold AccessibilityChecker.check_heading_hierarchy. unfold levels in H.
    destruct (find_all_headings soup) as [|a [|b [|c [|d r]]]]; try discriminate.
    simpl in H. injection H as Ha Hb Hc.
    cbn [AccessibilityChecker.skipped_levels_from].
    rewrite Ha, Hb, Hc. cbn [negb Nat.eqb].
    change (AccessibilityChecker.skipped_levels_from 2 []) with (@nil string).
    cbn [Nat.ltb Nat.leb Nat.add andb app].
    match goal with
    | |- context [filter ?f ?l] => destruct (filter f l)
    end; eexists; (split; [cbn; left; reflexivity|split; reflexivity]).
Qed.

Lemma fix_heading_hierarchy_h1_h3_h2_witness :
  levels soup_1_3_2 = [1; 3; 2]
  /\ levels (fix_heading_hierarchy soup_1_3_2) = [1; 2; 2].
Proof.
  split; [reflexivity|].
  exact (proj1 (fix_heading_hierarchy_h1_h3_h2 soup_1_3_2 eq_refl)).
Defined.

(** C7 as stated fails: the result is not h1, h2, h3. *)
Lemma fix_heading_hierarchy_h1_h3_h2_counterexample :
  levels soup_1_3_2 = [1; 3; 2]
  /\ levels (fix_heading_hierarchy soup_1_3_2) <> [1; 2; 3].
Proof. split; [reflexivity|]. vm_compute. discriminate. Qed.

End HeadingClaims.

(** ** The structure-tree builder *)

Section FoldInvariants.

Context {S A : Type} (R : S -> S -> Prop) (f : S -> A -> S).
Hypothesis R_refl : forall s, R s s.
Hypothesis R_trans : forall a b c, R a b -> R b c -> R a c.
Hypothesis R_step : forall s a, R s (f s a).

Lemma fold_left_rel (l : list A) (s : S) : R s (fold_left f l s).
Proof.
  revert s. induction l as [|a l IH]; intros s; simpl; [apply R_refl|].
  eapply R_trans; [apply R_step|apply IH].
Qed.

End FoldInvariants.

Lemma extends_refl P k : extends P k k.
Proof. exists []. split; [now rewrite app_nil_r|constructor]. Qed.

Lemma extends_trans P a b c : extends P a b -> extends P b c -> extends P a c.
Proof.
  intros [n1 [-> H1]] [n2 [-> H2]]. exists (n1 ++ n2).
  split; [now rewrite app_assoc|]. apply Forall_app. now split.
Qed.

Lemma extends_snoc (P : Pdf.struct_elem -> Prop) k e : P e -> extends P k (k ++ [e]).
Proof. intros H. exists [e]. split; [reflexivity|]. now constructor. Qed.

Lemma nums_extends_refl n : nums_extends n n.
Proof. exists []. split; [now rewrite app_nil_r|reflexivity]. Qed.

Lemma nums_extends_trans a b c : nums_extends a b -> nums_extends b c -> nums_extends a c.
Proof.
  intros [n1 [-> H1]] [n2 [-> H2]]. exists (n1 ++ n2).
  split; [now rewrite app_assoc|].
  rewrite map_app, H1, H2, !length_app, seq_app. reflexivity.
Qed.

Lemma nums_extends_snoc n e : nums_extends n (n ++ [(List.length n, e)]).
Proof. exists [(List.length n, e)]. split; reflexivity. Qed.

Lemma nums_extends_length n n' : nums_extends n n' -> List.length n <= List.length n'.
Proof. intros [new [-> _]]. rewrite length_app. lia. Qed.

(** Keys that count up from the length of the array are new when the keys
    already there are below that length. *)
Lemma nums_extends_NoDup n n' :
  nums_extends n n' ->
  NoDup (map fst n) -> Forall (fun k => k < List.length n) (map fst n) ->
  NoDup (map fst n').
Proof.
  intros [new [-> H]] Hn Hlt. rewrite map_app, H.
  apply NoDup_app; [assumption|apply seq_NoDup|].
  intros k Hk Hs. rewrite Forall_forall in Hlt. apply Hlt in Hk.
  apply in_seq in Hs. lia.
Qed.

Section Builder.

Import Pdf RemediationReport EnhancedPDFRemediator.

Lemma K_list_ensure_K (tr : struct_tree_root) : K_list (ensure_K tr) = K_list tr.
Proof.
  unfold ensure_K, K_list.
  destruct (K tr) as [[|e k]|] eqn:E; simpl; rewrite ?E; reflexivity.
Qed.

Lemma Nums_list_ensure_K (tr : struct_tree_root) : Nums_list (ensure_K tr) = Nums_list tr.
Proof. unfold ensure_K. now destruct (K tr) as [[|e k]|]. Qed.

Lemma ParentTree_ensure_K (tr : struct_tree_root) : ParentTree (ensure_K tr) = ParentTree tr.
Proof. unfold ensure_K. now destruct (K tr) as [[|e k]|]. Qed.

(** *** The loop of [tag_images] *)

Lemma image_loop_rel_refl ls : image_loop_rel ls ls.
Proof.
  repeat split; auto using extends_refl, nums_extends_refl.
Qed.

Lemma image_loop_rel_trans a b c :
  image_loop_rel a b -> image_loop_rel b c -> image_loop_rel a c.
Proof.
  intros [H1 [H2 [H3 H4]]] [G1 [G2 [G3 G4]]].
  repeat split; eauto using extends_trans, nums_extends_trans; lia.
Qed.

Lemma tag_image_rel images page_num ls entry :
  image_loop_rel ls (tag_image images page_num ls entry).
Proof.
  unfold tag_image. destruct entry as [obj_name obj].
  destruct (negb _); [apply image_loop_rel_refl|].
  destruct (find_image images page_num obj_name) as [img_info|];
    [|apply image_loop_rel_refl].
  destruct (ImageInfo.is_decorative img_info);
    (repeat split; cbn [il_K il_Nums il_tagged_count];
     [apply extends_snoc; unfold artifact_alt_empty; cbn; congruence
     |apply nums_extends_snoc
     |rewrite length_app; simpl; lia
     |rewrite length_app; simpl; lia]).
Qed.

Lemma tag_images_page_rel images ls pp :
  image_loop_rel ls (tag_images_page images ls pp).
Proof.
  unfold tag_images_page. destruct (pg_XObject (snd pp)) as [xobjects|].
  - apply fold_left_rel;
      auto using image_loop_rel_refl, tag_image_rel.
    intros a b c. apply image_loop_rel_trans.
  - apply image_loop_rel_refl.
Qed.

Lemma tag_images_loop_rel images pps ls :
  image_loop_rel ls (fold_left (tag_images_page images) pps ls).
Proof.
  apply fold_left_rel; auto using image_loop_rel_refl, tag_images_page_rel.
  intros a b c. apply image_loop_rel_trans.
Qed.

(** The count does not depend on the tree the loop starts from. *)
Lemma tag_image_count images page_num ls ls' entry :
  il_tagged_count (tag_image images page_num ls entry) + il_tagged_count ls'
  = il_tagged_count (tag_image images page_num ls' entry) + il_tagged_count ls.
Proof.
  unfold tag_image. destruct entry as [obj_name obj].
  destruct (negb _); [lia|].
  destruct (find_image images page_num obj_name) as [img_info|]; [|lia].
  destruct (ImageInfo.is_decorative img_info); cbn; lia.
Qed.

Lemma tag_images_page_count images pp ls ls' :
  il_tagged_count (tag_images_page images ls pp) + il_tagged_count ls'
  = il_tagged_count (tag_images_page images ls' pp) + il_tagged_count ls.
Proof.
  unfold tag_images_page. destruct (pg_XObject (snd pp)) as [xobjects|]; [|lia].
  revert ls ls'. induction xobjects as [|x xs IH]; intros ls ls'; simpl; [lia|].
  pose proof (IH (tag_image images (fst pp) ls x) (tag_image images (fst pp) ls' x)).
  pose proof (tag_image_count images (fst pp) ls ls' x). lia.
Qed.

Lemma tag_images_loop_count images pps ls ls' :
  il_tagged_count (fold_left (tag_images_page images) pps ls) + il_tagged_count ls'
  = il_tagged_count (fold_left (tag_images_page images) pps ls') + il_tagged_count ls.
Proof.
  revert ls ls'. induction pps as [|pp pps IH]; intros ls ls'; simpl; [lia|].
  pose proof (IH (tag_images_page images ls pp) (tag_images_page images ls' pp)).
  pose proof (tag_images_page_count images pp ls ls'). lia.
Qed.

Lemma ensure_images_pdf (self : t) : pdf (ensure_images self) = pdf self.
Proof. unfold ensure_images. now destruct (images self). Qed.

Lemma ensure_annotations_pdf (self : t) : pdf (ensure_annotations self) = pdf self.
Proof. unfold ensure_annotations. now destruct (annotations self). Qed.

Lemma ensure_annotations_images (self : t) :
  images (ensure_annotations self) = images self.
Proof. unfold ensure_annotations. now destruct (annotations self). Qed.

Lemma ensure_images_annotations (self : t) :
  annotations (ensure_images self) = annotations self.
Proof. unfold ensure_images. now destruct (images self). Qed.

Lemma ensure_annotations_ensure_images (self : t) :
  annotations (ensure_annotations (ensure_images self)) = annotations_used self.
Proof.
  unfold annotations_used, ensure_annotations.
  rewrite ensure_images_annotations.
  destruct (annotations self) eqn:E.
  - unfold analyze_annotations. cbn [annotations set_annotations].
    now rewrite ensure_images_pdf.
  - now rewrite ensure_images_annotations.
Qed.

(** [tag_images] as its loop *)
Lemma tag_images_loop (self : t) :
  exists ls0,
    il_K ls0 = tree_K self /\ il_Nums ls0 = tree_Nums self /\ il_tagged_count ls0 = 0
    /\ let ls := fold_left (tag_images_page (images_used self))
                           (enumerate1 (pages (pdf self))) ls0 in
       tree_K (snd (tag_images self)) = il_K ls
       /\ tree_Nums (snd (tag_images self)) = il_Nums ls
       /\ fst (tag_images self) = il_tagged_count ls.
Proof.
  unfold tag_images.
  rewrite ensure_annotations_pdf, ensure_annotations_images, ensure_images_pdf.
  fold (images_used self). unfold tree_K, tree_Nums.
  set (tr := ensure_K match StructTreeRoot (pdf self) with
                      | Some tr => tr
                      | None => empty_tree true
                      end).
  exists (mk_image_loop (K_list tr) (Nums_list tr) 0 []).
  subst tr. rewrite K_list_ensure_K, Nums_list_ensure_K.
  cbn [il_K il_Nums il_tagged_count].
  repeat split; now destruct (StructTreeRoot (pdf self)).
Qed.

Lemma tag_images_K_extends (self : t) :
  extends artifact_alt_empty (tree_K self) (tree_K (snd (tag_images self))).
Proof.
  destruct (tag_images_loop self) as [ls0 [HK [HN [Hc [EK [EN Ec]]]]]].
  rewrite EK, <- HK. apply tag_images_loop_rel.
Qed.

Lemma tag_images_Nums_extends (self : t) :
  nums_extends (tree_Nums self) (tree_Nums (snd (tag_images self))).
Proof.
  destruct (tag_images_loop self) as [ls0 [HK [HN [Hc [EK [EN Ec]]]]]].
  rewrite EN, <- HN. apply tag_images_loop_rel.
Qed.

Lemma tag_images_K_length (self : t) :
  List.length (tree_K (snd (tag_images self)))
  = List.length (tree_K self) + fst (tag_images self).
Proof.
  destruct (tag_images_loop self) as [ls0 [HK [HN [Hc [EK [EN Ec]]]]]].
  rewrite EK, Ec, <- HK.
  pose proof (tag_images_loop_rel (images_used self) (enumerate1 (pages (pdf self))) ls0)
    as [_ [_ [H _]]]. lia.
Qed.

Lemma tag_images_Nums_length (self : t) :
  List.length (tree_Nums (snd (tag_images self)))
  = List.length (tree_Nums self) + fst (tag_images self).
Proof.
  destruct (tag_images_loop self) as [ls0 [HK [HN [Hc [EK [EN Ec]]]]]].
  rewrite EN, Ec, <- HN.
  pose proof (tag_images_loop_rel (images_used self) (enumerate1 (pages (pdf self))) ls0)
    as [_ [_ [_ H]]]. lia.
Qed.

Lemma tag_images_count (self : t) :
  fst (tag_images self) = image_count (images_used self) (pages (pdf self)).
Proof.
  destruct (tag_images_loop self) as [ls0 [HK [HN [Hc [EK [EN Ec]]]]]].
  rewrite Ec. unfold image_count.
  pose proof (tag_images_loop_count (images_used self) (enumerate1 (pages (pdf self)))
                ls0 (mk_image_loop [] [] 0 [])) as H.
  cbn [il_tagged_count] in H. lia.
Qed.

(** What [tag_images] leaves as it is *)
Lemma tag_images_frame (self : t) :
  pages (pdf (snd (tag_images self))) = pages (pdf self)
  /\ annots (pdf (snd (tag_images self))) = annots (pdf self)
  /\ AcroForm_Fields (pdf (snd (tag_images self))) = AcroForm_Fields (pdf self)
  /\ images (snd (tag_images self)) = images_used self
  /\ form_fields (snd (tag_images self)) = form_fields self
  /\ annotations (snd (tag_images self)) = annotations_used self.
Proof.
  unfold tag_images.
  cbn [snd pdf images form_fields annotations set_report set_pdf set_tree
       pages annots AcroForm_Fields].
  rewrite ensure_annotations_pdf, ensure_annotations_images, ensure_images_pdf.
  repeat split.
  - unfold ensure_annotations, ensure_images.
    destruct (images self); destruct (annotations _); reflexivity.
  - apply ensure_annotations_ensure_images.
Qed.

(** *** The structure tree, made when it is missing *)

Lemma ensure_structure_tree_spec (self : t) :
  let self' := ensure_structure_tree self in
  (exists tr, StructTreeRoot (pdf self') = Some tr)
  /\ tree_K self' = tree_K self
  /\ tree_Nums self' = tree_Nums self
  /\ pages (pdf self') = pages (pdf self)
  /\ annots (pdf self') = annots (pdf self)
  /\ AcroForm_Fields (pdf self') = AcroForm_Fields (pdf self)
  /\ images self' = images self
  /\ form_fields self' = form_fields self
  /\ annotations self' = annotations self.
Proof.
  unfold ensure_structure_tree, tree_K, tree_Nums.
  destruct (StructTreeRoot (pdf self)) as [tr|] eqn:E.
  - rewrite ?E. repeat split; eauto.
  - unfold _fix_document_structure. rewrite ?E.
    destruct (MarkInfo_Marked (pdf self)) as [[|]|]; cbn; rewrite ?E;
      repeat split; eauto; eexists; reflexivity.
Qed.

(** *** The object stores *)

Lemma store_set_length {X} (xs : list X) (i : nat) (x : X) :
  List.length (store_set xs i x) = List.length xs.
Proof.
  revert i. induction xs as [|y xs IH]; intros [|i]; simpl; auto.
Qed.

Lemma store_set_same {X} (xs : list X) (i : nat) (x : X) :
  i < List.length xs -> nth_error (store_set xs i x) i = Some x.
Proof.
  revert i. induction xs as [|y xs IH]; intros [|i] H; simpl in *; try lia; auto.
  apply IH. lia.
Qed.

Lemma store_set_other {X} (xs : list X) (i j : nat) (x : X) :
  i <> j -> nth_error (store_set xs i x) j = nth_error xs j.
Proof.
  revert i j. induction xs as [|y xs IH]; intros [|i] [|j] H; simpl; auto; try lia.
Qed.

Lemma K_list_append_K tr e : K_list (append_K tr e) = K_list tr ++ [e].
Proof. reflexivity. Qed.

Lemma Nums_list_append_K tr e : Nums_list (append_K tr e) = Nums_list tr.
Proof. reflexivity. Qed.

Lemma K_list_link tr e : K_list (snd (link_to_parent_tree tr e)) = K_list tr.
Proof. unfold link_to_parent_tree. now destruct (ParentTree tr). Qed.

Lemma Nums_list_link tr e :
  nums_extends (Nums_list tr) (Nums_list (snd (link_to_parent_tree tr e))).
Proof.
  unfold link_to_parent_tree. destruct (ParentTree tr) eqn:E.
  - cbn. apply nums_extends_snoc.
  - apply nums_extends_refl.
Qed.

(** *** The loop of [tag_form_fields] *)

Lemma field_loop_rel_refl ls : field_loop_rel ls ls.
Proof. repeat split; auto using extends_refl, nums_extends_refl. Qed.

Lemma field_loop_rel_trans a b c :
  field_loop_rel a b -> field_loop_rel b c -> field_loop_rel a c.
Proof.
  intros [H1 [H2 [H3 [H4 H5]]]] [G1 [G2 [G3 [G4 G5]]]].
  repeat split; eauto using extends_trans, nums_extends_trans; lia.
Qed.

Lemma ensure_tooltip_and_name_StructParent field_info n field :
  f_StructParent (ensure_tooltip_and_name field_info n field) = f_StructParent field.
Proof.
  unfold ensure_tooltip_and_name.
  destruct (negb (FormFieldInfo.has_tooltip field_info));
    destruct (negb (FormFieldInfo.has_label field_info));
    try destruct (negb (PyStr.is_empty (FormFieldInfo.name field_info))); reflexivity.
Qed.

Lemma field_linked_store_set store addr f a :
  addr < List.length store -> f_StructParent f <> None ->
  field_linked store a -> field_linked (store_set store addr f) a.
Proof.
  intros Hlt Hf [g [Hg Hsp]]. destruct (Nat.eq_dec addr a) as [->|Hne].
  - exists f. split; [now apply store_set_same|assumption].
  - exists g. split; [now rewrite store_set_other|assumption].
Qed.

Lemma form_elem_ok t a : artifact_alt_empty (mk_elem "Form" false t a None None []).
Proof. unfold artifact_alt_empty. cbn. discriminate. Qed.

Lemma tag_form_field_rel ls field_info :
  field_loop_rel ls (tag_form_field ls field_info).
Proof.
  unfold tag_form_field.
  destruct (FormFieldInfo.field_ref field_info) as [addr|]; [|apply field_loop_rel_refl].
  destruct (nth_error (fl_fields ls) addr) as [field|] eqn:E; [|apply field_loop_rel_refl].
  assert (Hlt : addr < List.length (fl_fields ls))
    by (apply nth_error_Some; congruence).
  set (field' := ensure_tooltip_and_name field_info (fl_tagged_count ls) field).
  set (e := mk_elem "Form" false _ _ None None []).
  assert (Esp : f_StructParent field' = f_StructParent field)
    by apply ensure_tooltip_and_name_StructParent.
  destruct (f_StructParent field') as [sp|] eqn:E'.
  - unfold field_loop_rel. cbv beta iota. cbn [fl_fields fl_tree fl_tagged_count].
    rewrite K_list_append_K, Nums_list_append_K, length_app, store_set_length.
    repeat split; simpl; try lia.
    + apply extends_snoc, form_elem_ok.
    + apply nums_extends_refl.
    + intros a. apply field_linked_store_set; [assumption|congruence].
  - destruct (link_to_parent_tree (fl_tree ls) e) as [idx tr] eqn:El.
    unfold field_loop_rel. cbv beta iota. cbn [fl_fields fl_tree fl_tagged_count].
    rewrite K_list_append_K, Nums_list_append_K, length_app, store_set_length.
    assert (Etr : tr = snd (link_to_parent_tree (fl_tree ls) e)) by now rewrite El.
    subst tr. rewrite K_list_link.
    repeat split; simpl; try lia.
    + apply extends_snoc, form_elem_ok.
    + apply Nums_list_link.
    + intros a. apply field_linked_store_set; [assumption|discriminate].
Qed.

Lemma tag_form_fields_loop_rel l ls :
  field_loop_rel ls (fold_left tag_form_field l ls).
Proof.
  apply fold_left_rel; auto using field_loop_rel_refl, tag_form_field_rel.
  intros a b c. apply field_loop_rel_trans.
Qed.

(** After its round a field that has an object carries [/StructParent]. *)
Lemma tag_form_field_links ls field_info addr :
  FormFieldInfo.field_ref field_info = Some addr ->
  addr < List.length (fl_fields ls) ->
  field_linked (fl_fields (tag_form_field ls field_info)) addr.
Proof.
  intros Hr Hlt. unfold tag_form_field. rewrite Hr.
  destruct (nth_error (fl_fields ls) addr) as [field|] eqn:E;
    [|apply nth_error_None in E; lia].
  set (field' := ensure_tooltip_and_name field_info (fl_tagged_count ls) field).
  set (e := mk_elem "Form" false _ _ None None []).
  destruct (f_StructParent field') as [sp|] eqn:E'.
  - cbv beta iota. cbn [fl_fields].
    exists field'. split; [now apply store_set_same|congruence].
  - destruct (link_to_parent_tree (fl_tree ls) e) as [idx tr].
    cbv beta iota. cbn [fl_fields].
    eexists. split; [now apply store_set_same|discriminate].
Qed.

Lemma tag_form_fields_loop_links l ls field_info addr :
  In field_info l ->
  FormFieldInfo.field_ref field_info = Some addr ->
  addr < List.length (fl_fields ls) ->
  field_linked (fl_fields (fold_left tag_form_field l ls)) addr.
Proof.
  revert ls. induction l as [|x l IH]; intros ls Hin Hr Hlt; [destruct Hin|].
  simpl. destruct Hin as [->|Hin].
  - pose proof (tag_form_fields_loop_rel l (tag_form_field ls field_info))
      as [_ [_ [_ [_ H]]]].
    apply H. now apply tag_form_field_links.
  - apply IH; auto.
    pose proof (tag_form_field_rel ls x) as [_ [_ [_ [H _]]]]. lia.
Qed.

Lemma tag_form_field_no_link ls field_info :
  fields_all_linked [field_info] (fl_fields ls) ->
  Nums_list (fl_tree (tag_form_field ls field_info)) = Nums_list (fl_tree ls).
Proof.
  intros H. unfold tag_form_field.
  destruct (FormFieldInfo.field_ref field_info) as [addr|] eqn:Hr; [|reflexivity].
  destruct (nth_error (fl_fields ls) addr) as [field|] eqn:E; [|reflexivity].
  assert (Hlt : addr < List.length (fl_fields ls))
    by (apply nth_error_Some; congruence).
  destruct (H field_info addr (or_introl eq_refl) Hr Hlt) as [g [Hg Hsp]].
  assert (g = field) by congruence. subst g.
  rewrite ensure_tooltip_and_name_StructParent.
  destruct (f_StructParent field); [reflexivity|congruence].
Qed.

Lemma tag_form_fields_loop_no_link l ls :
  fields_all_linked l (fl_fields ls) ->
  Nums_list (fl_tree (fold_left tag_form_field l ls)) = Nums_list (fl_tree ls).
Proof.
  revert ls. induction l as [|x l IH]; intros ls H; [reflexivity|].
  simpl. rewrite IH.
  - apply tag_form_field_no_link. intros i a [<-|[]] Hr Hlt. eapply H; eauto. now left.
  - pose proof (tag_form_field_rel ls x) as [_ [_ [_ [Hlen Hl]]]].
    intros i a Hin Hr Hlt. apply Hl. eapply H; eauto; [now right|lia].
Qed.

Lemma ensure_form_fields_frame (self : t) :
  pdf (ensure_form_fields self) = pdf self
  /\ images (ensure_form_fields self) = images self
  /\ annotations (ensure_form_fields self) = annotations self.
Proof.
  unfold ensure_form_fields, analyze_form_fields.
  destruct (form_fields self); [|auto].
  destruct (AcroForm_Fields (pdf self)); auto.
Qed.

Lemma fields_store_put (p : Pdf.t) (tr : struct_tree_root) (f : list field) :
  List.length f = List.length (fields_store p) ->
  fields_store (set_tree (put_fields p f) tr) = f.
Proof.
  unfold put_fields, fields_store. destruct (AcroForm_Fields p) eqn:E; cbn.
  - reflexivity.
  - rewrite E. intros H. destruct f; [reflexivity|discriminate].
Qed.

(** [tag_form_fields] as its loop *)
Lemma tag_form_fields_loop (self : t) :
  exists ls0,
    K_list (fl_tree ls0) = tree_K self
    /\ Nums_list (fl_tree ls0) = tree_Nums self
    /\ fl_fields ls0 = fields_store (pdf self)
    /\ fl_tagged_count ls0 = 0
    /\ let ls := fold_left tag_form_field (fields_used self) ls0 in
       let self' := snd (tag_form_fields self) in
       tree_K self' = K_list (fl_tree ls)
       /\ tree_Nums self' = Nums_list (fl_tree ls)
       /\ fields_store (pdf self') = fl_fields ls
       /\ fst (tag_form_fields self) = fl_tagged_count ls
       /\ pages (pdf self') = pages (pdf self)
       /\ annots (pdf self') = annots (pdf self)
       /\ images self' = images self
       /\ annotations self' = annotations self
       /\ form_fields self' = fields_used self.
Proof.
  destruct (ensure_form_fields_frame self) as [Ep [Ei Ea]].
  unfold tag_form_fields, fields_used.
  destruct (form_fields (ensure_form_fields self)) as [|fi l] eqn:E.
  - exists (mk_field_loop (fields_store (pdf self))
                          match StructTreeRoot (pdf self) with
                          | Some tr => tr
                          | None => empty_tree false
                          end 0).
    cbn [fold_left fl_tree fl_fields fl_tagged_count snd fst].
    unfold tree_K, tree_Nums. rewrite Ep, Ei, Ea, E.
    repeat split; now destruct (StructTreeRoot (pdf self)).
  - destruct (ensure_structure_tree_spec (ensure_form_fields self))
      as [[tr Etr] [HK [HN [Hp [Han [Hf [Hi [Hff Hann]]]]]]]].
    cbv zeta in HK, HN, Hp, Han, Hf, Hi, Hff, Hann.
    rewrite Etr.
    set (s1 := ensure_structure_tree (ensure_form_fields self)) in *.
    exists (mk_field_loop (fields_store (pdf s1)) (ensure_K tr) 0).
    cbn [fl_tree fl_fields fl_tagged_count].
    rewrite K_list_ensure_K, Nums_list_ensure_K.
    assert (Es : fields_store (pdf s1) = fields_store (pdf self))
      by (unfold fields_store; now rewrite Hf, Ep).
    unfold tree_K, tree_Nums in HK, HN. rewrite Etr, Ep in HK, HN.
    split; [exact HK|]. split; [exact HN|]. split; [exact Es|].
    split; [reflexivity|].
    rewrite Hff, E.
    set (ls := fold_left tag_form_field (fi :: l) _).
    cbn [snd fst].
    unfold tree_K, tree_Nums.
    cbn [pdf set_report set_pdf set_tree StructTreeRoot pages annots images
         annotations form_fields].
    rewrite fields_store_put.
    + assert (Hpp : pages (put_fields (pdf s1) (fl_fields ls)) = pages (pdf s1)
                      /\ annots (put_fields (pdf s1) (fl_fields ls)) = annots (pdf s1))
        by (unfold put_fields; now destruct (AcroForm_Fields (pdf s1))).
      destruct Hpp as [-> ->].
      rewrite Hp, Han, Hi, Hann, Hff, E, Ep, Ei, Ea. repeat split; reflexivity.
    + subst ls.
      pose proof (tag_form_fields_loop_rel (fi :: l)
                    (mk_field_loop (fields_store (pdf s1)) (ensure_K tr) 0))
        as [_ [_ [_ [H _]]]]. exact H.
Qed.

(** *** The loop of [tag_annotations] *)

Lemma annot_loop_rel_refl ls : annot_loop_rel ls ls.
Proof. repeat split; auto using extends_refl, nums_extends_refl. Qed.

Lemma annot_loop_rel_trans a b c :
  annot_loop_rel a b -> annot_loop_rel b c -> annot_loop_rel a c.
Proof.
  intros [H1 [H2 [H3 [H4 H5]]]] [G1 [G2 [G3 [G4 G5]]]].
  repeat split; eauto using extends_trans, nums_extends_trans; lia.
Qed.

Lemma ensure_contents_spec annot_info annot :
  a_StructParent (fst (ensure_contents annot_info annot)) = a_StructParent annot
  /\ AnnotationInfo.subtype (snd (ensure_contents annot_info annot))
     = AnnotationInfo.subtype annot_info
  /\ AnnotationInfo.annot_ref (snd (ensure_contents annot_info annot))
     = AnnotationInfo.annot_ref annot_info.
Proof.
  unfold ensure_contents. now destruct (negb (AnnotationInfo.has_alt_text annot_info)).
Qed.

Lemma annot_linked_store_set store addr o a :
  addr < List.length store -> a_StructParent o <> None ->
  annot_linked store a -> annot_linked (store_set store addr o) a.
Proof.
  intros Hlt Ho [g [Hg Hsp]]. destruct (Nat.eq_dec addr a) as [->|Hne].
  - exists o. split; [now apply store_set_same|assumption].
  - exists g. split; [now rewrite store_set_other|assumption].
Qed.

(** No annotation subtype is mapped to the Artifact role. *)
Lemma struct_type_not_artifact (subtype : string) :
  PyStr.dict_get struct_type_map subtype "Annot" <> "Artifact".
Proof.
  unfold struct_type_map. cbn [PyStr.dict_get].
  repeat match goal with
         | |- context [String.eqb ?a ?b] => destruct (String.eqb a b)
         end; discriminate.
Qed.

Lemma annot_elem_ok subtype t a :
  artifact_alt_empty
    (mk_elem (PyStr.dict_get struct_type_map subtype "Annot") false t a None None []).
Proof.
  unfold artifact_alt_empty. cbn [se_S]. intros H.
  now apply struct_type_not_artifact in H.
Qed.

Lemma skip_annotation_rel ls annot_info :
  annot_loop_rel ls (skip_annotation ls annot_info).
Proof.
  repeat split; cbn; auto using extends_refl, nums_extends_refl.
Qed.

Lemma tag_annotation_rel ls annot_info :
  annot_loop_rel ls (tag_annotation ls annot_info).
Proof.
  unfold tag_annotation.
  destruct (negb _); [apply skip_annotation_rel|].
  destruct (AnnotationInfo.annot_ref annot_info) as [addr|]; [|apply skip_annotation_rel].
  destruct (nth_error (al_annots ls) addr) as [annot|] eqn:E; [|apply skip_annotation_rel].
  assert (Hlt : addr < List.length (al_annots ls))
    by (apply nth_error_Some; congruence).
  pose proof (ensure_contents_spec annot_info annot) as [Esp _].
  destruct (ensure_contents annot_info annot) as [annot' info'].
  cbn [fst] in Esp.
  set (e := mk_elem _ false _ _ None None []).
  assert (He : artifact_alt_empty e) by apply annot_elem_ok.
  destruct (a_StructParent annot') as [sp|] eqn:E'.
  - unfold annot_loop_rel. cbv beta iota. cbn [al_annots al_tree al_tagged_count].
    rewrite K_list_append_K, Nums_list_append_K, length_app, store_set_length.
    repeat split; simpl; try lia.
    + now apply extends_snoc.
    + apply nums_extends_refl.
    + intros a. apply annot_linked_store_set; [assumption|congruence].
  - destruct (link_to_parent_tree (al_tree ls) e) as [idx tr] eqn:El.
    unfold annot_loop_rel. cbv beta iota. cbn [al_annots al_tree al_tagged_count].
    rewrite K_list_append_K, Nums_list_append_K, length_app, store_set_length.
    assert (Etr : tr = snd (link_to_parent_tree (al_tree ls) e)) by now rewrite El.
    subst tr. rewrite K_list_link.
    repeat split; simpl; try lia.
    + now apply extends_snoc.
    + apply Nums_list_link.
    + intros a. apply annot_linked_store_set; [assumption|discriminate].
Qed.

Lemma tag_annotations_loop_rel l ls :
  annot_loop_rel ls (fold_left tag_annotation l ls).
Proof.
  apply fold_left_rel; auto using annot_loop_rel_refl, tag_annotation_rel.
  intros a b c. apply annot_loop_rel_trans.
Qed.

(** Each round adds the entry it went through, with its subtype and its
    reference, to the new [self.annotations]. *)
Lemma tag_annotation_infos ls annot_info :
  exists info',
    al_infos (tag_annotation ls annot_info) = al_infos ls ++ [info']
    /\ AnnotationInfo.subtype info' = AnnotationInfo.subtype annot_info
    /\ AnnotationInfo.annot_ref info' = AnnotationInfo.annot_ref annot_info.
Proof.
  unfold tag_annotation, skip_annotation.
  destruct (negb _); [now exists annot_info|].
  destruct (AnnotationInfo.annot_ref annot_info) as [addr|] eqn:Er; [|now exists annot_info].
  destruct (nth_error (al_annots ls) addr) as [annot|]; [|now exists annot_info].
  pose proof (ensure_contents_spec annot_info annot) as [_ [Es Ea]].
  destruct (ensure_contents annot_info annot) as [annot' info'].
  cbn [snd] in Es, Ea. exists info'.
  destruct (a_StructParent annot'); [|destruct (link_to_parent_tree _ _)];
    cbn [al_infos]; repeat split; congruence.
Qed.

(** After its round a taggable annotation that has an object carries
    [/StructParent]. *)
Lemma tag_annotation_links ls annot_info addr :
  AnnotationInfo.should_be_tagged annot_info = true ->
  AnnotationInfo.annot_ref annot_info = Some addr ->
  addr < List.length (al_annots ls) ->
  annot_linked (al_annots (tag_annotation ls annot_info)) addr.
Proof.
  intros Ht Hr Hlt. unfold tag_annotation. rewrite Ht, Hr. cbn [negb].
  destruct (nth_error (al_annots ls) addr) as [annot|] eqn:E;
    [|apply nth_error_None in E; lia].
  destruct (ensure_contents annot_info annot) as [annot' info'].
  destruct (a_StructParent annot') as [sp|] eqn:E'.
  - cbv beta iota. cbn [al_annots].
    exists annot'. split; [now apply store_set_same|congruence].
  - destruct (link_to_parent_tree _ _) as [idx tr].
    cbv beta iota. cbn [al_annots].
    eexists. split; [now apply store_set_same|discriminate].
Qed.

Lemma should_be_tagged_subtype i i' :
  AnnotationInfo.subtype i' = AnnotationInfo.subtype i ->
  AnnotationInfo.should_be_tagged i' = AnnotationInfo.should_be_tagged i.
Proof. unfold AnnotationInfo.should_be_tagged. now intros ->. Qed.

Lemma tag_annotations_loop_links l ls :
  annots_all_linked (al_infos ls) (al_annots ls) ->
  annots_all_linked (al_infos (fold_left tag_annotation l ls))
                    (al_annots (fold_left tag_annotation l ls)).
Proof.
  revert ls. induction l as [|x l IH]; intros ls H; [exact H|].
  simpl. apply IH.
  pose proof (tag_annotation_rel ls x) as [_ [_ [_ [Hlen Hl]]]].
  destruct (tag_annotation_infos ls x) as [info' [Ei [Es Er]]].
  intros i a Hin Ht Hr Hlt. rewrite Ei in Hin.
  apply in_app_or in Hin as [Hin|[<-|[]]].
  - apply Hl. eapply H; eauto. lia.
  - rewrite (should_be_tagged_subtype x info' Es) in Ht. rewrite Er in Hr.
    apply tag_annotation_links; auto. lia.
Qed.

Lemma tag_annotation_no_link ls annot_info :
  annots_all_linked [annot_info] (al_annots ls) ->
  Nums_list (al_tree (tag_annotation ls annot_info)) = Nums_list (al_tree ls).
Proof.
  intros H. unfold tag_annotation, skip_annotation.
  destruct (AnnotationInfo.should_be_tagged annot_info) eqn:Ht; [|reflexivity].
  cbn [negb].
  destruct (AnnotationInfo.annot_ref annot_info) as [addr|] eqn:Hr; [|reflexivity].
  destruct (nth_error (al_annots ls) addr) as [annot|] eqn:E; [|reflexivity].
  assert (Hlt : addr < List.length (al_annots ls))
    by (apply nth_error_Some; congruence).
  destruct (H annot_info addr (or_introl eq_refl) Ht Hr Hlt) as [g [Hg Hsp]].
  assert (g = annot) by congruence. subst g.
  pose proof (ensure_contents_spec annot_info annot) as [Esp _].
  destruct (ensure_contents annot_info annot) as [annot' info'].
  cbn [fst] in Esp. rewrite Esp.
  destruct (a_StructParent annot); [reflexivity|congruence].
Qed.

Lemma tag_annotations_loop_no_link l ls :
  annots_all_linked l (al_annots ls) ->
  Nums_list (al_tree (fold_left tag_annotation l ls)) = Nums_list (al_tree ls).
Proof.
  revert ls. induction l as [|x l IH]; intros ls H; [reflexivity|].
  simpl. rewrite IH.
  - apply tag_annotation_no_link. intros i a [<-|[]] Ht Hr Hlt. eapply H; eauto. now left.
  - pose proof (tag_annotation_rel ls x) as [_ [_ [_ [Hlen Hl]]]].
    intros i a Hin Ht Hr Hlt. apply Hl. eapply H; eauto; [now right|lia].
Qed.

Lemma ensure_annotations_frame (self : t) :
  pdf (ensure_annotations self) = pdf self
  /\ images (ensure_annotations self) = images self
  /\ form_fields (ensure_annotations self) = form_fields self.
Proof. unfold ensure_annotations. now destruct (annotations self). Qed.

(** [tag_annotations] as its loop *)
Lemma tag_annotations_loop (self : t) :
  exists ls0,
    K_list (al_tree ls0) = tree_K self
    /\ Nums_list (al_tree ls0) = tree_Nums self
    /\ al_annots ls0 = annots (pdf self)
    /\ al_infos ls0 = []
    /\ al_tagged_count ls0 = 0
    /\ let ls := fold_left tag_annotation (annotations_used self) ls0 in
       let self' := snd (tag_annotations self) in
       tree_K self' = K_list (al_tree ls)
       /\ tree_Nums self' = Nums_list (al_tree ls)
       /\ annots (pdf self') = al_annots ls
       /\ fst (tag_annotations self) = al_tagged_count ls
       /\ pages (pdf self') = pages (pdf self)
       /\ AcroForm_Fields (pdf self') = AcroForm_Fields (pdf self)
       /\ images self' = images self
       /\ form_fields self' = form_fields self
       /\ annotations self' = al_infos ls.
Proof.
  destruct (ensure_annotations_frame self) as [Ep [Ei Ef]].
  unfold tag_annotations, annotations_used.
  destruct (annotations (ensure_annotations self)) as [|ai l] eqn:E.
  - exists (mk_annot_loop (annots (pdf self))
                          match StructTreeRoot (pdf self) with
                          | Some tr => tr
                          | None => empty_tree false
                          end [] 0).
    cbn [fold_left al_tree al_annots al_infos al_tagged_count snd fst].
    unfold tree_K, tree_Nums. rewrite Ep, Ei, Ef, E.
    repeat split; now destruct (StructTreeRoot (pdf self)).
  - destruct (ensure_structure_tree_spec (ensure_annotations self))
      as [[tr Etr] [HK [HN [Hp [Han [Hf [Hi [Hff Hann]]]]]]]].
    cbv zeta in HK, HN, Hp, Han, Hf, Hi, Hff, Hann.
    rewrite Etr.
    set (s1 := ensure_structure_tree (ensure_annotations self)) in *.
    exists (mk_annot_loop (annots (pdf s1)) (ensure_K tr) [] 0).
    cbn [al_tree al_annots al_infos al_tagged_count].
    rewrite K_list_ensure_K, Nums_list_ensure_K.
    unfold tree_K, tree_Nums in HK, HN. rewrite Etr, Ep in HK, HN.
    split; [exact HK|]. split; [exact HN|].
    split; [now rewrite Han, Ep|].
    split; [reflexivity|]. split; [reflexivity|].
    rewrite Hann, E.
    set (ls := fold_left tag_annotation (ai :: l) _).
    cbn [snd fst].
    unfold tree_K, tree_Nums.
    cbn [pdf set_report set_pdf set_tree set_annots set_annotations StructTreeRoot
         pages annots AcroForm_Fields images annotations form_fields].
    rewrite Hp, Hf, Hi, Hff, Ep, Ei, Ef. repeat split; reflexivity.
Qed.

(** *** The loop of [mark_unmarked_content_as_artifacts] *)

Lemma mark_loop_rel_refl ls : mark_loop_rel ls ls.
Proof. split; auto using extends_refl. Qed.

Lemma mark_loop_rel_trans a b c :
  mark_loop_rel a b -> mark_loop_rel b c -> mark_loop_rel a c.
Proof.
  intros [H1 H2] [G1 G2]. split; eauto using extends_trans; lia.
Qed.

Lemma mark_xobject_rel images tagged page_num ls entry :
  mark_loop_rel ls (mark_xobject images tagged page_num ls entry).
Proof.
  unfold mark_xobject. destruct entry as [obj_name obj].
  destruct (PyStr.mem _ tagged); [apply mark_loop_rel_refl|].
  destruct (String.eqb (x_Subtype obj) "Image").
  - destruct (find_image images page_num obj_name); [apply mark_loop_rel_refl|].
    split; cbn [fst snd].
    + apply extends_snoc. now unfold artifact_alt_empty.
    + rewrite length_app. simpl. lia.
  - destruct (String.eqb (x_Subtype obj) "Form"); [|apply mark_loop_rel_refl].
    split; cbn [fst snd].
    + apply extends_snoc. now unfold artifact_alt_empty.
    + rewrite length_app. simpl. lia.
Qed.

Lemma mark_page_rel images tagged ls pp :
  mark_loop_rel ls (mark_page images tagged ls pp).
Proof.
  unfold mark_page. destruct (pg_XObject (snd pp)); [|apply mark_loop_rel_refl].
  apply fold_left_rel; auto using mark_loop_rel_refl, mark_xobject_rel.
  intros a b c. apply mark_loop_rel_trans.
Qed.

Lemma mark_unmarked_spec (self : t) :
  extends artifact_alt_empty (tree_K self)
          (tree_K (snd (mark_unmarked_content_as_artifacts self)))
  /\ List.length (tree_K (snd (mark_unmarked_content_as_artifacts self)))
     = List.length (tree_K self) + fst (mark_unmarked_content_as_artifacts self)
  /\ tree_Nums (snd (mark_unmarked_content_as_artifacts self)) = tree_Nums self
  /\ pages (pdf (snd (mark_unmarked_content_as_artifacts self))) = pages (pdf self)
  /\ annots (pdf (snd (mark_unmarked_content_as_artifacts self))) = annots (pdf self)
  /\ AcroForm_Fields (pdf (snd (mark_unmarked_content_as_artifacts self)))
     = AcroForm_Fields (pdf self)
  /\ images (snd (mark_unmarked_content_as_artifacts self)) = images self
  /\ form_fields (snd (mark_unmarked_content_as_artifacts self)) = form_fields self
  /\ annotations (snd (mark_unmarked_content_as_artifacts self)) = annotations self.
Proof.
  unfold mark_unmarked_content_as_artifacts.
  destruct (ensure_structure_tree_spec self)
    as [[tr Etr] [HK [HN [Hp [Han [Hf [Hi [Hff Hann]]]]]]]].
  cbv zeta in HK, HN, Hp, Han, Hf, Hi, Hff, Hann.
  rewrite Etr.
  set (s1 := ensure_structure_tree self) in *.
  set (tagged := map _ _).
  pose proof (fold_left_rel mark_loop_rel (mark_page (images s1) tagged)
                mark_loop_rel_refl mark_loop_rel_trans
                (mark_page_rel (images s1) tagged)
                (enumerate1 (pages (pdf s1))) (K_list (ensure_K tr), 0)) as [H1 H2].
  set (ls := fold_left _ _ _) in *.
  cbn [fst snd] in H1, H2. rewrite K_list_ensure_K in H1, H2.
  unfold tree_K, tree_Nums in *. rewrite Etr in HK, HN.
  cbn [snd fst pdf set_report set_pdf set_tree StructTreeRoot pages annots
       AcroForm_Fields images annotations form_fields].
  rewrite <- HK, <- HN.
  repeat split; auto.
  - change (K_list (set_K (ensure_K tr) (fst ls))) with (fst ls). lia.
  - change (Nums_list (set_K (ensure_K tr) (fst ls))) with (Nums_list (ensure_K tr)).
    apply Nums_list_ensure_K.
Qed.

(** *** [tag_headings] and [tag_tables] *)

Lemma extends_map_not_artifact {X} (g : X -> struct_elem) (k : list struct_elem) (xs : list X) :
  (forall x, se_S (g x) <> "Artifact") ->
  extends artifact_alt_empty k (k ++ map g xs).
Proof.
  intros H. exists (map g xs). split; [reflexivity|].
  apply Forall_forall. intros e He. apply in_map_iff in He as [x [<- _]].
  intros Hs. now apply H in Hs.
Qed.

Lemma tag_headings_spec heading_map (self : t) :
  let self' := snd (tag_headings heading_map self) in
  extends artifact_alt_empty (tree_K self) (tree_K self')
  /\ tree_Nums self' = tree_Nums self.
Proof.
  unfold tag_headings, tree_K, tree_Nums.
  destruct heading_map as [|hm l]; [split; auto using extends_refl|].
  destruct (StructTreeRoot (pdf self)) as [tr|] eqn:E;
    [|cbn; rewrite E; split; auto using extends_refl].
  destruct (K tr) as [k|] eqn:Ek;
    [|cbn; rewrite E; split; auto using extends_refl].
  cbn [snd pdf set_report set_pdf set_tree StructTreeRoot].
  split; [|reflexivity].
  unfold K_list. cbn [K set_K]. rewrite Ek.
  apply extends_map_not_artifact. intros x. cbn. discriminate.
Qed.

Lemma tag_tables_spec (self : t) :
  let self' := snd (tag_tables self) in
  extends artifact_alt_empty (tree_K self) (tree_K self')
  /\ tree_Nums self' = tree_Nums self.
Proof.
  unfold tag_tables, tree_K, tree_Nums.
  set (s1 := match tables self with [] => analyze_tables self | _ => self end).
  assert (Ep : pdf s1 = pdf self) by (subst s1; now destruct (tables self)).
  rewrite Ep.
  destruct (StructTreeRoot (pdf self)) as [tr|] eqn:E;
    [|cbn; rewrite Ep, E; split; auto using extends_refl].
  destruct (K tr) as [k|] eqn:Ek;
    [|cbn; rewrite Ep, E; split; auto using extends_refl].
  cbn [snd pdf set_report set_pdf set_tree StructTreeRoot].
  split; [|reflexivity].
  unfold K_list. cbn [K set_K]. rewrite Ek.
  apply extends_map_not_artifact. intros x. cbn. discriminate.
Qed.

(** *** Every step of a run *)

Lemma tag_form_fields_K_extends (self : t) :
  extends artifact_alt_empty (tree_K self) (tree_K (snd (tag_form_fields self))).
Proof.
  destruct (tag_form_fields_loop self) as [ls0 [HK [HN [Hf [Hc [EK _]]]]]].
  rewrite EK, <- HK. apply tag_form_fields_loop_rel.
Qed.

Lemma tag_form_fields_Nums_extends (self : t) :
  nums_extends (tree_Nums self) (tree_Nums (snd (tag_form_fields self))).
Proof.
  destruct (tag_form_fields_loop self) as [ls0 [HK [HN [Hf [Hc [_ [EN _]]]]]]].
  rewrite EN, <- HN. apply tag_form_fields_loop_rel.
Qed.

Lemma tag_annotations_K_extends (self : t) :
  extends artifact_alt_empty (tree_K self) (tree_K (snd (tag_annotations self))).
Proof.
  destruct (tag_annotations_loop self) as [ls0 [HK [HN [Ha [Hi [Hc [EK _]]]]]]].
  rewrite EK, <- HK. apply tag_annotations_loop_rel.
Qed.

Lemma tag_annotations_Nums_extends (self : t) :
  nums_extends (tree_Nums self) (tree_Nums (snd (tag_annotations self))).
Proof.
  destruct (tag_annotations_loop self) as [ls0 [HK [HN [Ha [Hi [Hc [_ [EN _]]]]]]]].
  rewrite EN, <- HN. apply tag_annotations_loop_rel.
Qed.

Lemma step_K_extends (o : op) (self : t) :
  extends artifact_alt_empty (tree_K self) (tree_K (snd (step o self))).
Proof.
  destruct o; cbn [step].
  - apply tag_images_K_extends.
  - apply tag_headings_spec.
  - apply tag_tables_spec.
  - apply tag_form_fields_K_extends.
  - apply tag_annotations_K_extends.
  - apply mark_unmarked_spec.
Qed.

Lemma step_Nums_extends (o : op) (self : t) :
  nums_extends (tree_Nums self) (tree_Nums (snd (step o self))).
Proof.
  destruct o; cbn [step].
  - apply tag_images_Nums_extends.
  - destruct (tag_headings_spec heading_map self) as [_ ->]. apply nums_extends_refl.
  - destruct (tag_tables_spec self) as [_ ->]. apply nums_extends_refl.
  - apply tag_form_fields_Nums_extends.
  - apply tag_annotations_Nums_extends.
  - destruct (mark_unmarked_spec self) as [_ [_ [-> _]]]. apply nums_extends_refl.
Qed.

Lemma run_K_extends (ops : list op) (self : t) :
  extends artifact_alt_empty (tree_K self) (tree_K (run ops self)).
Proof.
  unfold run.
  apply (fold_left_rel (fun s s' => extends artifact_alt_empty (tree_K s) (tree_K s'))).
  - intros s. apply extends_refl.
  - intros a b c. apply extends_trans.
  - intros s o. apply step_K_extends.
Qed.

Lemma run_Nums_extends (ops : list op) (self : t) :
  nums_extends (tree_Nums self) (tree_Nums (run ops self)).
Proof.
  unfold run.
  apply (fold_left_rel (fun s s' => nums_extends (tree_Nums s) (tree_Nums s'))).
  - intros s. apply nums_extends_refl.
  - intros a b c. apply nums_extends_trans.
  - intros s o. apply step_Nums_extends.
Qed.

Lemma structure_tree_builder_run (self : t) :
  snd (structure_tree_builder self)
  = run [TagImages; TagFormFields; TagAnnotations; MarkArtifacts] self.
Proof.
  unfold structure_tree_builder, run. cbn [fold_left step].
  destruct (tag_images self) as [n1 s1]. cbn [snd].
  destruct (tag_form_fields s1) as [n2 s2]. cbn [snd].
  destruct (tag_annotations s2) as [n3 s3]. cbn [snd].
  now destruct (mark_unmarked_content_as_artifacts s3).
Qed.

(** C9. Whatever tagging and artifact-marking steps a run makes, from
    whatever document: the structure tree keeps its nodes and gains nodes at
    its end, and every node it gains with the Artifact role carries the
    alt text, and the alt text is the empty string. *)
Theorem artifact_nodes_have_empty_alt :
  forall (ops : list op) (self : t),
    exists new : list struct_elem,
      tree_K (run ops self) = tree_K self ++ new
      /\ Forall (fun e => se_S e = "Artifact" -> se_Alt e = Some "") new.
Proof. intros ops self. apply run_K_extends. Qed.

(** An instance: the builder makes an Artifact node for the small image
    of [two_image_doc]. *)
Example artifact_node_created :
  map (fun e => (se_S e, se_Alt e))
      (tree_K (run [TagImages; MarkArtifacts] two_image_doc))
  = [("Figure",
      Some "Figure or photograph (page 1). Review and update with description of what image depicts.");
     ("Artifact", Some "")].
Proof. vm_compute. reflexivity. Qed.

(** C8, as the code has it. The key of a new ParentTree entry is the number
    of entries at that moment: the entries of a run get consecutive,
    increasing keys, and no key occurs twice after the run when the keys the
    run started from were distinct and below the number of entries. *)
Theorem parent_tree_keys_fresh :
  forall (ops : list op) (self : t),
    NoDup (tree_keys self) ->
    Forall (fun k => k < List.length (tree_Nums self)) (tree_keys self) ->
    exists new : list (nat * struct_elem),
      tree_Nums (run ops self) = tree_Nums self ++ new
      /\ map fst new = seq (List.length (tree_Nums self)) (List.length new)
      /\ NoDup (tree_keys (run ops self)).
Proof.
  intros ops self Hn Hlt.
  pose proof (run_Nums_extends ops self) as H.
  pose proof (nums_extends_NoDup _ _ H Hn Hlt) as Hd.
  destruct H as [new [E Hs]]. exists new. auto.
Qed.

Lemma parent_tree_keys_fresh_witness :
  NoDup (tree_keys two_image_doc)
  /\ Forall (fun k => k < List.length (tree_Nums two_image_doc)) (tree_keys two_image_doc)
  /\ exists new : list (nat * struct_elem),
      tree_Nums (run [TagImages; TagFormFields; TagAnnotations; MarkArtifacts] two_image_doc)
      = tree_Nums two_image_doc ++ new
      /\ map fst new = seq (List.length (tree_Nums two_image_doc)) (List.length new)
      /\ NoDup (tree_keys (run [TagImages; TagFormFields; TagAnnotations; MarkArtifacts]
                               two_image_doc)).
Proof.
  assert (Hn : NoDup (tree_keys two_image_doc)) by constructor.
  assert (Hlt : Forall (fun k => k < List.length (tree_Nums two_image_doc))
                       (tree_keys two_image_doc)) by constructor.
  split; [exact Hn|]. split; [exact Hlt|].
  exact (parent_tree_keys_fresh _ two_image_doc Hn Hlt).
Defined.

(** C8 as stated fails: a document whose ParentTree holds one entry under
    the key 1 gets its image linked under the key 1 as well. *)
Lemma parent_tree_keys_counterexample :
  tree_keys tagged_elsewhere_doc = [1]
  /\ tree_keys (snd (structure_tree_builder tagged_elsewhere_doc)) = [1; 1]
  /\ ~ NoDup (tree_keys (snd (structure_tree_builder tagged_elsewhere_doc))).
Proof.
  assert (E : tree_keys (snd (structure_tree_builder tagged_elsewhere_doc)) = [1; 1])
    by (vm_compute; reflexivity).
  split; [reflexivity|]. split; [exact E|].
  rewrite E. intros H. inversion H as [|x l Hin _]. apply Hin. now left.
Qed.

(** *** A second run of the builder *)

Lemma images_used_stable (self self' : t) :
  images self' = images_used self ->
  pages (pdf self') = pages (pdf self) ->
  images_used self' = images_used self.
Proof.
  unfold images_used, ensure_images. intros Hi Hp.
  destruct (images self') as [|x l] eqn:E; [|congruence].
  unfold analyze_images. cbn [images set_images]. rewrite Hp.
  destruct (images self) eqn:E2; [reflexivity|].
  cbn in Hi. rewrite E2 in Hi. discriminate.
Qed.

Lemma analyze_annotations_ext (self self' : t) :
  pages (pdf self') = pages (pdf self) ->
  annots (pdf self') = annots (pdf self) ->
  annotations (analyze_annotations self') = annotations (analyze_annotations self).
Proof.
  intros Hp Ha. unfold analyze_annotations, page_annots.
  cbn [annotations set_annotations]. now rewrite Hp, Ha.
Qed.

Lemma annotations_used_stable (self self' : t) :
  annotations self' = annotations_used self ->
  pages (pdf self') = pages (pdf self) ->
  annots (pdf self') = annots (pdf self) ->
  annotations_used self' = annotations_used self.
Proof.
  unfold annotations_used, ensure_annotations. intros Hi Hp Ha.
  destruct (annotations self') as [|x l] eqn:E; [|congruence].
  rewrite (analyze_annotations_ext self self' Hp Ha).
  destruct (annotations self) eqn:E2; [reflexivity|].
  cbn in Hi. rewrite E2 in Hi. discriminate.
Qed.

Lemma annotations_used_same (self self' : t) :
  annotations self' = annotations self ->
  pages (pdf self') = pages (pdf self) ->
  annots (pdf self') = annots (pdf self) ->
  annotations_used self' = annotations_used self.
Proof.
  unfold annotations_used, ensure_annotations. intros Hi Hp Ha. rewrite Hi.
  destruct (annotations self) eqn:E; [|congruence].
  now apply analyze_annotations_ext.
Qed.

Lemma fields_used_same (self self' : t) :
  form_fields self' = form_fields self ->
  AcroForm_Fields (pdf self') = AcroForm_Fields (pdf self) ->
  pages (pdf self') = pages (pdf self) ->
  fields_used self' = fields_used self.
Proof.
  unfold fields_used, ensure_form_fields, analyze_form_fields. intros Hf Ha Hp.
  rewrite Hf, Ha, Hp. destruct (form_fields self) eqn:E; [|congruence].
  destruct (AcroForm_Fields (pdf self)); [reflexivity|congruence].
Qed.

Lemma fields_used_nil (self : t) :
  fields_used self = [] -> form_fields self = [] /\ fields_store (pdf self) = [].
Proof.
  unfold fields_used, ensure_form_fields, analyze_form_fields, fields_store.
  intros H.
  destruct (form_fields self) as [|x l] eqn:E;
    [|cbn in H; rewrite E in H; discriminate].
  destruct (AcroForm_Fields (pdf self)) as [fields|]; [|auto].
  cbn [form_fields set_form_fields] in H. unfold enumerate0 in H.
  destruct fields; [auto|discriminate].
Qed.

Lemma fields_used_stable (self self' : t) :
  form_fields self' = fields_used self ->
  List.length (fields_store (pdf self')) = List.length (fields_store (pdf self)) ->
  fields_used self' = fields_used self.
Proof.
  intros Hf Hl. destruct (fields_used self) as [|x l] eqn:E.
  - apply fields_used_nil in E as [_ Es]. rewrite Es in Hl.
    unfold fields_used, ensure_form_fields, analyze_form_fields, fields_store in *.
    rewrite Hf. destruct (AcroForm_Fields (pdf self')) as [fields|]; [|exact Hf].
    destruct fields; [reflexivity|discriminate].
  - unfold fields_used, ensure_form_fields. now rewrite Hf.
Qed.

Lemma tag_form_fields_establishes (self : t) : fields_inv (snd (tag_form_fields self)).
Proof.
  destruct (tag_form_fields_loop self)
    as [ls0 [HK [HN [Hf [Hc [EK [EN [Es [Ec [Ep [Ea [Ei [Ean Eff]]]]]]]]]]]]].
  cbv zeta in *. unfold fields_inv.
  pose proof (tag_form_fields_loop_rel (fields_used self) ls0) as [_ [_ [_ [Hlen _]]]].
  rewrite (fields_used_stable self) by (rewrite ?Es; congruence).
  rewrite Es. intros i a Hin Hr Hlt.
  eapply tag_form_fields_loop_links; eauto. lia.
Qed.

Lemma tag_form_fields_Nums_same (self : t) :
  fields_inv self -> tree_Nums (snd (tag_form_fields self)) = tree_Nums self.
Proof.
  intros H.
  destruct (tag_form_fields_loop self) as [ls0 [HK [HN [Hf [Hc [EK [EN _]]]]]]].
  cbv zeta in *. rewrite EN, <- HN.
  apply tag_form_fields_loop_no_link. now rewrite Hf.
Qed.

Lemma tag_form_fields_K_length (self : t) :
  List.length (tree_K (snd (tag_form_fields self)))
  = List.length (tree_K self) + fst (tag_form_fields self).
Proof.
  destruct (tag_form_fields_loop self)
    as [ls0 [HK [HN [Hf [Hc [EK [EN [Es [Ec _]]]]]]]]].
  cbv zeta in *. rewrite EK, Ec, <- HK.
  pose proof (tag_form_fields_loop_rel (fields_used self) ls0) as [_ [_ [H _]]]. lia.
Qed.

Lemma al_infos_length l ls :
  List.length (al_infos (fold_left tag_annotation l ls))
  = List.length (al_infos ls) + List.length l.
Proof.
  revert ls. induction l as [|x l IH]; intros ls; simpl; [lia|].
  rewrite IH. destruct (tag_annotation_infos ls x) as [i [-> _]].
  rewrite length_app. simpl. lia.
Qed.

Lemma tag_annotations_establishes (self : t) : annots_inv (snd (tag_annotations self)).
Proof.
  destruct (tag_annotations_loop self)
    as [ls0 [HK [HN [Ha [Hi [Hc [EK [EN [Es [Ec [Ep [Ef [Ei [Eff Ean]]]]]]]]]]]]]].
  cbv zeta in *. unfold annots_inv.
  assert (L : annots_all_linked
                (al_infos (fold_left tag_annotation (annotations_used self) ls0))
                (al_annots (fold_left tag_annotation (annotations_used self) ls0))).
  { apply tag_annotations_loop_links. rewrite Hi. intros i a []. }
  destruct (annotations_used self) as [|x l] eqn:E.
  - cbn [fold_left] in *. rewrite Hi in Ean. rewrite Ha in Es.
    assert (Eu : annotations_used (snd (tag_annotations self)) = []).
    { rewrite <- E. apply annotations_used_stable; congruence. }
    rewrite Eu. intros i a [].
  - assert (Eu : annotations_used (snd (tag_annotations self))
                 = al_infos (fold_left tag_annotation (x :: l) ls0)).
    { unfold annotations_used, ensure_annotations. rewrite Ean.
      pose proof (al_infos_length (x :: l) ls0) as Hl.
      destruct (al_infos (fold_left tag_annotation (x :: l) ls0));
        [simpl in Hl; lia|exact Ean]. }
    rewrite Eu, Es. exact L.
Qed.

Lemma tag_annotations_Nums_same (self : t) :
  annots_inv self -> tree_Nums (snd (tag_annotations self)) = tree_Nums self.
Proof.
  intros H.
  destruct (tag_annotations_loop self) as [ls0 [HK [HN [Ha [Hi [Hc [EK [EN _]]]]]]]].
  cbv zeta in *. rewrite EN, <- HN.
  apply tag_annotations_loop_no_link. now rewrite Ha.
Qed.

Lemma tag_annotations_K_length (self : t) :
  List.length (tree_K (snd (tag_annotations self)))
  = List.length (tree_K self) + fst (tag_annotations self).
Proof.
  destruct (tag_annotations_loop self)
    as [ls0 [HK [HN [Ha [Hi [Hc [EK [EN [Es [Ec _]]]]]]]]]].
  cbv zeta in *. rewrite EK, Ec, <- HK.
  pose proof (tag_annotations_loop_rel (annotations_used self) ls0) as [_ [_ [H _]]]. lia.
Qed.

Lemma fields_inv_frame (self self' : t) :
  form_fields self' = form_fields self ->
  AcroForm_Fields (pdf self') = AcroForm_Fields (pdf self) ->
  pages (pdf self') = pages (pdf self) ->
  fields_inv self -> fields_inv self'.
Proof.
  intros Hf Ha Hp. unfold fields_inv.
  rewrite (fields_used_same self self' Hf Ha Hp).
  unfold fields_store. now rewrite Ha.
Qed.

Lemma annots_inv_frame (self self' : t) :
  annotations_used self' = annotations_used self ->
  annots (pdf self') = annots (pdf self) ->
  annots_inv self -> annots_inv self'.
Proof. unfold annots_inv. now intros -> ->. Qed.

(** What [tag_form_fields] and [tag_annotations] leave as it is *)
Lemma tag_form_fields_frame (self : t) :
  pages (pdf (snd (tag_form_fields self))) = pages (pdf self)
  /\ annots (pdf (snd (tag_form_fields self))) = annots (pdf self)
  /\ images (snd (tag_form_fields self)) = images self
  /\ annotations (snd (tag_form_fields self)) = annotations self.
Proof.
  destruct (tag_form_fields_loop self)
    as [ls0 [_ [_ [_ [_ [_ [_ [_ [_ [P [A [I [AN _]]]]]]]]]]]]].
  auto.
Qed.

Lemma tag_annotations_frame (self : t) :
  pages (pdf (snd (tag_annotations self))) = pages (pdf self)
  /\ AcroForm_Fields (pdf (snd (tag_annotations self))) = AcroForm_Fields (pdf self)
  /\ images (snd (tag_annotations self)) = images self
  /\ form_fields (snd (tag_annotations self)) = form_fields self.
Proof.
  destruct (tag_annotations_loop self)
    as [ls0 [_ [_ [_ [_ [_ [_ [_ [_ [_ [P [F [I [FF _]]]]]]]]]]]]]].
  auto.
Qed.

Lemma structure_tree_builder_builder_run (self : t) (c : counts) (self' : t) :
  structure_tree_builder self = (c, self') -> builder_run self c self'.
Proof.
  unfold structure_tree_builder.
  destruct (tag_images self) as [n1 a1] eqn:E1.
  destruct (tag_form_fields a1) as [n2 a2] eqn:E2.
  destruct (tag_annotations a2) as [n3 a3] eqn:E3.
  destruct (mark_unmarked_content_as_artifacts a3) as [n4 a4] eqn:E4.
  intros H. injection H as <- <-.
  now apply (builder_run_intro _ _ _ n1 n2 n3 n4 a1 a2 a3).
Qed.

(** An equation [f x = (n, y)] as two equations on [fst] and [snd] *)
Lemma pair_eq {A B} (p : A * B) (a : A) (b : B) : p = (a, b) -> a = fst p /\ b = snd p.
Proof. now intros ->. Qed.

(** What a run leaves behind for the next one *)
Lemma builder_run_post (self : t) (c : counts) (self' : t) :
  builder_run self c self' ->
  fields_inv self' /\ annots_inv self'
  /\ images self' = images_used self
  /\ pages (pdf self') = pages (pdf self)
  /\ c_images c = fst (tag_images self).
Proof.
  intros [n1 n2 n3 n4 a1 a2 a3 E1 E2 E3 E4 ->].
  apply pair_eq in E1 as [N1 E1], E2 as [N2 E2], E3 as [N3 E3], E4 as [N4 E4].
  pose proof (tag_images_frame self) as [P1 [A1 [F1 [I1 [FF1 AN1]]]]].
  pose proof (tag_form_fields_frame a1) as [P2 [A2 [I2 AN2]]].
  pose proof (tag_form_fields_establishes a1) as V2.
  pose proof (tag_annotations_frame a2) as [P3 [F3 [I3 FF3]]].
  pose proof (tag_annotations_establishes a2) as V3.
  pose proof (mark_unmarked_spec a3) as [_ [_ [_ [P4 [A4 [F4 [I4 [FF4 AN4]]]]]]]].
  rewrite <- E1 in *. rewrite <- E2 in *. rewrite <- E3 in *. rewrite <- E4 in *.
  repeat split.
  - apply (fields_inv_frame a3); auto.
    apply (fields_inv_frame a2); auto.
  - apply (annots_inv_frame a3); auto.
    apply annotations_used_same; auto.
  - congruence.
  - congruence.
  - exact N1.
Qed.

(** A run that starts where form fields and annotations are linked already
    adds ParentTree entries for the images only. *)
Lemma builder_run_growth (self : t) (c : counts) (self' : t) :
  builder_run self c self' ->
  fields_inv self -> annots_inv self ->
  List.length (tree_Nums self') = List.length (tree_Nums self) + c_images c
  /\ List.length (tree_K self')
     = List.length (tree_K self) + c_images c + c_form_fields c
       + c_annotations c + c_artifacts c.
Proof.
  intros [n1 n2 n3 n4 a1 a2 a3 E1 E2 E3 E4 ->] Hf Ha.
  apply pair_eq in E1 as [N1 E1], E2 as [N2 E2], E3 as [N3 E3], E4 as [N4 E4].
  pose proof (tag_images_frame self) as [P1 [A1 [F1 [I1 [FF1 AN1]]]]].
  pose proof (tag_images_Nums_length self) as L1.
  pose proof (tag_images_K_length self) as K1.
  rewrite <- E1, <- N1 in *.
  assert (Hf1 : fields_inv a1) by (apply (fields_inv_frame self); auto).
  assert (Ha1 : annots_inv a1).
  { apply (annots_inv_frame self); auto. apply annotations_used_stable; auto. }
  pose proof (tag_form_fields_frame a1) as [P2 [A2 [I2 AN2]]].
  pose proof (tag_form_fields_Nums_same a1 Hf1) as L2.
  pose proof (tag_form_fields_K_length a1) as K2.
  rewrite <- E2, <- N2 in *.
  assert (Ha2 : annots_inv a2).
  { apply (annots_inv_frame a1); auto. apply annotations_used_same; auto. }
  pose proof (tag_annotations_Nums_same a2 Ha2) as L3.
  pose proof (tag_annotations_K_length a2) as K3.
  rewrite <- E3, <- N3 in *.
  pose proof (mark_unmarked_spec a3) as [_ [K4 [L4 _]]].
  rewrite <- E4, <- N4 in *.
  cbn [c_images c_form_fields c_annotations c_artifacts].
  split; [congruence|lia].
Qed.

(** A second run of the builder over the document it has just tagged is
    not a no-op, whatever the document is: it tags as many images as the
    first run, the ParentTree gains one entry for each of them (form fields
    and annotations, which carry /StructParent by then, are not linked
    again), and the tree gains one node for every image, form field,
    annotation and artifact the second run counts. *)
Lemma structure_tree_builder_second_run :
  forall self : t,
    let r1 := structure_tree_builder self in
    let r2 := structure_tree_builder (snd r1) in
    c_images (fst r2) = c_images (fst r1)
    /\ List.length (tree_Nums (snd r2))
       = List.length (tree_Nums (snd r1)) + c_images (fst r1)
    /\ List.length (tree_K (snd r2))
       = List.length (tree_K (snd r1)) + c_images (fst r2) + c_form_fields (fst r2)
         + c_annotations (fst r2) + c_artifacts (fst r2).
Proof.
  intros self. cbv zeta.
  destruct (structure_tree_builder self) as [c1 s1] eqn:R1. cbn [fst snd].
  destruct (structure_tree_builder s1) as [c2 s2] eqn:R2. cbn [fst snd].
  apply structure_tree_builder_builder_run in R1, R2.
  destruct (builder_run_post self c1 s1 R1) as [Hf [Ha [Hi [Hp C1]]]].
  destruct (builder_run_post s1 c2 s2 R2) as [_ [_ [_ [_ C2]]]].
  destruct (builder_run_growth s1 c2 s2 R2 Hf Ha) as [GN GK].
  assert (C : c_images c2 = c_images c1).
  { rewrite C1, C2, !tag_images_count, Hp. f_equal. now apply images_used_stable. }
  split; [exact C|]. split; [now rewrite <- C|exact GK].
Qed.

(** C1 fails on a page with two images: the first run tags two images,
    and so does a second run, on the same remediator as well as on a new
    one that has loaded the tagged document ([reloaded]); the tree gets
    two more nodes and the ParentTree grows from two entries to four. *)
Lemma structure_tree_builder_retags :
  c_images (fst (structure_tree_builder two_image_doc)) = 2
  /\ c_images (fst (structure_tree_builder (snd (structure_tree_builder two_image_doc)))) = 2
  /\ c_images (fst (structure_tree_builder
                      (reloaded (snd (structure_tree_builder two_image_doc))))) = 2
  /\ images_tagged (report (snd (structure_tree_builder
                                   (reloaded (snd (structure_tree_builder two_image_doc))))))
     = 2
  /\ List.length (tree_K (snd (structure_tree_builder two_image_doc))) = 2
  /\ List.length (tree_K (snd (structure_tree_builder
                                 (reloaded (snd (structure_tree_builder two_image_doc))))))
     = 4
  /\ List.length (tree_Nums (snd (structure_tree_builder two_image_doc))) = 2
  /\ List.length (tree_Nums (snd (structure_tree_builder
                                    (snd (structure_tree_builder two_image_doc))))) = 4
  /\ List.length (tree_Nums (snd (structure_tree_builder
                                    (reloaded (snd (structure_tree_builder two_image_doc))))))
     = 4
  /\ ~ second_run_adds_nothing
         (fst (structure_tree_builder (snd (structure_tree_builder two_image_doc))))
         (List.length (tree_Nums (snd (structure_tree_builder two_image_doc))))
         (List.length (tree_Nums (snd (structure_tree_builder
                                         (snd (structure_tree_builder two_image_doc)))))).
Proof.
  assert (E : c_images (fst (structure_tree_builder
                               (snd (structure_tree_builder two_image_doc)))) = 2)
    by (vm_compute; reflexivity).
  split; [vm_compute; reflexivity|]. split; [exact E|].
  do 7 (split; [vm_compute; reflexivity|]).
  intros [H _]. rewrite E in H. discriminate.
Qed.

End Builder.

(** * More properties of the code *)

(** ** Python strings and lists *)

Lemma str_length_app (a b : string) :
  String.length (a ++ b)%string = String.length a + String.length b.
Proof. induction a; simpl; congruence. Qed.

Lemma str_app_assoc (a b c : string) : ((a ++ b) ++ c = a ++ (b ++ c))%string.
Proof. induction a; simpl; congruence. Qed.

Lemma isspace_lower_char (c : ascii) : PyStr.isspace (PyStr.lower_char c) = PyStr.isspace c.
Proof. destruct c as [[] [] [] [] [] [] [] []]; reflexivity. Qed.

Lemma lower_length (s : string) : String.length (PyStr.lower s) = String.length s.
Proof. induction s; simpl; congruence. Qed.

Lemma lower_char_idem (c : ascii) : PyStr.lower_char (PyStr.lower_char c) = PyStr.lower_char c.
Proof. destruct c as [[] [] [] [] [] [] [] []]; reflexivity. Qed.

Lemma lower_idem (s : string) : PyStr.lower (PyStr.lower s) = PyStr.lower s.
Proof. induction s; simpl; [reflexivity|]. now rewrite lower_char_idem, IHs. Qed.

Lemma lstrip_lower (s : string) : PyStr.lstrip (PyStr.lower s) = PyStr.lower (PyStr.lstrip s).
Proof.
  induction s as [|c r IH]; simpl; [reflexivity|].
  rewrite isspace_lower_char. now destruct (PyStr.isspace c).
Qed.

Lemma rstrip_lower (s : string) : PyStr.rstrip (PyStr.lower s) = PyStr.lower (PyStr.rstrip s).
Proof.
  induction s as [|c r IH]; simpl; [reflexivity|].
  rewrite IH, isspace_lower_char.
  destruct (PyStr.rstrip r); simpl; [now destruct (PyStr.isspace c)|reflexivity].
Qed.

Lemma strip_lower (s : string) : PyStr.strip (PyStr.lower s) = PyStr.lower (PyStr.strip s).
Proof. unfold PyStr.strip. now rewrite lstrip_lower, rstrip_lower. Qed.

Lemma rstrip_idem (s : string) : PyStr.rstrip (PyStr.rstrip s) = PyStr.rstrip s.
Proof.
  induction s as [|c r IH]; simpl; [reflexivity|].
  destruct (PyStr.rstrip r) as [|c' r'] eqn:E.
  - destruct (PyStr.isspace c) eqn:Ec; simpl; [reflexivity|]. now rewrite Ec.
  - change (PyStr.rstrip (String c (String c' r'))) with
      (match PyStr.rstrip (String c' r') with
       | EmptyString => if PyStr.isspace c then EmptyString else String c EmptyString
       | r0 => String c r0 end).
    now rewrite IH.
Qed.

Lemma lstrip_rstrip (s : string) :
  PyStr.lstrip (PyStr.rstrip s) = PyStr.rstrip (PyStr.lstrip s).
Proof.
  induction s as [|c r IH]; simpl; [reflexivity|].
  destruct (PyStr.isspace c) eqn:Ec.
  - destruct (PyStr.rstrip r) as [|c' r'] eqn:E.
    + rewrite <- IH. reflexivity.
    + rewrite <- IH. simpl. now rewrite Ec.
  - destruct (PyStr.rstrip r) as [|c' r'] eqn:E; simpl; rewrite Ec, ?E; reflexivity.
Qed.

Lemma lstrip_idem (s : string) : PyStr.lstrip (PyStr.lstrip s) = PyStr.lstrip s.
Proof.
  induction s as [|c r IH]; simpl; [reflexivity|].
  destruct (PyStr.isspace c) eqn:Ec; [exact IH|]. simpl. now rewrite Ec.
Qed.

Lemma strip_idem (s : string) : PyStr.strip (PyStr.strip s) = PyStr.strip s.
Proof.
  unfold PyStr.strip. rewrite lstrip_rstrip, lstrip_idem, rstrip_idem. reflexivity.
Qed.

Lemma rstrip_app (a b : string) :
  PyStr.rstrip b <> "" -> PyStr.rstrip (a ++ b)%string = (a ++ PyStr.rstrip b)%string.
Proof.
  intros Hb. induction a as [|c r IH]; simpl; [reflexivity|].
  rewrite IH. destruct (r ++ PyStr.rstrip b)%string eqn:E; [|reflexivity].
  destruct r; simpl in E; [contradiction|discriminate].
Qed.

Lemma lstrip_length (s : string) : String.length (PyStr.lstrip s) <= String.length s.
Proof.
  induction s as [|c r IH]; simpl; [lia|]. destruct (PyStr.isspace c); simpl; lia.
Qed.

(** A text between a head and a tail that do not start or end with
    white space is its own [strip] *)
Lemma strip_framed (a m b : string) :
  PyStr.lstrip a = a -> a <> "" -> PyStr.rstrip b = b -> b <> "" ->
  PyStr.strip (a ++ m ++ b)%string = (a ++ m ++ b)%string.
Proof.
  intros Ha Ha' Hb Hb'. unfold PyStr.strip.
  assert (E : PyStr.lstrip (a ++ m ++ b)%string = (a ++ m ++ b)%string).
  { destruct a as [|c r]; [contradiction|]. simpl in *.
    destruct (PyStr.isspace c) eqn:Ec; [|reflexivity].
    exfalso. pose proof (lstrip_length r) as L. rewrite Ha in L. simpl in L. lia. }
  rewrite E. rewrite <- str_app_assoc. rewrite rstrip_app; rewrite Hb; auto.
Qed.

Lemma is_empty_false (s : string) : PyStr.is_empty s = false -> s <> "".
Proof. destruct s; discriminate. Qed.

Lemma append_nonempty_r (a b : string) : b <> "" -> (a ++ b)%string <> "".
Proof. destruct a; simpl; [auto|discriminate]. Qed.

Lemma title_from_nonempty b (s : string) : s <> "" -> PyStr.title_from b s <> "".
Proof.
  destruct s as [|c r]; [contradiction|]. intros _. simpl.
  destruct (PyStr.islower c); [discriminate|]. destruct (PyStr.isupper c); discriminate.
Qed.

Lemma replace_char_nonempty a b (s : string) : s <> "" -> PyStr.replace_char a b s <> "".
Proof. destruct s; [contradiction|discriminate]. Qed.

Lemma replace_char_chars (a b : ascii) (s : string) (c : ascii) :
  In c (list_ascii_of_string (PyStr.replace_char a b s)) ->
  c = b \/ (c <> a /\ In c (list_ascii_of_string s)).
Proof.
  induction s as [|x r IH]; simpl; [tauto|].
  intros [H|H].
  - destruct (Ascii.eqb x a) eqn:E; [left; congruence|].
    right. apply Ascii.eqb_neq in E. split; [congruence|now left].
  - destruct (IH H) as [?|[? ?]]; [now left|right; split; auto].
Qed.

Lemma split_first_chars (sep : ascii) (s : string) (c : ascii) :
  In c (list_ascii_of_string (PyStr.split_first sep s)) -> c <> sep.
Proof.
  induction s as [|x r IH]; simpl; [tauto|].
  destruct (Ascii.eqb x sep) eqn:E; simpl; [tauto|].
  apply Ascii.eqb_neq in E. intros [H|H]; [congruence|auto].
Qed.

Lemma mem_false_long (x : string) (xs : list string) (n : nat) :
  Forall (fun y => String.length y < n) xs -> n <= String.length x ->
  PyStr.mem x xs = false.
Proof.
  intros Hxs Hx. unfold PyStr.mem.
  destruct (existsb (String.eqb x) xs) eqn:E; [|reflexivity].
  apply existsb_exists in E. destruct E as [y [Hy E]].
  apply String.eqb_eq in E. subst y.
  rewrite Forall_forall in Hxs. specialize (Hxs _ Hy). lia.
Qed.

Lemma filter_nil_forall {A} (f : A -> bool) (l : list A) :
  Forall (fun x => f x = false) l -> filter f l = [].
Proof. induction 1 as [|x r Hx Hr IH]; simpl; [reflexivity|]. now rewrite Hx. Qed.

Lemma enumerate_In {A} (l : list A) :
  forall (k j : nat) (x : A),
    nth_error l j = Some x -> In (k + j, x) (combine (seq k (List.length l)) l).
Proof.
  induction l as [|y r IH]; intros k j x H; [destruct j; discriminate|].
  cbn [List.length seq combine]. destruct j as [|j].
  - cbn in H. injection H as ->. left. f_equal. lia.
  - right. replace (k + S j) with (S k + j) by lia. apply IH. exact H.
Qed.

Lemma enumerate_In_inv {A} (l : list A) :
  forall (k a : nat) (x : A),
    In (a, x) (combine (seq k (List.length l)) l) ->
    k <= a /\ nth_error l (a - k) = Some x.
Proof.
  induction l as [|y r IH]; intros k a x H; [destruct H|].
  cbn [List.length seq combine] in H. destruct H as [H|H].
  - injection H as <- <-. rewrite Nat.sub_diag. split; [lia|reflexivity].
  - apply IH in H. destruct H as [H1 H2]. split; [lia|].
    replace (a - k) with (S (a - S k)) by lia. exact H2.
Qed.

(** ** The classifier, the validator and the generated texts *)

(** X1. In whole numbers, for a width and a height below 2^49: an image is
    decorative exactly when a side is below 20 or one side is more than 20
    times the other, so the area test of the code never decides; and the
    verdict stays when width and height change places, whatever the other
    fields hold. *)
Theorem determine_if_decorative_integer_rule :
  forall self : ImageInfo.t,
    (ImageInfo.width self < 2 ^ 49)%Z -> (ImageInfo.height self < 2 ^ 49)%Z ->
    (ImageInfo.determine_if_decorative self = true
     <-> (ImageInfo.width self < 20 \/ ImageInfo.height self < 20
          \/ 20 * ImageInfo.height self < ImageInfo.width self
          \/ 20 * ImageInfo.width self < ImageInfo.height self)%Z)
    /\ (forall n p d a,
          ImageInfo.determine_if_decorative
            (ImageInfo.mk n (ImageInfo.height self) (ImageInfo.width self) p d a)
          = ImageInfo.determine_if_decorative self).
Proof.
  intros self Bw Bh. split; [now apply determine_if_decorative_integers|].
  intros n p d a. apply eq_true_iff_eq.
  rewrite !determine_if_decorative_integers by assumption.
  cbn [ImageInfo.width ImageInfo.height]. lia.
Qed.

Lemma determine_if_decorative_integer_rule_witness :
  (40 < 2 ^ 49)%Z /\ (900 < 2 ^ 49)%Z
  /\ ImageInfo.determine_if_decorative (ImageInfo.mk "/Im0" 40 900 1 false "") = true
  /\ ImageInfo.determine_if_decorative (ImageInfo.mk "/Im1" 900 40 2 false "") = true.
Proof.
  split; [reflexivity|]. split; [reflexivity|].
  destruct (determine_if_decorative_integer_rule (ImageInfo.mk "/Im0" 40 900 1 false "")
              eq_refl eq_refl) as [R S].
  assert (D : ImageInfo.determine_if_decorative (ImageInfo.mk "/Im0" 40 900 1 false "") = true).
  { apply R. cbn [ImageInfo.width ImageInfo.height]. lia. }
  split; [exact D|]. rewrite <- D. apply (S "/Im1" 2 false "").
Defined.

Lemma alt_generic_phrases_short :
  Forall (fun y => String.length y < 13) alt_generic_phrases.
Proof. repeat constructor. Qed.

Lemma validate_short (text role : string) :
  String.length (PyStr.strip text) < 10 ->
  _validate_alt_text_for_content text role = false.
Proof.
  intros H. unfold _validate_alt_text_for_content.
  destruct (PyStr.is_empty text || (PyStr.strip text =? "")%string); [reflexivity|].
  destruct (PyStr.mem _ _); [reflexivity|].
  destruct (_ && _); [reflexivity|].
  apply Nat.ltb_lt in H. now rewrite H.
Qed.

Lemma validate_long (text role : string) :
  20 <= String.length (PyStr.strip text) ->
  _validate_alt_text_for_content text role = true.
Proof.
  intros H. unfold _validate_alt_text_for_content.
  assert (Hl : String.length (PyStr.strip (PyStr.lower text))
               = String.length (PyStr.strip text))
    by (now rewrite strip_lower, lower_length).
  assert (E1 : PyStr.is_empty text = false).
  { destruct text; [simpl in H; lia|reflexivity]. }
  assert (E2 : (PyStr.strip text =? "")%string = false).
  { destruct (PyStr.strip text); [simpl in H; lia|reflexivity]. }
  rewrite E1, E2. cbn [orb].
  rewrite (mem_false_long _ _ 13 alt_generic_phrases_short) by lia.
  rewrite Hl.
  replace (String.length (PyStr.strip text) <? 20) with false
    by (symmetry; apply Nat.ltb_ge; lia).
  rewrite andb_false_r.
  replace (String.length (PyStr.strip text) <? 10) with false
    by (symmetry; apply Nat.ltb_ge; lia).
  reflexivity.
Qed.

(** X2. The validator rejects every alt text that has fewer than 10
    characters once stripped and accepts every one that has 20 or more,
    whatever it says. *)
Theorem validate_alt_text_by_length :
  forall text role : string,
    (String.length (PyStr.strip text) < 10 ->
     _validate_alt_text_for_content text role = false)
    /\ (20 <= String.length (PyStr.strip text) ->
        _validate_alt_text_for_content text role = true).
Proof.
  intros text role. split; [apply validate_short|apply validate_long].
Qed.

(** X3. Every alt text that [_generate_alt_text] writes for an image
    passes the validator, so [tag_images] raises no warning about a text
    that the analysis has generated. *)
Theorem generated_alt_text_is_valid :
  forall (img_info : ImageInfo.t) (page_num : nat) (role : string),
    _validate_alt_text_for_content (_generate_alt_text img_info page_num) role = true.
Proof.
  intros img_info page_num role.
  apply validate_long.
  unfold _generate_alt_text.
  destruct (B64.ltb (B64.of_Z 2) _); [|destruct (B64.ltb _ _); [|destruct (_ && _)]];
    (rewrite strip_framed; [|reflexivity|discriminate|reflexivity|discriminate]);
    rewrite !str_length_app; simpl; lia.
Qed.

(** X4. The text that [_generate_link_description] makes from a URL is
    "Link to " followed by a part that holds no slash, no hyphen and no
    underscore: nothing of the path of the URL gets into it. *)
Theorem link_description_shape :
  forall url : string,
    exists domain : string,
      _generate_link_description url = ("Link to " ++ domain)%string
      /\ forall c : ascii,
           In c (list_ascii_of_string domain) ->
           c <> "/"%char /\ c <> "-"%char /\ c <> "_"%char.
Proof.
  intros url. unfold _generate_link_description. eexists. split; [reflexivity|].
  intros c H.
  apply replace_char_chars in H. destruct H as [H|[H1 H]].
  { subst c. repeat split; discriminate. }
  apply replace_char_chars in H. destruct H as [H|[H2 H]].
  { subst c. repeat split; discriminate. }
  apply split_first_chars in H. auto.
Qed.

(** X5. For a link text of ASCII characters: whether it is generic does
    not depend on the case of its letters, on white space around it or on
    the other fields of the link, and a text of fewer than three characters
    once stripped is generic. *)
Theorem is_generic_link_text_normalises :
  forall (text url url' : string) (p p' : nat) (d d' : bool),
    PyStr.isascii text = true ->
    LinkInfo.is_generic_link_text (LinkInfo.mk (PyStr.lower text) url' p' d')
    = LinkInfo.is_generic_link_text (LinkInfo.mk text url p d)
    /\ LinkInfo.is_generic_link_text (LinkInfo.mk (PyStr.strip text) url' p' d')
       = LinkInfo.is_generic_link_text (LinkInfo.mk text url p d)
    /\ (String.length (PyStr.strip text) < 3 ->
        LinkInfo.is_generic_link_text (LinkInfo.mk text url p d) = true).
Proof.
  intros text url url' p p' d d' _. unfold LinkInfo.is_generic_link_text. cbn [LinkInfo.text].
  repeat split.
  - now rewrite lower_idem.
  - now rewrite <- strip_lower, strip_idem.
  - intros H. rewrite strip_lower, lower_length.
    apply Nat.ltb_lt in H. rewrite H. apply orb_true_r.
Qed.

Lemma is_generic_link_text_normalises_witness :
  PyStr.isascii "  Click HERE " = true
  /\ LinkInfo.is_generic_link_text (LinkInfo.mk "  click here " "" 2 true) = true
  /\ LinkInfo.is_generic_link_text (LinkInfo.mk "Click HERE" "" 2 true) = true
  /\ LinkInfo.is_generic_link_text (LinkInfo.mk "  Click HERE " "https://example.com/" 1 false)
     = true.
Proof.
  split; [reflexivity|].
  destruct (is_generic_link_text_normalises "  Click HERE " "https://example.com/" "" 1 2
              false true eq_refl) as [L [S _]].
  assert (G : LinkInfo.is_generic_link_text
                (LinkInfo.mk "  Click HERE " "https://example.com/" 1 false) = true)
    by reflexivity.
  split; [rewrite <- G; exact L|]. split; [rewrite <- G; exact S|exact G].
Defined.

(** ** The link repair *)

Section LinkRepair.
Import Pdf RemediationReport EnhancedPDFRemediator.

Lemma needs_fix_fix_link (l : LinkInfo.t) : needs_fix (fix_link l) = needs_fix l.
Proof. unfold fix_link. destruct (needs_fix l) eqn:E; [|exact E]. exact E. Qed.

Lemma fix_link_idem (l : LinkInfo.t) : fix_link (fix_link l) = fix_link l.
Proof.
  unfold fix_link at 1. rewrite needs_fix_fix_link.
  destruct (needs_fix l) eqn:E; [|reflexivity].
  unfold fix_link. rewrite E. reflexivity.
Qed.

Lemma filter_needs_fix_map (l : list LinkInfo.t) :
  filter needs_fix (map fix_link l) = map fix_link (filter needs_fix l).
Proof.
  induction l as [|x r IH]; simpl; [reflexivity|].
  rewrite needs_fix_fix_link. destruct (needs_fix x); simpl; congruence.
Qed.

Lemma fix_links_unfold (self : t) :
  fix_links self
  = (List.length (filter needs_fix (links (ensure_links self))),
     set_links (set_report (ensure_links self)
                  (let r := set_links_fixed (report (ensure_links self))
                              (List.length (filter needs_fix (links (ensure_links self)))) in
                   if (0 <? List.length (filter needs_fix (links (ensure_links self))))
                   then fixed r "Link Descriptions" "major"
                          ("Improved " ++ PyStr.of_nat (List.length (filter needs_fix (links (ensure_links self))))
                             ++ " non-descriptive links")%string
                          "2.4.4 Link Purpose (In Context)"
                   else r))
       (map fix_link (links (ensure_links self)))).
Proof. reflexivity. Qed.

Lemma ensure_links_pdf (self : t) : pdf (ensure_links self) = pdf self.
Proof. unfold ensure_links. now destruct (links self). Qed.

Lemma links_ensure_links_fixed (self : t) :
  links (ensure_links (snd (fix_links self))) = map fix_link (links (ensure_links self)).
Proof.
  rewrite fix_links_unfold. cbn [snd].
  unfold ensure_links at 1. cbn [links set_links].
  destruct (map fix_link (links (ensure_links self))) eqn:E; [|reflexivity].
  apply map_eq_nil in E.
  unfold analyze_links. cbn [links set_links pdf set_report].
  rewrite ensure_links_pdf.
  unfold ensure_links in E |- *. destruct (links self) eqn:El; [exact E|].
  cbn in E. rewrite El in E. discriminate.
Qed.

(** X6. [fix_links] changes the remediator's own link entries and never
    the document; as it leaves the flag [is_descriptive] as it was, a
    second call counts the same links as fixed once more and changes no
    text. *)
Theorem fix_links_second_call :
  forall self : t,
    pdf (snd (fix_links self)) = pdf self
    /\ fst (fix_links (snd (fix_links self))) = fst (fix_links self)
    /\ links (snd (fix_links (snd (fix_links self)))) = links (snd (fix_links self)).
Proof.
  intros self. split; [|split].
  - rewrite fix_links_unfold. cbn [snd pdf set_links set_report]. apply ensure_links_pdf.
  - rewrite (fix_links_unfold (snd (fix_links self))). cbn [fst].
    rewrite links_ensure_links_fixed, filter_needs_fix_map, length_map.
    rewrite fix_links_unfold. reflexivity.
  - rewrite (fix_links_unfold (snd (fix_links self))). cbn [snd links set_links].
    rewrite links_ensure_links_fixed, map_map.
    rewrite fix_links_unfold. cbn [snd links set_links].
    apply map_ext. intros l. apply fix_link_idem.
Qed.

End LinkRepair.

(** ** The heading repair *)

Section HeadingRepair.
Import Soup PDFProcessor.

Lemma kept_heading_refl (h : heading) : 1 <= level h -> kept_heading h h.
Proof. unfold kept_heading. intros H. split; [reflexivity|lia]. Qed.





Lemma clamp_levels_kept (l : nat) (hs : list heading) :
  Forall (fun h => 1 <= level h) hs ->
  Forall2 kept_heading hs (fst (clamp_levels l hs)).
Proof.
  intros H. revert l. induction H as [|h r Hh Hr IH]; intros l; [constructor|].
  rewrite clamp_levels_cons.
  destruct (l + 1 <? level h) eqn:E; cbn [fst]; constructor; auto.
  - apply Nat.ltb_lt in E. unfold kept_heading, set_level. cbn. split; [reflexivity|lia].
  - now apply kept_heading_refl.
Qed.

Lemma find_all_clamp_soup_split (soup : t) :
  exists b m,
    find_all_headings (clamp_soup soup) = b ++ m
    /\ (Forall (fun h => 1 <= level h) (find_all_headings soup) ->
        Forall2 kept_heading (before_main soup) b
        /\ Forall2 kept_heading (main_headings soup) m).
Proof.
  exists (fst (clamp_levels 1 (before_main soup))),
         (fst (clamp_levels (snd (clamp_levels 1 (before_main soup))) (main_headings soup))).
  split.
  - rewrite find_all_clamp_soup. unfold find_all_headings.
    rewrite clamp_levels_app. reflexivity.
  - unfold find_all_headings. intros H. apply Forall_app in H. destruct H.
    split; now apply clamp_levels_kept.
Qed.




Lemma fix_heading_hierarchy_idempotent_witness :
  (main soup_1_3_2 = None \/ first_heading_fixable soup_1_3_2)
  /\ fix_heading_hierarchy (fix_heading_hierarchy soup_1_3_2)
     = fix_heading_hierarchy soup_1_3_2.
Proof.
  split; [right; left; reflexivity|].
  apply (fix_heading_hierarchy_idempotent soup_1_3_2). right. left. reflexivity.
Defined.

End HeadingRepair.

(** ** The heading check *)

Section HeadingCheck.
Import Soup PDFProcessor.

Lemma skipped_levels_no_skip (l : nat) (hs : list heading) :
  no_skip l (map level hs) -> AccessibilityChecker.skipped_levels_from l hs = [].
Proof.
  revert l. induction hs as [|h r IH]; intros l; simpl; [reflexivity|].
  intros [H1 H2]. rewrite (IH _ H2).
  replace (l + 1 <? level h) with false by (symmetry; apply Nat.ltb_ge; lia).
  now rewrite andb_false_r.
Qed.

Lemma skipped_levels_no_skip_0 (hs : list heading) :
  no_skip 1 (map level hs) -> AccessibilityChecker.skipped_levels_from 0 hs = [].
Proof.
  destruct hs as [|h r]; simpl; [reflexivity|].
  intros [_ H]. now rewrite skipped_levels_no_skip.
Qed.


Lemma issues_add_issue (self : AccessibilityChecker.t) (g t d ty : string) :
  exists i,
    AccessibilityChecker.issues (AccessibilityChecker.add_issue self g t d "error" ty)
    = AccessibilityChecker.issues self ++ [i]
    /\ AccessibilityChecker.title i = t /\ AccessibilityChecker.type i = ty.
Proof. eexists. split; [reflexivity|]. split; reflexivity. Qed.

Lemma issues_add_passed_check (self : AccessibilityChecker.t) (g t : string) :
  AccessibilityChecker.issues (AccessibilityChecker.add_passed_check self g t)
  = AccessibilityChecker.issues self.
Proof. reflexivity. Qed.

(** What the heading check adds to the issues *)
Lemma check_heading_hierarchy_issues (self : AccessibilityChecker.t) (soup : t) :
  exists new,
    AccessibilityChecker.issues (AccessibilityChecker.check_heading_hierarchy self soup)
    = AccessibilityChecker.issues self ++ new
    /\ Forall (fun i =>
         (AccessibilityChecker.type i = "missing_headings" /\ find_all_headings soup = [])
         \/ (AccessibilityChecker.type i = "wrong_first_heading"
             /\ hd_error (levels soup) <> Some 1)
         \/ (AccessibilityChecker.type i = "skipped_heading_levels"
             /\ AccessibilityChecker.skipped_levels_from 0 (find_all_headings soup) <> [])
         \/ (AccessibilityChecker.type i = "unknown"
             /\ AccessibilityChecker.title i = "Empty Headings Found")) new.
Proof.
  unfold AccessibilityChecker.check_heading_hierarchy, levels.
  destruct (find_all_headings soup) as [|first rest] eqn:E.
  { destruct (issues_add_issue self "2.4.6" "No Headings Found"
                "The document does not contain any headings." "missing_headings")
      as [i [-> [_ Hi]]].
    exists [i]. split; [reflexivity|]. constructor; [|constructor]. left. auto. }
  set (P := fun i => _ \/ _).
  set (c1 := if negb (level first =? 1) then _ else self).
  assert (H1 : exists new, AccessibilityChecker.issues c1 = AccessibilityChecker.issues self ++ new
                           /\ Forall P new).
  { subst c1. destruct (level first =? 1) eqn:E1; cbn [negb].
    - exists []. rewrite app_nil_r. split; [reflexivity|constructor].
    - match goal with |- context [AccessibilityChecker.add_issue self ?g ?t ?d _ ?ty] =>
        destruct (issues_add_issue self g t d ty) as [i [-> [_ Hi]]] end.
      exists [i]. split; [reflexivity|]. constructor; [|constructor].
      right. left. split; [exact Hi|]. cbn. apply Nat.eqb_neq in E1. congruence. }
  clearbody c1. destruct H1 as [n1 [E1 F1]].
  set (sk := AccessibilityChecker.skipped_levels_from 0 (first :: rest)) in *.
  set (c2 := match sk with [] => _ | _ :: _ => _ end).
  assert (H2 : exists new, AccessibilityChecker.issues c2 = AccessibilityChecker.issues self ++ new
                           /\ Forall P new).
  { subst c2. destruct sk eqn:Es.
    - rewrite issues_add_passed_check. eauto.
    - match goal with |- context [AccessibilityChecker.add_issue c1 ?g ?t ?d _ ?ty] =>
        destruct (issues_add_issue c1 g t d ty) as [i [-> [_ Hi]]] end.
      exists (n1 ++ [i]). rewrite E1, app_assoc. split; [reflexivity|].
      apply Forall_app. split; [exact F1|]. constructor; [|constructor].
      right. right. left. split; [exact Hi|discriminate]. }
  clearbody c2. destruct H2 as [n2 [E2 F2]].
  destruct (filter _ _).
  - rewrite issues_add_passed_check. eauto.
  - match goal with |- context [AccessibilityChecker.add_issue c2 ?g ?t ?d _ ?ty] =>
      destruct (issues_add_issue c2 g t d ty) as [i [-> [Ht Hi]]] end.
    exists (n2 ++ [i]). rewrite E2, app_assoc. split; [reflexivity|].
    apply Forall_app. split; [exact F2|]. constructor; [|constructor].
    right. right. right. split; [exact Hi|exact Ht].
Qed.

(** X8. After the normaliser has run, the heading check of the
    accessibility checker records no skipped heading level, for every
    document and whatever the checker has recorded before. *)
Theorem fix_then_check_no_skipped_levels :
  forall (self : AccessibilityChecker.t) (soup : t),
    issues_of_type "skipped_heading_levels"
      (AccessibilityChecker.check_heading_hierarchy self (fix_heading_hierarchy soup))
    = issues_of_type "skipped_heading_levels" self.
Proof.
  intros self soup. unfold issues_of_type.
  destruct (check_heading_hierarchy_issues self (fix_heading_hierarchy soup)) as [new [-> F]].
  rewrite filter_app, (filter_nil_forall _ new); [apply app_nil_r|].
  eapply Forall_impl; [|exact F]. cbn beta.
  intros i [[H _]|[[H _]|[[_ H]|[H _]]]]; try (rewrite H; reflexivity).
  exfalso. apply H. apply skipped_levels_no_skip_0. apply fix_heading_hierarchy_no_skip.
Qed.

(** X9. For a document with a [main] element whose first heading is
    fixable, the only issue that the heading check can still record after
    the normaliser has run is the one about empty headings. *)
Theorem fix_then_check_first_heading :
  forall (self : AccessibilityChecker.t) (soup : t) (hs : list heading),
    main soup = Some hs ->
    first_heading_fixable soup ->
    exists new,
      AccessibilityChecker.issues
        (AccessibilityChecker.check_heading_hierarchy self (fix_heading_hierarchy soup))
      = AccessibilityChecker.issues self ++ new
      /\ Forall (fun i => AccessibilityChecker.title i = "Empty Headings Found") new.
Proof.
  intros self soup hs Hm Hf.
  destruct (check_heading_hierarchy_issues self (fix_heading_hierarchy soup)) as [new [-> F]].
  exists new. split; [reflexivity|].
  assert (H1 : hd_error (levels (fix_heading_hierarchy soup)) = Some 1).
  { destruct (fix_heading_hierarchy_with_main soup hs Hm Hf) as [soup' [-> [H1 _]]].
    rewrite levels_clamp_soup. now apply clamp_levels_hd_1. }
  eapply Forall_impl; [|exact F]. cbn beta.
  intros i [[_ H]|[[_ H]|[[_ H]|[_ H]]]]; auto; exfalso.
  - unfold levels in H1. rewrite H in H1. discriminate.
  - auto.
  - apply H. apply skipped_levels_no_skip_0. apply fix_heading_hierarchy_no_skip.
Qed.

Lemma fix_then_check_first_heading_witness :
  main soup_1_3_2 = Some [heading_of 1; heading_of 3; heading_of 2]
  /\ first_heading_fixable soup_1_3_2
  /\ exists new,
      AccessibilityChecker.issues
        (AccessibilityChecker.check_heading_hierarchy checker_with_skipped_issue
           (fix_heading_hierarchy soup_1_3_2))
      = AccessibilityChecker.issues checker_with_skipped_issue ++ new
      /\ Forall (fun i => AccessibilityChecker.title i = "Empty Headings Found") new.
Proof.
  split; [reflexivity|]. split; [left; reflexivity|].
  apply (fix_then_check_first_heading checker_with_skipped_issue soup_1_3_2
           [heading_of 1; heading_of 3; heading_of 2]);
    [reflexivity|left; reflexivity].
Defined.

Lemma skipped_levels_from_iff (l : nat) (hs : list heading) :
  AccessibilityChecker.skipped_levels_from l hs <> []
  <-> exists k a b,
        nth_error (l :: map level hs) k = Some a
        /\ nth_error (l :: map level hs) (S k) = Some b
        /\ 0 < a /\ a + 1 < b.
Proof.
  revert l. induction hs as [|h r IH]; intros l.
  - simpl. split; [congruence|]. intros [k [a [b [_ [H _]]]]].
    destruct k; discriminate.
  - cbn [AccessibilityChecker.skipped_levels_from map].
    destruct ((0 <? l) && (l + 1 <? level h)) eqn:E.
    + split; [|discriminate]. intros _. apply andb_true_iff in E. destruct E as [E1 E2].
      apply Nat.ltb_lt in E1, E2. exists 0, l, (level h). cbn. auto.
    + cbn [app]. rewrite IH. split.
      * intros [k [a [b [H1 [H2 H3]]]]]. exists (S k), a, b. cbn. auto.
      * intros [k [a [b [H1 [H2 [H3 H4]]]]]]. destruct k as [|k].
        -- cbn in H1, H2. injection H1 as <-. injection H2 as <-.
           apply andb_false_iff in E. destruct E as [E|E];
             [apply Nat.ltb_ge in E|apply Nat.ltb_ge in E]; lia.
        -- exists k, a, b. cbn in H1, H2. auto.
Qed.

Lemma check_heading_hierarchy_skipped_added (self : AccessibilityChecker.t) (soup : t) :
  AccessibilityChecker.skipped_levels_from 0 (find_all_headings soup) <> [] ->
  exists i, In i (AccessibilityChecker.issues (AccessibilityChecker.check_heading_hierarchy self soup))
            /\ AccessibilityChecker.type i = "skipped_heading_levels".
Proof.
  unfold AccessibilityChecker.check_heading_hierarchy.
  destruct (find_all_headings soup) as [|first rest] eqn:E; [simpl; congruence|].
  intros H.
  set (c1 := if negb (level first =? 1) then _ else self). clearbody c1.
  destruct (AccessibilityChecker.skipped_levels_from 0 (first :: rest)) as [|s r];
    [congruence|].
  match goal with |- context [AccessibilityChecker.add_issue c1 ?g ?t ?d _ ?ty] =>
    destruct (issues_add_issue c1 g t d ty) as [i [Ei [_ Hi]]];
    set (c2 := AccessibilityChecker.add_issue c1 g t d "error" ty) in * end.
  clearbody c2. exists i. split; [|exact Hi].
  destruct (filter _ _).
  - rewrite issues_add_passed_check, Ei. apply in_or_app. right. now left.
  - match goal with |- context [AccessibilityChecker.add_issue c2 ?g ?t ?d _ ?ty] =>
      destruct (issues_add_issue c2 g t d ty) as [j [-> _]] end.
    rewrite Ei. apply in_or_app. left. apply in_or_app. right. now left.
Qed.

(** X11. The heading check of a fresh checker records skipped levels
    exactly when some heading is more than one level below the heading
    before it; a first heading of any level and a jump upwards are never
    recorded as skipped. *)
Theorem check_heading_hierarchy_skipped_iff :
  forall soup : t,
    issues_of_type "skipped_heading_levels"
      (AccessibilityChecker.check_heading_hierarchy empty_checker soup) <> []
    <-> exists k a b,
          nth_error (levels soup) k = Some a
          /\ nth_error (levels soup) (S k) = Some b
          /\ 0 < a /\ a + 1 < b.
Proof.
  intros soup.
  assert (R : issues_of_type "skipped_heading_levels"
                (AccessibilityChecker.check_heading_hierarchy empty_checker soup) <> []
              <-> AccessibilityChecker.skipped_levels_from 0 (find_all_headings soup) <> []).
  { unfold issues_of_type. split.
    - intros H.
      destruct (check_heading_hierarchy_issues empty_checker soup) as [new [E F]].
      rewrite E in H. cbn [AccessibilityChecker.issues empty_checker app] in H.
      destruct (filter _ new) as [|i r] eqn:Ef; [congruence|].
      assert (Hi : In i (filter (fun i => (AccessibilityChecker.type i =? "skipped_heading_levels")%string) new))
        by (rewrite Ef; now left).
      apply filter_In in Hi. destruct Hi as [Hi Ht]. apply String.eqb_eq in Ht.
      rewrite Forall_forall in F. specialize (F _ Hi).
      destruct F as [[F _]|[[F _]|[[_ F]|[F _]]]]; auto; rewrite Ht in F; discriminate.
    - intros H. destruct (check_heading_hierarchy_skipped_added empty_checker soup H) as [i [Hi Ht]].
      intros E.
      assert (Hf : In i (filter (fun i => (AccessibilityChecker.type i =? "skipped_heading_levels")%string)
                     (AccessibilityChecker.issues
                        (AccessibilityChecker.check_heading_hierarchy empty_checker soup)))).
      { apply filter_In. split; [exact Hi|]. now apply String.eqb_eq. }
      rewrite E in Hf. destruct Hf. }
  rewrite R, skipped_levels_from_iff. unfold levels. split.
  - intros [k [a [b [H1 [H2 [H3 H4]]]]]]. destruct k as [|k].
    + cbn in H1. injection H1 as <-. lia.
    + exists k, a, b. cbn in H1. auto.
  - intros [k [a [b [H1 [H2 [H3 H4]]]]]]. exists (S k), a, b. cbn. auto.
Qed.

End HeadingCheck.

(** ** The report *)

Lemma summary_tiers_upto_sound (n p t : nat) :
  summary_tiers_upto n = true -> 0 < t <= n -> p <= t ->
  exists s, AccessibilityChecker.score_of p t = Some s
            /\ (80 <=? s)%Z = (80 * Z.of_nat t <=? 100 * Z.of_nat p)%Z
            /\ (50 <=? s)%Z = (50 * Z.of_nat t <=? 100 * Z.of_nat p)%Z
            /\ (0 <= s <= 100)%Z.
Proof.
  unfold summary_tiers_upto. intros H Ht Hp.
  pose proof (forallb_seq _ _ _ H t ltac:(lia)) as H1. cbn beta in H1.
  pose proof (forallb_seq _ _ _ H1 p ltac:(lia)) as H2. cbn beta in H2.
  destruct (AccessibilityChecker.score_of p t) as [s|]; [|discriminate].
  exists s. split; [reflexivity|].
  apply andb_true_iff in H2. destruct H2 as [H2 H5].
  apply andb_true_iff in H2. destruct H2 as [H2 H4].
  apply andb_true_iff in H2. destruct H2 as [H2 H3].
  apply eqb_prop in H2, H3. apply Z.leb_le in H4, H5. auto.
Qed.

Lemma summary_tiers_upto_100 : summary_tiers_upto 100 = true.
Proof. vm_compute. reflexivity. Qed.

(** X12. For a report of up to 100 records the status is "pass" exactly
    when there is no issue, whatever the score; otherwise it is
    "near_pass" when 100 p >= 80 t, "needs_work" when 100 p >= 50 t and
    "fail" below, p being the number of passed checks and t the number of
    records; the score lies between 0 and 100. *)
Theorem generate_report_status :
  forall self : AccessibilityChecker.t,
    let p := List.length (AccessibilityChecker.passed_checks self) in
    let i := List.length (AccessibilityChecker.issues self) in
    let w := List.length (AccessibilityChecker.warnings self) in
    p + i + w <= 100 ->
    option_map AccessibilityChecker.status
      (AccessibilityChecker.report_summary (AccessibilityChecker.generate_report self))
    = Some (status_of_counts p i w)
    /\ (AccessibilityChecker.passes_wcag (AccessibilityChecker.generate_report self) = true
        <-> AccessibilityChecker.issues self = [])
    /\ exists s, AccessibilityChecker.compliance_score (AccessibilityChecker.generate_report self)
                 = Some s /\ (0 <= s <= 100)%Z.
Proof.
  intros self p i w H.
  unfold AccessibilityChecker.generate_report.
  cbn [AccessibilityChecker.report_summary AccessibilityChecker.passes_wcag
       AccessibilityChecker.compliance_score].
  fold p i w.
  replace (i + w + p) with (p + i + w) by lia.
  assert (S : exists s, AccessibilityChecker.score_of p (p + i + w) = Some s
            /\ (0 <= s <= 100)%Z
            /\ (0 < p + i + w ->
                (80 <=? s)%Z = (80 * Z.of_nat (p + i + w) <=? 100 * Z.of_nat p)%Z
                /\ (50 <=? s)%Z = (50 * Z.of_nat (p + i + w) <=? 100 * Z.of_nat p)%Z)).
  { destruct (Nat.eq_dec (p + i + w) 0) as [E|E].
    - rewrite E. exists 0%Z. split; [reflexivity|]. split; lia.
    - destruct (summary_tiers_upto_sound 100 p (p + i + w) summary_tiers_upto_100)
        as [s [Es [S80 [S50 Sr]]]]; [lia|lia|].
      exists s. auto. }
  destruct S as [s [-> [Sr St]]].
  split; [|split].
  - cbn [option_map]. unfold AccessibilityChecker.generate_summary, status_of_counts.
    destruct (i =? 0) eqn:Ei; [reflexivity|]. apply Nat.eqb_neq in Ei.
    destruct St as [S80 S50]; [lia|]. rewrite S80, S50.
    destruct (80 * _ <=? _)%Z; [reflexivity|]. destruct (50 * _ <=? _)%Z; reflexivity.
  - rewrite Nat.eqb_eq. subst i. apply length_zero_iff_nil.
  - eauto.
Qed.

Lemma generate_report_status_witness :
  8 + 2 + 0 <= 100
  /\ option_map AccessibilityChecker.status
       (AccessibilityChecker.report_summary
          (AccessibilityChecker.generate_report (checker_with 8 2 0)))
     = Some "near_pass".
Proof.
  split; [lia|].
  apply (generate_report_status (checker_with 8 2 0)). vm_compute. lia.
Defined.

(** ** The structure tree builder, further *)

Section BuilderMore.

Import Pdf RemediationReport EnhancedPDFRemediator.

Lemma tag_headings_K_length heading_map (self : t) :
  List.length (tree_K (snd (tag_headings heading_map self)))
  = List.length (tree_K self) + fst (tag_headings heading_map self).
Proof.
  unfold tag_headings, tree_K. destruct heading_map as [|e r]; [cbn; lia|].
  destruct (StructTreeRoot (pdf self)) as [tr|] eqn:Et; [|cbn; rewrite ?Et, ?Ek; cbn; rewrite ?Ek; cbn; lia].
  destruct (K tr) as [k|] eqn:Ek; [|cbn; rewrite ?Et, ?Ek; cbn; rewrite ?Ek; cbn; lia].
  cbn [fst snd pdf set_report set_pdf set_tree StructTreeRoot].
  unfold K_list. cbn [K set_K]. rewrite Ek, length_app, length_map. reflexivity.
Qed.

Lemma tag_tables_K_length (self : t) :
  List.length (tree_K (snd (tag_tables self)))
  = List.length (tree_K self) + fst (tag_tables self).
Proof.
  unfold tag_tables, tree_K.
  set (s := match tables self with [] => analyze_tables self | _ :: _ => self end).
  assert (Ep : pdf s = pdf self) by (subst s; destruct (tables self); reflexivity).
  clearbody s. rewrite <- Ep.
  destruct (StructTreeRoot (pdf s)) as [tr|] eqn:Et; [|cbn; rewrite ?Et, ?Ek; cbn; rewrite ?Ek; cbn; lia].
  destruct (K tr) as [k|] eqn:Ek; [|cbn; rewrite ?Et, ?Ek; cbn; rewrite ?Ek; cbn; lia].
  cbn [fst snd pdf set_report set_pdf set_tree StructTreeRoot].
  unfold K_list. cbn [K set_K]. rewrite Ek, length_app, length_map. reflexivity.
Qed.

(** X13. Each tagging step and the marking of artifacts returns exactly
    the number of nodes that it has appended to [/K]; the nodes that were
    there stay in front, in their order. *)
Theorem step_count_is_nodes_appended :
  forall (o : op) (self : t),
    exists new : list struct_elem,
      tree_K (snd (step o self)) = tree_K self ++ new
      /\ List.length new = fst (step o self).
Proof.
  intros o self.
  destruct (step_K_extends o self) as [new [E _]].
  exists new. split; [exact E|].
  assert (L : List.length (tree_K (snd (step o self)))
              = List.length (tree_K self) + fst (step o self)).
  { destruct o; cbn [step].
    - apply tag_images_K_length.
    - apply tag_headings_K_length.
    - apply tag_tables_K_length.
    - apply tag_form_fields_K_length.
    - apply tag_annotations_K_length.
    - apply mark_unmarked_spec. }
  rewrite E, length_app in L. lia.
Qed.

(** X14. [_fix_document_structure] leaves the document marked as tagged
    and with a structure tree, keeps a tree that is there as it is, and
    changes nothing when it reports nothing fixed; a second call reports
    nothing fixed. *)
Theorem fix_document_structure_once :
  forall self : t,
    let r := _fix_document_structure self in
    MarkInfo_Marked (pdf (snd r)) = Some true
    /\ (match StructTreeRoot (pdf self) with
        | Some tr => StructTreeRoot (pdf (snd r)) = Some tr
        | None => StructTreeRoot (pdf (snd r)) = Some (empty_tree false)
        end)
    /\ (fst r = false -> snd r = self)
    /\ _fix_document_structure (snd r) = (false, snd r).
Proof.
  intros self. destruct self as [p rep im tb lk ff an].
  destruct p as [pgs ans flds mk tr].
  unfold _fix_document_structure. cbn.
  destruct mk as [[|]|]; destruct tr as [tr|]; cbn; repeat split; try discriminate;
    try reflexivity.
Qed.
Lemma analyze_image_In (page_num : nat) (entry : string * xobject) :
  x_Subtype (snd entry) = "Image" ->
  exists img, analyze_image page_num entry = [img]
              /\ ImageInfo.page_number img = page_num
              /\ ImageInfo.name img = fst entry.
Proof.
  destruct entry as [n o]. cbn [fst snd]. intros E. unfold analyze_image. rewrite E.
  cbn [String.eqb]. change ("Image" =? "Image")%string with true. cbn iota.
  destruct (ImageInfo.determine_if_decorative _); eexists; split; try reflexivity; split; reflexivity.
Qed.

Lemma analyze_image_not (page_num : nat) (entry : string * xobject) :
  x_Subtype (snd entry) <> "Image" -> analyze_image page_num entry = [].
Proof.
  destruct entry as [n o]. cbn [fst snd]. intros E. unfold analyze_image.
  destruct (x_Subtype o =? "Image")%string eqn:Ee; [|reflexivity].
  apply String.eqb_eq in Ee. contradiction.
Qed.

Lemma images_cover_self (pps : list (nat * page)) :
  images_cover (flat_map page_images pps) pps.
Proof.
  intros pp xs entry Hpp Hxs He Hs Hf.
  destruct (analyze_image_In (fst pp) entry Hs) as [img [Ea [Ep En]]].
  assert (Hin : In img (flat_map page_images pps)).
  { apply in_flat_map. exists pp. split; [exact Hpp|].
    unfold page_images. rewrite Hxs. apply in_flat_map. exists entry.
    split; [exact He|]. rewrite Ea. now left. }
  unfold find_image in Hf. pose proof (find_none _ _ Hf img Hin) as Hn.
  cbn beta in Hn. rewrite Ep, En, Nat.eqb_refl, String.eqb_refl in Hn. discriminate.
Qed.

Lemma tag_image_count_cover imgs page_num ls entry :
  (x_Subtype (snd entry) = "Image" -> find_image imgs page_num (fst entry) <> None) ->
  il_tagged_count (tag_image imgs page_num ls entry)
  = il_tagged_count ls + List.length (analyze_image page_num entry).
Proof.
  intros H. destruct (String.eqb (x_Subtype (snd entry)) "Image") eqn:E.
  - apply String.eqb_eq in E. specialize (H E).
    destruct (analyze_image_In page_num entry E) as [img [-> _]].
    destruct entry as [n o]. cbn [fst snd] in *. unfold tag_image. rewrite E.
    change ("Image" =? "Image")%string with true. cbn [negb].
    destruct (find_image imgs page_num n) as [i|]; [|contradiction].
    destruct (ImageInfo.is_decorative i); reflexivity.
  - apply String.eqb_neq in E. rewrite (analyze_image_not _ _ E).
    destruct entry as [n o]. cbn [fst snd] in *. unfold tag_image.
    apply String.eqb_neq in E. rewrite E. cbn. lia.
Qed.

Lemma tag_images_xobjects_count imgs page_num xs ls :
  (forall entry, In entry xs -> x_Subtype (snd entry) = "Image" ->
                 find_image imgs page_num (fst entry) <> None) ->
  il_tagged_count (fold_left (tag_image imgs page_num) xs ls)
  = il_tagged_count ls + List.length (flat_map (analyze_image page_num) xs).
Proof.
  revert ls. induction xs as [|e r IH]; intros ls H; cbn [fold_left flat_map]; [cbn; lia|].
  rewrite IH by (intros; apply H; [now right|assumption]).
  rewrite tag_image_count_cover by (apply H; now left).
  rewrite length_app. lia.
Qed.

Lemma tag_images_pages_count imgs pps ls :
  images_cover imgs pps ->
  il_tagged_count (fold_left (tag_images_page imgs) pps ls)
  = il_tagged_count ls + List.length (flat_map page_images pps).
Proof.
  revert ls. induction pps as [|pp r IH]; intros ls H; cbn [fold_left flat_map]; [cbn; lia|].
  rewrite IH.
  2:{ intros pp' xs entry Hp. apply H. now right. }
  rewrite length_app. unfold tag_images_page.
  replace (page_images pp) with
    (match pg_XObject (snd pp) with
     | Some xobjects => flat_map (analyze_image (fst pp)) xobjects
     | None => []
     end) by reflexivity.
  destruct (pg_XObject (snd pp)) as [xs|] eqn:E; [|cbn [List.length]; lia].
  rewrite tag_images_xobjects_count; [lia|].
  intros entry He Hs. apply (H pp xs entry); auto. now left.
Qed.

(** X15. On a remediator that has not analysed the images yet,
    [tag_images] tags every image that its analysis finds, each once: the
    count it returns and reports is the number of analysed images. *)
Theorem tag_images_tags_every_analysed_image :
  forall self : t,
    images self = [] ->
    fst (tag_images self) = List.length (images (analyze_images self))
    /\ images_tagged (report (snd (tag_images self)))
       = List.length (images (analyze_images self)).
Proof.
  intros self H.
  assert (C : fst (tag_images self) = List.length (images (analyze_images self))).
  { rewrite tag_images_count. unfold image_count, images_used, ensure_images. rewrite H.
    rewrite tag_images_pages_count; [reflexivity|].
    unfold analyze_images. cbn [images set_images]. apply images_cover_self. }
  split; [exact C|]. rewrite <- C.
  unfold tag_images. cbn [fst snd report set_report].
  destruct (0 <? _); reflexivity.
Qed.

Lemma tag_images_tags_every_analysed_image_witness :
  images two_image_doc = []
  /\ fst (tag_images two_image_doc) = List.length (images (analyze_images two_image_doc))
  /\ images_tagged (report (snd (tag_images two_image_doc)))
     = List.length (images (analyze_images two_image_doc)).
Proof.
  split; [reflexivity|].
  apply (tag_images_tags_every_analysed_image two_image_doc). reflexivity.
Defined.

Lemma ensure_tooltip_and_name_labels (npages addr n : nat) (f : field) :
  let f' := ensure_tooltip_and_name (analyze_form_field npages (addr, f)) n f in
  str_or_empty (f_TU f') <> "" /\ str_or_empty (f_T f') <> "".
Proof.
  unfold ensure_tooltip_and_name, analyze_form_field.
  cbn [FormFieldInfo.has_tooltip FormFieldInfo.has_label FormFieldInfo.label_text
       FormFieldInfo.name FormFieldInfo.field_type].
  rewrite !negb_involutive.
  destruct (PyStr.is_empty (str_or_empty (f_TU f))) eqn:Etu;
    destruct (PyStr.is_empty (str_or_empty (f_T f))) eqn:Et; cbn [negb].
  - cbn. split; [|discriminate]. apply append_nonempty_r. discriminate.
  - cbn. split; [|now apply is_empty_false].
    apply title_from_nonempty, replace_char_nonempty. now apply is_empty_false.
  - cbn. split; [now apply is_empty_false|discriminate].
  - split; now apply is_empty_false.
Qed.

Lemma tag_form_field_analysed (npages addr : nat) (f : field) (ls : field_loop) :
  nth_error (fl_fields ls) addr = Some f ->
  exists f',
    fl_fields (tag_form_field ls (analyze_form_field npages (addr, f)))
    = store_set (fl_fields ls) addr f'
    /\ field_accessible f'.
Proof.
  intros H. unfold tag_form_field.
  replace (FormFieldInfo.field_ref (analyze_form_field npages (addr, f))) with (Some addr)
    by reflexivity.
  rewrite H.
  pose proof (ensure_tooltip_and_name_labels npages addr (fl_tagged_count ls) f) as L.
  cbv zeta in L.
  set (f1 := ensure_tooltip_and_name _ _ f) in *. clearbody f1.
  destruct L as [L1 L2].
  destruct (f_StructParent f1) as [sp|] eqn:Esp.
  - cbn [fl_fields]. exists f1. split; [reflexivity|].
    repeat split; auto. rewrite Esp. discriminate.
  - destruct (link_to_parent_tree (fl_tree ls) _) as [idx tr]. cbn [fl_fields].
    eexists. split; [reflexivity|]. repeat split; auto. discriminate.
Qed.

Lemma tag_form_fields_fresh_loop (npages : nat) (rest : list field) :
  forall (k : nat) (ls : field_loop),
    List.length (fl_fields ls) = k + List.length rest ->
    (forall j f, nth_error rest j = Some f -> nth_error (fl_fields ls) (k + j) = Some f) ->
    fields_accessible_upto (fl_fields ls) k ->
    fields_accessible_upto
      (fl_fields (fold_left tag_form_field
                    (map (analyze_form_field npages) (combine (seq k (List.length rest)) rest)) ls))
      (k + List.length rest).
Proof.
  induction rest as [|f r IH]; intros k ls Hlen Hrest Hacc.
  - cbn. now rewrite Nat.add_0_r.
  - cbn [List.length seq combine map fold_left].
    assert (Hf : nth_error (fl_fields ls) k = Some f).
    { specialize (Hrest 0 f eq_refl). now rewrite Nat.add_0_r in Hrest. }
    destruct (tag_form_field_analysed npages k f ls Hf) as [f' [E A]].
    set (ls1 := tag_form_field ls (analyze_form_field npages (k, f))) in *. clearbody ls1.
    assert (Hk : k < List.length (fl_fields ls)) by (cbn in Hlen; lia).
    replace (k + S (List.length r)) with (S k + List.length r) by lia.
    apply IH.
    + rewrite E, store_set_length. cbn in Hlen. lia.
    + intros j g Hg. rewrite E, store_set_other by lia.
      replace (S k + j) with (k + S j) by lia. apply Hrest. exact Hg.
    + intros j Hj. destruct (Nat.eq_dec j k) as [->|Hne].
      * exists f'. rewrite E, store_set_same by exact Hk. auto.
      * rewrite E, store_set_other by lia. apply Hacc. lia.
Qed.

Lemma tag_form_fields_fresh_accessible :
  forall self : t,
    form_fields self = [] ->
    Forall field_accessible (fields_store (pdf (snd (tag_form_fields self)))).
Proof.
  intros self H.
  destruct (tag_form_fields_loop self) as [ls0 [_ [_ [E0 [_ L]]]]].
  cbv zeta in L. destruct L as [_ [_ [E _]]].
  rewrite E. unfold fields_used, ensure_form_fields. rewrite H.
  unfold analyze_form_fields. unfold fields_store in E0.
  destruct (AcroForm_Fields (pdf self)) as [fields|] eqn:Ef.
  - cbn [form_fields set_form_fields]. unfold enumerate0.
    pose proof (tag_form_fields_fresh_loop (List.length (pages (pdf self))) fields 0 ls0) as P.
    cbn [Nat.add] in P.
    set (l := map _ (combine _ fields)) in *.
    destruct (tag_form_fields_loop_rel l ls0) as [_ [_ [_ [Hlen _]]]].
    apply Forall_forall. intros f Hf. apply In_nth_error in Hf. destruct Hf as [j Hj].
    assert (Hlt : j < List.length fields).
    { rewrite <- E0, <- Hlen. apply nth_error_Some. congruence. }
    destruct (P ltac:(now rewrite E0) ltac:(now rewrite E0)
                ltac:(intros j' Hj'; lia) j Hlt) as [f' [Hf' A]].
    congruence.
  - rewrite H. cbn [fold_left]. rewrite E0. constructor.
Qed.

(** X16. On a remediator that has not analysed the form yet,
    [tag_form_fields] leaves every field of the form with a tooltip and a
    name that are not empty, and with a [/StructParent]. *)
Theorem tag_form_fields_makes_fields_accessible :
  forall self : t,
    form_fields self = [] ->
    Forall field_accessible (fields_store (pdf (snd (tag_form_fields self)))).
Proof. exact tag_form_fields_fresh_accessible. Qed.

Lemma tag_form_fields_makes_fields_accessible_witness :
  form_fields form_doc = []
  /\ Forall field_accessible (fields_store (pdf (snd (tag_form_fields form_doc)))).
Proof.
  split; [reflexivity|].
  apply (tag_form_fields_makes_fields_accessible form_doc). reflexivity.
Defined.

Lemma tag_form_fields_fresh_no_AcroForm (self : t) :
  form_fields self = [] ->
  AcroForm_Fields (pdf (snd (tag_form_fields self))) = None ->
  form_fields (snd (tag_form_fields self)) = [].
Proof.
  intros H. unfold tag_form_fields, ensure_form_fields. rewrite H.
  unfold analyze_form_fields.
  destruct (AcroForm_Fields (pdf self)) as [fields|] eqn:E.
  - set (l := map _ (enumerate0 fields)). clearbody l.
    cbn [form_fields set_form_fields].
    destruct l as [|i r]; [reflexivity|].
    set (s := set_form_fields self (i :: r)).
    assert (Es : AcroForm_Fields (pdf s) = Some fields) by exact E.
    destruct (ensure_structure_tree_spec s) as [_ [_ [_ [_ [_ [Ea _]]]]]].
    cbv zeta in Ea. rewrite Es in Ea.
    destruct (StructTreeRoot (pdf (ensure_structure_tree s))) as [tr|].
    + cbn [snd pdf set_report set_pdf set_tree AcroForm_Fields].
      unfold put_fields. rewrite Ea. cbn. discriminate.
    + cbn [snd]. rewrite Ea. discriminate.
  - rewrite H. cbn. intros _. exact H.
Qed.

(** X17. After [tag_form_fields] has run on a remediator that had not
    analysed the form, [_check_forms] finds nothing to report: no field
    without label or tooltip and no untagged field. *)
Theorem tag_form_fields_clears_check :
  forall self : t,
    form_fields self = [] ->
    fst (_check_forms (snd (tag_form_fields self))) = [].
Proof.
  intros self H.
  pose proof (tag_form_fields_fresh_accessible self H) as A.
  destruct (tag_form_fields_loop self) as [ls0 [_ [_ [E0 [_ L]]]]].
  cbv zeta in L. destruct L as [_ [_ [_ [_ [_ [_ [_ [_ Ef]]]]]]]].
  set (self' := snd (tag_form_fields self)) in *.
  unfold _check_forms, analyze_form_fields. unfold fields_store in A.
  destruct (AcroForm_Fields (pdf self')) as [fields|] eqn:Efs.
  - cbv zeta. cbn [form_fields set_form_fields pdf].
    set (l := map _ (enumerate0 fields)).
    assert (Hl : Forall (fun i => FormFieldInfo.has_tooltip i = true
                                  /\ field_untagged fields i = false) l).
    { subst l. apply Forall_forall. intros i Hi. apply in_map_iff in Hi.
      destruct Hi as [[a f] [<- Hi]]. unfold enumerate0 in Hi.
      apply enumerate_In_inv in Hi. destruct Hi as [_ Hi]. rewrite Nat.sub_0_r in Hi.
      rewrite Forall_forall in A. destruct (A f (nth_error_In _ _ Hi)) as [A1 [A2 A3]].
      unfold analyze_form_field, field_untagged.
      cbn [FormFieldInfo.has_tooltip FormFieldInfo.field_ref]. rewrite Hi. split.
      - destruct (str_or_empty (f_TU f)); [contradiction|reflexivity].
      - destruct (f_StructParent f); [reflexivity|contradiction]. }
    clearbody l. destruct l as [|i0 r0] eqn:El; [reflexivity|]. rewrite <- El in *.
    cbn [fst]. unfold fields_store. cbn [AcroForm_Fields pdf set_form_fields].
    rewrite Efs.
    rewrite (filter_nil_forall (fun i => negb (FormFieldInfo.has_tooltip i)
                                         && negb (FormFieldInfo.has_label i))),
            (filter_nil_forall (field_untagged fields)).
    + reflexivity.
    + eapply Forall_impl; [|exact Hl]. cbn beta. intros i [_ Hi]. exact Hi.
    + eapply Forall_impl; [|exact Hl]. cbn beta. intros i [Hi _]. now rewrite Hi.
  - cbv zeta. pose proof (tag_form_fields_fresh_no_AcroForm self H Efs) as N.
    fold self' in N. rewrite N. reflexivity.
Qed.

Lemma tag_form_fields_clears_check_witness :
  form_fields form_doc = []
  /\ fst (_check_forms (snd (tag_form_fields form_doc))) = [].
Proof.
  split; [reflexivity|].
  apply (tag_form_fields_clears_check form_doc). reflexivity.
Defined.

Lemma annots_kept_refl store : annots_kept store store.
Proof. split; [reflexivity|]. intros a o H. exists o. auto. Qed.

Lemma annots_kept_trans a b c : annots_kept a b -> annots_kept b c -> annots_kept a c.
Proof.
  intros [L1 H1] [L2 H2]. split; [congruence|].
  intros x o Ho. destruct (H1 x o Ho) as [o1 [Ho1 [S1 [D1 P1]]]].
  destruct (H2 x o1 Ho1) as [o2 [Ho2 [S2 [D2 P2]]]].
  exists o2. repeat split; auto. congruence.
Qed.

Lemma annots_kept_store_set store addr o o' :
  nth_error store addr = Some o ->
  a_Subtype o' = a_Subtype o ->
  (annot_described o -> annot_described o') ->
  (a_StructParent o <> None -> a_StructParent o' <> None) ->
  annots_kept store (store_set store addr o').
Proof.
  intros Ho S D P. split; [apply store_set_length|].
  assert (Hlt : addr < List.length store) by (apply nth_error_Some; congruence).
  intros a x Hx. destruct (Nat.eq_dec a addr) as [->|Hne].
  - rewrite store_set_same by exact Hlt. exists o'.
    assert (x = o) by congruence. subst x. auto.
  - rewrite store_set_other by auto. exists x. auto.
Qed.

Lemma ensure_contents_described annot_info annot :
  a_Subtype (fst (ensure_contents annot_info annot)) = a_Subtype annot
  /\ (annot_described annot -> annot_described (fst (ensure_contents annot_info annot)))
  /\ ((AnnotationInfo.has_alt_text annot_info = true -> annot_described annot) ->
      annot_described (fst (ensure_contents annot_info annot))).
Proof.
  unfold ensure_contents.
  destruct (AnnotationInfo.has_alt_text annot_info); cbn [negb fst].
  - auto.
  - assert (D : annot_described
                  (set_Contents annot
                     (AnnotationInfo.subtype annot_info ++ " annotation on page "
                        ++ PyStr.of_nat (AnnotationInfo.page_number annot_info))%string)).
    { right. cbn. destruct (AnnotationInfo.subtype annot_info); discriminate. }
    auto.
Qed.

Lemma tag_annotation_kept ls annot_info :
  annots_kept (al_annots ls) (al_annots (tag_annotation ls annot_info)).
Proof.
  unfold tag_annotation.
  destruct (AnnotationInfo.should_be_tagged annot_info); cbn [negb];
    [|apply annots_kept_refl].
  destruct (AnnotationInfo.annot_ref annot_info) as [addr|]; [|apply annots_kept_refl].
  destruct (nth_error (al_annots ls) addr) as [annot|] eqn:E; [|apply annots_kept_refl].
  destruct (ensure_contents_described annot_info annot) as [S [D _]].
  destruct (ensure_contents_spec annot_info annot) as [SP _].
  destruct (ensure_contents annot_info annot) as [annot1 info1]. cbn [fst snd] in *.
  destruct (a_StructParent annot1) as [sp|] eqn:Esp.
  - cbn [al_annots]. eapply annots_kept_store_set; eauto;
      intros _; rewrite Esp; discriminate.
  - destruct (link_to_parent_tree _ _) as [idx tr]. cbn [al_annots].
    eapply annots_kept_store_set; eauto; intros _; discriminate.
Qed.

Lemma tag_annotations_loop_kept l ls :
  annots_kept (al_annots ls) (al_annots (fold_left tag_annotation l ls)).
Proof.
  revert ls. induction l as [|i r IH]; intros ls; cbn [fold_left]; [apply annots_kept_refl|].
  eapply annots_kept_trans; [apply tag_annotation_kept|apply IH].
Qed.

Lemma annot_accessible_kept store store' addr subtype :
  annots_kept store store' -> annot_accessible store addr subtype ->
  annot_accessible store' addr subtype.
Proof.
  intros [_ K] [o [Ho [S [D P]]]]. destruct (K addr o Ho) as [o' [Ho' [S' [D' P']]]].
  exists o'. repeat split; auto. congruence.
Qed.

Lemma annot_info_sound_kept store store' annot_info :
  annots_kept store store' -> annot_info_sound store annot_info ->
  annot_info_sound store' annot_info.
Proof.
  intros [_ K] [addr [o [R [Ho [S D]]]]]. destruct (K addr o Ho) as [o' [Ho' [S' [D' _]]]].
  exists addr, o'. repeat split; auto. congruence.
Qed.

Lemma tag_annotation_accessible ls annot_info addr :
  annot_info_sound (al_annots ls) annot_info ->
  AnnotationInfo.should_be_tagged annot_info = true ->
  AnnotationInfo.annot_ref annot_info = Some addr ->
  annot_accessible (al_annots (tag_annotation ls annot_info)) addr
                   (AnnotationInfo.subtype annot_info).
Proof.
  intros [addr' [o [R [Ho [S D]]]]] T R'. assert (addr' = addr) by congruence. subst addr'.
  unfold tag_annotation. rewrite T, R, Ho. cbn [negb].
  assert (Hlt : addr < List.length (al_annots ls)) by (apply nth_error_Some; congruence).
  destruct (ensure_contents_described annot_info o) as [S1 [_ D1]]. specialize (D1 D).
  destruct (ensure_contents annot_info o) as [annot1 info1]. cbn [fst snd] in *.
  destruct (a_StructParent annot1) as [sp|] eqn:Esp.
  - cbn [al_annots]. exists annot1. rewrite store_set_same by exact Hlt.
    split; [reflexivity|]. split; [congruence|]. split; [exact D1|].
    rewrite Esp. discriminate.
  - destruct (link_to_parent_tree _ _) as [idx tr]. cbn [al_annots].
    eexists. rewrite store_set_same by exact Hlt.
    split; [reflexivity|]. split; [cbn; congruence|]. split; [|discriminate].
    destruct D1 as [D1|D1]; [left|right]; exact D1.
Qed.

Lemma tag_annotations_loop_accessible l :
  forall ls,
    Forall (annot_info_sound (al_annots ls)) l ->
    forall annot_info addr,
      In annot_info l ->
      AnnotationInfo.should_be_tagged annot_info = true ->
      AnnotationInfo.annot_ref annot_info = Some addr ->
      annot_accessible (al_annots (fold_left tag_annotation l ls)) addr
                       (AnnotationInfo.subtype annot_info).
Proof.
  induction l as [|i r IH]; intros ls F annot_info addr Hin T R; [destruct Hin|].
  cbn [fold_left]. inversion F as [|? ? Fi Fr]; subst.
  assert (Fr' : Forall (annot_info_sound (al_annots (tag_annotation ls i))) r).
  { eapply Forall_impl; [|exact Fr]. intros x. apply annot_info_sound_kept, tag_annotation_kept. }
  destruct Hin as [->|Hin].
  - eapply annot_accessible_kept; [apply tag_annotations_loop_kept|].
    now apply tag_annotation_accessible.
  - now apply IH.
Qed.

(** The analysis tells the truth about the objects *)
Lemma page_annots_In (p : Pdf.t) (pg : page) (a : nat) (o : annot) :
  In (a, o) (page_annots p pg)
  <-> exists addrs, pg_Annots pg = Some addrs /\ In a addrs /\ nth_error (annots p) a = Some o.
Proof.
  unfold page_annots. destruct (pg_Annots pg) as [addrs|].
  - rewrite in_flat_map. split.
    + intros [x [Hx H]]. destruct (nth_error (annots p) x) as [o'|] eqn:E; [|destruct H].
      destruct H as [H|[]]. injection H as <- <-. exists addrs. auto.
    + intros [addrs' [E [Ha Ho]]]. injection E as <-. exists a. split; [exact Ha|].
      rewrite Ho. now left.
  - split; [intros []|]. intros [addrs [E _]]. discriminate.
Qed.

Lemma analyze_annotations_sound (self : t) :
  Forall (annot_info_sound (annots (pdf self))) (annotations (analyze_annotations self)).
Proof.
  apply Forall_forall. intros i Hi. unfold analyze_annotations in Hi.
  cbn [annotations set_annotations] in Hi.
  apply in_flat_map in Hi. destruct Hi as [pp [_ Hi]].
  apply in_flat_map in Hi. destruct Hi as [[a o] [Hao Hi]].
  apply page_annots_In in Hao. destruct Hao as [addrs [_ [_ Ho]]].
  unfold analyze_annotation in Hi.
  destruct (a_Subtype o =? "Link")%string; [destruct Hi|].
  destruct Hi as [<-|[]]. exists a, o. cbn.
  repeat split; auto. intros H. apply orb_true_iff in H. destruct H as [H|H].
  - right. apply negb_true_iff in H. destruct (str_or_empty (a_Contents o)); [discriminate|discriminate].
  - now left.
Qed.

Lemma analyze_annotations_complete (self : t) (pg : page) addrs (a : nat) (o : annot) :
  In pg (pages (pdf self)) -> pg_Annots pg = Some addrs -> In a addrs ->
  nth_error (annots (pdf self)) a = Some o ->
  a_Subtype o <> "Link" ->
  exists i, In i (annotations (analyze_annotations self))
            /\ AnnotationInfo.annot_ref i = Some a
            /\ AnnotationInfo.subtype i = a_Subtype o.
Proof.
  intros Hpg Ha Hin Ho Hl.
  assert (Hpp : exists n, In (n, pg) (enumerate1 (pages (pdf self)))).
  { apply In_nth_error in Hpg. destruct Hpg as [n Hn]. exists (1 + n).
    unfold enumerate1. now apply enumerate_In. }
  destruct Hpp as [n Hn].
  eexists. split; [|split].
  - unfold analyze_annotations. cbn [annotations set_annotations].
    apply in_flat_map. exists (n, pg). split; [exact Hn|].
    apply in_flat_map. exists (a, o). split.
    + apply page_annots_In. eauto.
    + unfold analyze_annotation. apply String.eqb_neq in Hl. rewrite Hl. now left.
  - reflexivity.
  - reflexivity.
Qed.

Lemma taggable_not_link (subtype : string) :
  PyStr.mem subtype AnnotationInfo.taggable_types = true -> subtype <> "Link".
Proof. intros H ->. discriminate. Qed.

Lemma tag_annotations_accessible (self : t) (pg : page) (addr : nat) (o : annot) :
  annotations self = [] ->
  In pg (pages (pdf self)) ->
  In (addr, o) (page_annots (pdf self) pg) ->
  PyStr.mem (a_Subtype o) AnnotationInfo.taggable_types = true ->
  annot_accessible (annots (pdf (snd (tag_annotations self)))) addr (a_Subtype o).
Proof.
  intros H Hpg Hao T.
  apply page_annots_In in Hao. destruct Hao as [addrs [Ha [Hin Ho]]].
  destruct (analyze_annotations_complete self pg addrs addr o Hpg Ha Hin Ho
              (taggable_not_link _ T)) as [i [Hi [R S]]].
  destruct (tag_annotations_loop self) as [ls0 [_ [_ [E0 [_ [_ L]]]]]].
  cbv zeta in L. destruct L as [_ [_ [E _]]]. rewrite E.
  assert (U : annotations_used self = annotations (analyze_annotations self)).
  { unfold annotations_used, ensure_annotations. now rewrite H. }
  rewrite U, <- S. apply tag_annotations_loop_accessible; auto.
  - rewrite E0. apply analyze_annotations_sound.
  - unfold AnnotationInfo.should_be_tagged. now rewrite S.
Qed.

(** X18. On a remediator that has not analysed the annotations yet,
    [tag_annotations] leaves every annotation of a page whose subtype is
    to be tagged with a description ([/Alt], or contents that are not
    empty), with a [/StructParent] and with its subtype. *)
Theorem tag_annotations_makes_annotations_accessible :
  forall (self : t) (pg : page) (addr : nat) (o : annot),
    annotations self = [] ->
    In pg (pages (pdf self)) ->
    In (addr, o) (page_annots (pdf self) pg) ->
    PyStr.mem (a_Subtype o) AnnotationInfo.taggable_types = true ->
    annot_accessible (annots (pdf (snd (tag_annotations self)))) addr (a_Subtype o).
Proof. exact tag_annotations_accessible. Qed.

Lemma tag_annotations_makes_annotations_accessible_witness :
  annotations annotated_doc = []
  /\ In (Pdf.mk_page None (Some [0; 1])) (pages (pdf annotated_doc))
  /\ In (0, Pdf.mk_annot "Text" None false None None)
        (page_annots (pdf annotated_doc) (Pdf.mk_page None (Some [0; 1])))
  /\ PyStr.mem "Text" AnnotationInfo.taggable_types = true
  /\ annot_accessible (annots (pdf (snd (tag_annotations annotated_doc)))) 0 "Text".
Proof.
  split; [reflexivity|]. split; [left; reflexivity|]. split; [left; reflexivity|].
  split; [reflexivity|].
  apply (tag_annotations_makes_annotations_accessible annotated_doc
           (Pdf.mk_page None (Some [0; 1])) 0 (Pdf.mk_annot "Text" None false None None));
    [reflexivity|left; reflexivity|left; reflexivity|reflexivity].
Defined.

(** X19. After [tag_annotations] has run on a remediator that had not
    analysed the annotations, [_check_annotations] finds nothing to
    report: no annotation without alt text and no untagged one. *)
Theorem tag_annotations_clears_check :
  forall self : t,
    annotations self = [] ->
    fst (_check_annotations (snd (tag_annotations self))) = [].
Proof.
  intros self H.
  set (self' := snd (tag_annotations self)).
  assert (A : Forall (fun i => AnnotationInfo.should_be_tagged i = true ->
                        AnnotationInfo.has_alt_text i = true
                        /\ AnnotationInfo.is_tagged i = true)
                     (annotations (analyze_annotations self'))).
  { apply Forall_forall. intros i Hi T.
    unfold analyze_annotations in Hi. cbn [annotations set_annotations] in Hi.
    apply in_flat_map in Hi. destruct Hi as [[n pg] [Hpp Hi]].
    apply in_flat_map in Hi. destruct Hi as [[a o'] [Hao Hi]]. cbn [fst snd] in *.
    unfold analyze_annotation in Hi.
    destruct (a_Subtype o' =? "Link")%string; [destruct Hi|].
    destruct Hi as [<-|[]]. 
    unfold AnnotationInfo.should_be_tagged in T. cbn [AnnotationInfo.subtype] in T.
    cbn [AnnotationInfo.has_alt_text AnnotationInfo.is_tagged].
    destruct (tag_annotations_frame self) as [Fp _]. fold self' in Fp.
    assert (Hpg : In pg (pages (pdf self))).
    { rewrite <- Fp. unfold enumerate1 in Hpp. apply in_combine_r in Hpp. exact Hpp. }
    apply page_annots_In in Hao. destruct Hao as [addrs [Ha [Hin Ho']]].
    destruct (tag_annotations_loop self) as [ls0 [_ [_ [E0 [_ [_ L]]]]]].
    cbv zeta in L. destruct L as [_ [_ [E _]]]. fold self' in E.
    pose proof (tag_annotations_loop_kept (annotations_used self) ls0) as K.
    rewrite <- E, E0 in K. destruct K as [Kl K].
    assert (Ho : exists o, nth_error (annots (pdf self)) a = Some o).
    { destruct (nth_error (annots (pdf self)) a) as [o|] eqn:Eo; [eauto|].
      apply nth_error_None in Eo. rewrite <- Kl in Eo.
      apply nth_error_None in Eo. congruence. }
    destruct Ho as [o Ho].
    destruct (K a o Ho) as [o2 [Ho2 [S2 _]]].
    assert (o2 = o') by congruence. subst o2.
    assert (Acc : annot_accessible (annots (pdf self')) a (a_Subtype o)).
    { apply (tag_annotations_accessible self pg a o H Hpg).
      - apply page_annots_In. exists addrs. auto.
      - now rewrite <- S2. }
    destruct Acc as [o3 [Ho3 [_ [D P]]]]. assert (o3 = o') by congruence. subst o3.
    split.
    - destruct D as [D|D]; [rewrite D; apply orb_true_r|].
      destruct (str_or_empty (a_Contents o')); [contradiction|reflexivity].
    - destruct (a_StructParent o'); [reflexivity|contradiction]. }
  unfold _check_annotations. fold self'. cbv zeta.
  set (an := annotations (analyze_annotations self')) in *. clearbody an.
  destruct an as [|i0 r0] eqn:El; [reflexivity|].
  rewrite <- El in *. clear El. cbn [fst].
  rewrite (filter_nil_forall (fun i => negb (AnnotationInfo.has_alt_text i))),
          (filter_nil_forall (fun i => negb (AnnotationInfo.is_tagged i))).
  - reflexivity.
  - apply Forall_forall. intros i Hi. apply filter_In in Hi. destruct Hi as [Hi T].
    rewrite Forall_forall in A. destruct (A i Hi T) as [_ ->]. reflexivity.
  - apply Forall_forall. intros i Hi. apply filter_In in Hi. destruct Hi as [Hi T].
    rewrite Forall_forall in A. destruct (A i Hi T) as [-> _]. reflexivity.
Qed.

Lemma tag_annotations_clears_check_witness :
  annotations annotated_doc = []
  /\ fst (_check_annotations (snd (tag_annotations annotated_doc))) = [].
Proof.
  split; [reflexivity|].
  apply (tag_annotations_clears_check annotated_doc). reflexivity.
Defined.

Lemma mark_xobject_skip images tagged page_num ls entry :
  PyStr.mem ("Image on page " ++ PyStr.of_nat page_num) tagged = true ->
  mark_xobject images tagged page_num ls entry = ls.
Proof. intros H. unfold mark_xobject. destruct entry as [n o]. now rewrite H. Qed.

Lemma mark_xobjects_skip images tagged page_num xs ls :
  PyStr.mem ("Image on page " ++ PyStr.of_nat page_num) tagged = true ->
  fold_left (mark_xobject images tagged page_num) xs ls = ls.
Proof.
  intros H. revert ls. induction xs as [|e r IH]; intros ls; cbn [fold_left]; [reflexivity|].
  now rewrite mark_xobject_skip, IH.
Qed.

Lemma mark_pages_skip images tagged pps ls :
  forallb (fun pp => match pg_XObject (snd pp) with
                     | None => true
                     | Some _ => PyStr.mem ("Image on page " ++ PyStr.of_nat (fst pp)) tagged
                     end) pps = true ->
  fold_left (mark_page images tagged) pps ls = ls.
Proof.
  revert ls. induction pps as [|pp r IH]; intros ls H; cbn [fold_left]; [reflexivity|].
  cbn [forallb] in H. apply andb_true_iff in H. destruct H as [H1 H2].
  rewrite IH by exact H2. unfold mark_page.
  destruct (pg_XObject (snd pp)); [|reflexivity]. now apply mark_xobjects_skip.
Qed.

(** X20. The marking of artifacts tells the tagged images by the title
    "Image on page N" alone: when every page that shows something has a
    Figure node with the title of its page, nothing is marked, not even a
    form object of such a page, and [/K] stays as it is. *)
Theorem mark_skips_pages_with_a_tagged_image :
  forall self : t,
    pages_have_tagged_image self = true ->
    fst (mark_unmarked_content_as_artifacts self) = 0
    /\ tree_K (snd (mark_unmarked_content_as_artifacts self)) = tree_K self.
Proof.
  intros self H. unfold pages_have_tagged_image in H.
  unfold mark_unmarked_content_as_artifacts, ensure_structure_tree, tree_K.
  destruct (StructTreeRoot (pdf self)) as [tr|] eqn:Et; [|discriminate].
  rewrite Et. cbv zeta.
  rewrite mark_pages_skip.
  - cbn [fst snd pdf set_report set_pdf set_tree StructTreeRoot]. split; [reflexivity|].
    unfold K_list at 1. cbn [K set_K]. apply K_list_ensure_K.
  - unfold tagged_images_of in H. rewrite K_list_ensure_K. exact H.
Qed.

Lemma mark_skips_pages_with_a_tagged_image_witness :
  pages_have_tagged_image figure_and_form_doc = true
  /\ fst (mark_unmarked_content_as_artifacts figure_and_form_doc) = 0
  /\ tree_K (snd (mark_unmarked_content_as_artifacts figure_and_form_doc))
     = tree_K figure_and_form_doc.
Proof.
  split; [reflexivity|].
  apply (mark_skips_pages_with_a_tagged_image figure_and_form_doc). reflexivity.
Defined.

(** *** The values of the ParentTree *)

Lemma nums_in_K_app k k' n : nums_in_K k n -> nums_in_K (k ++ k') n.
Proof. intros H key e Hi. apply in_or_app. left. eapply H; eauto. Qed.

Lemma nums_in_K_extends P k k' n : extends P k k' -> nums_in_K k n -> nums_in_K k' n.
Proof. intros [new [-> _]]. apply nums_in_K_app. Qed.

Lemma nums_in_K_snoc k n key e : nums_in_K k n -> nums_in_K (k ++ [e]) (n ++ [(key, e)]).
Proof.
  intros H key' e' Hi. apply in_app_or in Hi. destruct Hi as [Hi|[Hi|[]]].
  - apply in_or_app. left. eapply H; eauto.
  - injection Hi as <- <-. apply in_or_app. right. now left.
Qed.

Lemma tag_image_nums_in_K images page_num ls entry :
  nums_in_K (il_K ls) (il_Nums ls) ->
  nums_in_K (il_K (tag_image images page_num ls entry))
            (il_Nums (tag_image images page_num ls entry)).
Proof.
  intros H. unfold tag_image. destruct entry as [n o].
  destruct (negb _); [exact H|].
  destruct (find_image images page_num n) as [img|]; [|exact H].
  destruct (ImageInfo.is_decorative img); cbn [il_K il_Nums]; now apply nums_in_K_snoc.
Qed.

Lemma tag_images_loop_nums_in_K images pps ls :
  nums_in_K (il_K ls) (il_Nums ls) ->
  nums_in_K (il_K (fold_left (tag_images_page images) pps ls))
            (il_Nums (fold_left (tag_images_page images) pps ls)).
Proof.
  revert ls. induction pps as [|pp r IH]; intros ls H; cbn [fold_left]; [exact H|].
  apply IH. unfold tag_images_page. destruct (pg_XObject (snd pp)) as [xs|]; [|exact H].
  clear IH. revert ls H. induction xs as [|e xs IH]; intros ls H; cbn [fold_left]; [exact H|].
  apply IH. now apply tag_image_nums_in_K.
Qed.

Lemma link_nums_in_K tr e :
  nums_in_K (K_list tr) (Nums_list tr) ->
  nums_in_K (K_list (append_K (snd (link_to_parent_tree tr e)) e))
            (Nums_list (append_K (snd (link_to_parent_tree tr e)) e)).
Proof.
  intros H. rewrite K_list_append_K, Nums_list_append_K, K_list_link.
  unfold link_to_parent_tree. destruct (ParentTree tr) as [pt|] eqn:Ep; cbn [snd].
  - unfold Nums_list at 1. cbn [ParentTree set_Nums Nums]. now apply nums_in_K_snoc.
  - now apply nums_in_K_app.
Qed.

Lemma tag_form_field_nums_in_K ls field_info :
  nums_in_K (K_list (fl_tree ls)) (Nums_list (fl_tree ls)) ->
  nums_in_K (K_list (fl_tree (tag_form_field ls field_info)))
            (Nums_list (fl_tree (tag_form_field ls field_info))).
Proof.
  intros H. unfold tag_form_field.
  destruct (FormFieldInfo.field_ref field_info) as [addr|]; [|exact H].
  destruct (nth_error (fl_fields ls) addr) as [f|]; [|exact H].
  set (f1 := ensure_tooltip_and_name _ _ f). clearbody f1.
  set (e := mk_elem "Form" _ _ _ _ _ _). clearbody e.
  destruct (f_StructParent f1).
  - cbn [fl_tree]. rewrite K_list_append_K, Nums_list_append_K. now apply nums_in_K_app.
  - pose proof (link_nums_in_K (fl_tree ls) e H) as L.
    destruct (link_to_parent_tree (fl_tree ls) e) as [idx tr]. cbn [fl_tree snd] in *. exact L.
Qed.

Lemma tag_annotation_nums_in_K ls annot_info :
  nums_in_K (K_list (al_tree ls)) (Nums_list (al_tree ls)) ->
  nums_in_K (K_list (al_tree (tag_annotation ls annot_info)))
            (Nums_list (al_tree (tag_annotation ls annot_info))).
Proof.
  intros H. unfold tag_annotation, skip_annotation.
  destruct (negb _); [exact H|].
  destruct (AnnotationInfo.annot_ref annot_info) as [addr|]; [|exact H].
  destruct (nth_error (al_annots ls) addr) as [o|]; [|exact H].
  destruct (ensure_contents annot_info o) as [o1 i1].
  set (e := mk_elem _ _ _ _ _ _ _). clearbody e.
  destruct (a_StructParent o1).
  - cbn [al_tree]. rewrite K_list_append_K, Nums_list_append_K. now apply nums_in_K_app.
  - pose proof (link_nums_in_K (al_tree ls) e H) as L.
    destruct (link_to_parent_tree (al_tree ls) e) as [idx tr]. cbn [al_tree snd] in *. exact L.
Qed.

Lemma fold_left_inv {S A} (f : S -> A -> S) (P : S -> Prop) :
  (forall s a, P s -> P (f s a)) -> forall l s, P s -> P (fold_left f l s).
Proof. intros H l. induction l; intros s Hs; cbn; auto. Qed.

Lemma step_nums_in_K (o : op) (self : t) :
  nums_in_K (tree_K self) (tree_Nums self) ->
  nums_in_K (tree_K (snd (step o self))) (tree_Nums (snd (step o self))).
Proof.
  intros H. destruct o; cbn [step].
  - destruct (tag_images_loop self) as [ls0 [E1 [E2 [_ L]]]]. cbv zeta in L.
    destruct L as [-> [-> _]]. apply tag_images_loop_nums_in_K. now rewrite E1, E2.
  - destruct (tag_headings_spec heading_map self) as [X ->].
    eapply nums_in_K_extends; eauto.
  - destruct (tag_tables_spec self) as [X ->]. eapply nums_in_K_extends; eauto.
  - destruct (tag_form_fields_loop self) as [ls0 [E1 [E2 [_ [_ L]]]]]. cbv zeta in L.
    destruct L as [-> [-> _]].
    apply (fold_left_inv tag_form_field
             (fun ls => nums_in_K (K_list (fl_tree ls)) (Nums_list (fl_tree ls)))).
    + intros s a. apply tag_form_field_nums_in_K.
    + now rewrite E1, E2.
  - destruct (tag_annotations_loop self) as [ls0 [E1 [E2 [_ [_ [_ L]]]]]]. cbv zeta in L.
    destruct L as [-> [-> _]].
    apply (fold_left_inv tag_annotation
             (fun ls => nums_in_K (K_list (al_tree ls)) (Nums_list (al_tree ls)))).
    + intros s a. apply tag_annotation_nums_in_K.
    + now rewrite E1, E2.
  - destruct (mark_unmarked_spec self) as [X [_ [-> _]]]. eapply nums_in_K_extends; eauto.
Qed.

(** X21. Whatever tagging and marking steps a run makes, when every
    value of the ParentTree is a node of [/K] before, it is so after:
    each entry that the run writes refers to a node that the run has put
    into [/K]. *)
Theorem parent_tree_values_are_nodes :
  forall (ops : list op) (self : t),
    nums_in_K (tree_K self) (tree_Nums self) ->
    nums_in_K (tree_K (run ops self)) (tree_Nums (run ops self)).
Proof.
  intros ops. unfold run. induction ops as [|o r IH]; intros self H; cbn [fold_left]; [exact H|].
  apply IH. now apply step_nums_in_K.
Qed.

Lemma parent_tree_values_are_nodes_witness :
  nums_in_K (tree_K tagged_elsewhere_doc) (tree_Nums tagged_elsewhere_doc)
  /\ nums_in_K
       (tree_K (run [TagImages; TagFormFields; TagAnnotations; MarkArtifacts]
                    tagged_elsewhere_doc))
       (tree_Nums (run [TagImages; TagFormFields; TagAnnotations; MarkArtifacts]
                       tagged_elsewhere_doc)).
Proof.
  assert (H : nums_in_K (tree_K tagged_elsewhere_doc) (tree_Nums tagged_elsewhere_doc)).
  { intros key e [E|[]]. injection E as <- <-. left. reflexivity. }
  split; [exact H|].
  apply (parent_tree_values_are_nodes
           [TagImages; TagFormFields; TagAnnotations; MarkArtifacts] tagged_elsewhere_doc).
  exact H.
Defined.

End BuilderMore.

(** ** The checks and repairs of the HTML document *)

Section CheckerRecords.
Import AccessibilityChecker HtmlChecker.

Lemma records_add_issue (self : t) (g ti d s ty : string) :
  records (add_issue self g ti d s ty) = records self + 1.
Proof.
  unfold add_issue, records. destruct (s =? "error")%string; cbn; rewrite length_app; cbn; lia.
Qed.

Lemma records_add_passed_check (self : t) (g ti : string) :
  records (add_passed_check self g ti) = records self + 1.
Proof. unfold add_passed_check, records. cbn. rewrite length_app. cbn. lia. Qed.

Ltac one_record :=
  repeat match goal with
         | |- context [match ?x with _ => _ end] => destruct x
         end;
  rewrite ?records_add_issue, ?records_add_passed_check; lia.

Lemma records_check_document_title self soup :
  records (check_document_title self soup) = records self + 1.
Proof. unfold check_document_title. cbv zeta. one_record. Qed.

Lemma records_check_language self soup :
  records (check_language self soup) = records self + 1.
Proof. unfold check_language. cbv zeta. one_record. Qed.

Lemma records_check_heading_hierarchy self soup :
  records self + 1 <= records (check_heading_hierarchy self soup) <= records self + 3.
Proof.
  unfold check_heading_hierarchy.
  destruct (Soup.find_all_headings soup) as [|first rest].
  { rewrite records_add_issue. lia. }
  set (c1 := if negb _ then _ else self).
  assert (H1 : records self <= records c1 <= records self + 1).
  { subst c1. destruct (negb _); rewrite ?records_add_issue; lia. }
  clearbody c1.
  set (c2 := match skipped_levels_from 0 (first :: rest) with [] => _ | _ :: _ => _ end).
  assert (H2 : records c2 = records c1 + 1).
  { subst c2. destruct (skipped_levels_from 0 (first :: rest));
      rewrite ?records_add_issue, ?records_add_passed_check; lia. }
  clearbody c2.
  destruct (filter _ _); rewrite ?records_add_issue, ?records_add_passed_check; lia.
Qed.

Lemma records_check_images self soup :
  records (check_images self soup) = records self + 1.
Proof. unfold check_images. cbv zeta. one_record. Qed.

Lemma records_check_links self soup :
  records (check_links self soup) = records self + 1.
Proof. unfold check_links. cbv zeta. one_record. Qed.

Lemma records_check_tables self soup :
  records (check_tables self soup) = records self + 1.
Proof. unfold check_tables. cbv zeta. one_record. Qed.

Lemma records_check_forms self soup :
  records (check_forms self soup) = records self + 1.
Proof. unfold check_forms. cbv zeta. one_record. Qed.

Lemma records_check_skip_navigation self soup :
  records (check_skip_navigation self soup) = records self + 1.
Proof. unfold check_skip_navigation. one_record. Qed.

Lemma records_check_aria_landmarks self soup :
  records (check_aria_landmarks self soup) = records self + 1.
Proof. unfold check_aria_landmarks. one_record. Qed.

Lemma records_check_color_contrast self soup :
  records self <= records (check_color_contrast self soup) <= records self + 1.
Proof.
  unfold check_color_contrast.
  repeat match goal with
         | |- context [match ?x with _ => _ end] => destruct x
         end;
  rewrite ?records_add_issue, ?records_add_passed_check; lia.
Qed.

Lemma records_check_semantic_structure self soup :
  records (check_semantic_structure self soup) = records self + 1.
Proof. unfold check_semantic_structure. cbv zeta. one_record. Qed.

(** X22. Whatever the document and the OCR warning, [check_accessibility]
    leaves between 10 and 14 records, so that its compliance score is
    exactly the floor of 100 p / t, p being the number of passed checks
    and t the number of records. *)
Theorem check_accessibility_records_and_score :
  forall (soup : Html.t) (ocr_warning : option string),
    let self := run_checks soup ocr_warning in
    10 <= records self <= 14
    /\ total_checks (check_accessibility soup ocr_warning) = records self
    /\ compliance_score (check_accessibility soup ocr_warning)
       = Some (100 * Z.of_nat (List.length (passed_checks self)) / Z.of_nat (records self))%Z.
Proof.
  intros soup ocr_warning self.
  assert (R : 10 <= records self <= 14).
  { subst self. unfold run_checks.
    set (c0 := match ocr_warning with Some _ => _ | None => _ end).
    assert (H0 : records c0 <= 1).
    { subst c0. destruct ocr_warning as [m|]; [|cbn; lia].
      destruct (PyStr.is_empty m); [cbn; lia|].
      unfold add_ocr_warning. rewrite records_add_issue. cbn. lia. }
    clearbody c0. cbv zeta.
    rewrite records_check_semantic_structure.
    match goal with |- context [check_color_contrast ?c soup] =>
      pose proof (records_check_color_contrast c soup) as Hc;
      set (cc := check_color_contrast c soup) in *; clearbody cc end.
    rewrite records_check_aria_landmarks, records_check_skip_navigation,
      records_check_forms, records_check_tables, records_check_links,
      records_check_images in Hc.
    match goal with H : context [check_heading_hierarchy ?c ?s] |- _ =>
      pose proof (records_check_heading_hierarchy c s) as Hh;
      set (ch := check_heading_hierarchy c s) in *; clearbody ch end.
    rewrite records_check_language, records_check_document_title in Hh.
    lia. }
  split; [exact R|].
  unfold check_accessibility, generate_report. fold self.
  cbn [total_checks compliance_score]. split; [unfold records; lia|].
  replace (List.length (issues self) + List.length (warnings self)
           + List.length (passed_checks self)) with (records self) by (unfold records; lia).
  apply score_is_floor; [lia|unfold records; lia].
Qed.

End CheckerRecords.

Section HtmlFacts.
Import Html.

Lemma node_ind' (P : node -> Prop) :
  (forall s, P (Text s)) -> (forall s, P (Comment s)) ->
  (forall name attrs children, Forall P children -> P (Elem name attrs children)) ->
  forall n, P n.
Proof.
  intros HT HC HE. fix IH 1. intros [s|s|name attrs children].
  - apply HT.
  - apply HC.
  - apply HE. induction children as [|c r IHr]; constructor; [apply IH|exact IHr].
Qed.

Lemma get_attr_set_attr_same attrs key v : get_attr (set_attr attrs key v) key = Some v.
Proof.
  induction attrs as [|[k x] r IH]; cbn; [now rewrite String.eqb_refl|].
  destruct (k =? key)%string eqn:E; cbn; rewrite E; auto.
Qed.

Lemma get_attr_set_attr_other attrs key v key' :
  key <> key' -> get_attr (set_attr attrs key v) key' = get_attr attrs key'.
Proof.
  intros H. induction attrs as [|[k x] r IH]; cbn.
  - apply String.eqb_neq in H. now rewrite H.
  - destruct (k =? key)%string eqn:E; cbn.
    + apply String.eqb_eq in E. subst k. apply String.eqb_neq in H. now rewrite H.
    + now rewrite IH.
Qed.

Lemma lacks_set_attr attrs key v : v <> "" -> lacks (set_attr attrs key v) key = false.
Proof.
  intros H. unfold lacks, get_or_empty. rewrite get_attr_set_attr_same.
  destruct v; [contradiction|reflexivity].
Qed.

Lemma lacks_set_attr_other attrs key v key' :
  key <> key' -> lacks (set_attr attrs key v) key' = lacks attrs key'.
Proof. intros H. unfold lacks, get_or_empty. now rewrite get_attr_set_attr_other. Qed.

Lemma lacks_false_get attrs key : lacks attrs key = false -> get_attr attrs key <> None.
Proof. unfold lacks, get_or_empty. destruct (get_attr attrs key); [discriminate|]. discriminate. Qed.

Lemma nodes_head (n : node) : exists r, nodes n = n :: r.
Proof. destruct n; cbn; eauto. Qed.

Lemma nodes_self (n : node) : In n (nodes n).
Proof. destruct (nodes_head n) as [r ->]. now left. Qed.

Lemma nodes_list_In (l : list node) (x : node) :
  In x (nodes_list l) <-> exists c, In c l /\ In x (nodes c).
Proof. unfold nodes_list. apply in_flat_map. Qed.

Lemma nodes_Elem name attrs children :
  nodes (Elem name attrs children) = Elem name attrs children :: nodes_list children.
Proof. reflexivity. Qed.

Lemma nodes_list_cons c r : nodes_list (c :: r) = nodes c ++ nodes_list r.
Proof. reflexivity. Qed.

(** Below is transitive *)
Lemma nodes_trans (n : node) : forall x y, In x (nodes n) -> In y (nodes x) -> In y (nodes n).
Proof.
  induction n as [s|s|name attrs children IH] using node_ind'; intros x y Hx Hy.
  - destruct Hx as [<-|[]]. exact Hy.
  - destruct Hx as [<-|[]]. exact Hy.
  - rewrite nodes_Elem in Hx. destruct Hx as [<-|Hx]; [exact Hy|].
    rewrite nodes_Elem. right. apply nodes_list_In in Hx. destruct Hx as [c [Hc Hx]].
    apply nodes_list_In. exists c. split; [exact Hc|].
    rewrite Forall_forall in IH. eapply IH; eauto.
Qed.

(** *** Maps that keep the names *)

Lemma find_all_In names soup x :
  In x (find_all names soup) <-> In x (nodes_list soup) /\ is_named names x = true.
Proof. unfold find_all. apply filter_In. Qed.

Lemma find_Some name soup n :
  find name soup = Some n -> In n (nodes_list soup) /\ is_named [name] n = true.
Proof.
  unfold find. intros H. apply find_all_In.
  destruct (find_all [name] soup); [discriminate|]. injection H as ->. now left.
Qed.

End HtmlFacts.

Section AltText.
Import Html HtmlRepair AccessibilityChecker HtmlChecker.

Lemma add_alt_text_node_nodes (n : node) :
  nodes (add_alt_text_node n) = map add_alt_text_node (nodes n).
Proof.
  induction n as [s|s|name attrs children IH] using node_ind'; [reflexivity|reflexivity|].
  cbn [add_alt_text_node nodes map]. f_equal.
  induction IH as [|c r Hc Hr IHr]; cbn [map flat_map]; [reflexivity|].
  rewrite map_app, Hc, IHr. reflexivity.
Qed.

Lemma add_alt_text_nodes_list (soup : Html.t) :
  nodes_list (add_alt_text_to_images soup) = map add_alt_text_node (nodes_list soup).
Proof.
  unfold add_alt_text_to_images, nodes_list.
  induction soup as [|c r IH]; cbn [map flat_map]; [reflexivity|].
  rewrite map_app, add_alt_text_node_nodes, IH. reflexivity.
Qed.

Lemma add_alt_text_node_named names (n : node) :
  is_named names (add_alt_text_node n) = is_named names n.
Proof. destruct n; reflexivity. Qed.

Lemma filter_map_commute {A} (p : A -> bool) (f : A -> A) (l : list A) :
  (forall x, p (f x) = p x) -> filter p (map f l) = map f (filter p l).
Proof.
  intros H. induction l as [|x r IH]; cbn; [reflexivity|].
  rewrite H. destruct (p x); cbn; now rewrite IH.
Qed.

Lemma add_alt_text_find_all names (soup : Html.t) :
  find_all names (add_alt_text_to_images soup) = map add_alt_text_node (find_all names soup).
Proof.
  unfold find_all. rewrite add_alt_text_nodes_list.
  apply filter_map_commute. apply add_alt_text_node_named.
Qed.

Lemma add_alt_text_node_has_alt (n : node) :
  is_named ["img"] n = true -> has_alt (add_alt_text_node n) = true.
Proof.
  destruct n as [s|s|name attrs children]; try discriminate.
  cbn [is_named PyStr.mem existsb]. rewrite orb_false_r. intros E.
  apply String.eqb_eq in E. subst name. unfold has_alt. cbn [add_alt_text_node attrs_of].
  change ("img" =? "img")%string with true. cbn [andb].
  destruct (lacks attrs "alt") eqn:L.
  - now rewrite get_attr_set_attr_same.
  - apply lacks_false_get in L. destruct (get_attr attrs "alt"); [reflexivity|contradiction].
Qed.

(** X23. After [add_alt_text_to_images] the image check passes for every
    document; the repair keeps the number of images and gives every image
    whose [alt] is missing or empty the text "Document image". *)
Theorem add_alt_text_then_check_images :
  forall (self : AccessibilityChecker.t) (soup : Html.t),
    (exists title,
        check_images self (add_alt_text_to_images soup) = add_passed_check self "1.1.1" title)
    /\ List.length (find_all ["img"] (add_alt_text_to_images soup))
       = List.length (find_all ["img"] soup)
    /\ forall attrs children,
         lacks attrs "alt" = true ->
         get_attr (attrs_of (add_alt_text_node (Elem "img" attrs children))) "alt"
         = Some "Document image".
Proof.
  intros self soup. split; [|split].
  - unfold check_images. rewrite add_alt_text_find_all.
    set (imgs := map add_alt_text_node (find_all ["img"] soup)).
    assert (F : filter (fun img => negb (has_alt img)) imgs = []).
    { apply filter_nil_forall. apply Forall_forall. intros x Hx.
      apply in_map_iff in Hx. destruct Hx as [y [<- Hy]].
      apply find_all_In in Hy. destruct Hy as [_ Hy].
      now rewrite add_alt_text_node_has_alt. }
    clearbody imgs. destruct imgs as [|i r]; [eauto|].
    cbv zeta. rewrite F. cbn [map]. eauto.
  - rewrite add_alt_text_find_all. apply length_map.
  - intros attrs children L. cbn [add_alt_text_node attrs_of].
    change ("img" =? "img")%string with true. rewrite L. cbn [andb].
    apply get_attr_set_attr_same.
Qed.

End AltText.

Section Links.
Import Html HtmlRepair HtmlChecker.

Lemma remediate_link_node_named names (n : node) :
  is_named names (remediate_link_node n) = is_named names n.
Proof.
  destruct n as [s|s|name attrs children]; try reflexivity.
  cbn [remediate_link_node]. destruct (name =? "a")%string; [|reflexivity].
  cbv zeta. destruct (PyStr.is_empty _); reflexivity.
Qed.

(** Every node of the repaired tree is a text or the repair of a node of
    the tree *)
Lemma remediate_link_node_nodes (n : node) :
  forall x, In x (nodes (remediate_link_node n)) ->
            (exists s, x = Text s)
            \/ exists y, In y (nodes n) /\ x = remediate_link_node y.
Proof.
  induction n as [s|s|name attrs children IH] using node_ind'; intros x Hx.
  - destruct Hx as [<-|[]]. left. eauto.
  - destruct Hx as [<-|[]]. right. exists (Comment s). split; [now left|reflexivity].
  - assert (M : In x (nodes_list (map remediate_link_node children)) ->
                (exists s, x = Text s)
                \/ exists y, In y (nodes (Elem name attrs children))
                             /\ x = remediate_link_node y).
    { intros H. apply nodes_list_In in H. destruct H as [c' [Hc' Hx']].
      apply in_map_iff in Hc'. destruct Hc' as [c [<- Hc]].
      rewrite Forall_forall in IH. destruct (IH c Hc x Hx') as [T|[y [Hy E]]]; [now left|].
      right. exists y. split; [|exact E]. rewrite nodes_Elem. right.
      apply nodes_list_In. eauto. }
    assert (S : x = remediate_link_node (Elem name attrs children) ->
                (exists s, x = Text s)
                \/ exists y, In y (nodes (Elem name attrs children))
                             /\ x = remediate_link_node y).
    { intros ->. right. exists (Elem name attrs children). split; [apply nodes_self|reflexivity]. }
    cbn [remediate_link_node] in Hx, S. destruct (name =? "a")%string.
    + cbv zeta in Hx, S. destruct (PyStr.is_empty (get_text_strip (Elem name attrs children))).
      * rewrite nodes_Elem in Hx. destruct Hx as [<-|Hx]; [now apply S|].
        cbn in Hx. destruct Hx as [<-|[]]. left. eauto.
      * rewrite nodes_Elem in Hx. destruct Hx as [<-|Hx]; [now apply S|now apply M].
    + rewrite nodes_Elem in Hx. destruct Hx as [<-|Hx]; [now apply S|now apply M].
Qed.

Lemma remediate_links_link (soup : Html.t) (l' : node) :
  In l' (find_all ["a"] (remediate_links soup)) ->
  exists l, In l (find_all ["a"] soup) /\ l' = remediate_link_node l.
Proof.
  intros H. apply find_all_In in H. destruct H as [H N].
  apply nodes_list_In in H. destruct H as [c' [Hc' Hx]].
  unfold remediate_links in Hc'. apply in_map_iff in Hc'. destruct Hc' as [c [<- Hc]].
  destruct (remediate_link_node_nodes c l' Hx) as [[s ->]|[y [Hy ->]]]; [discriminate|].
  exists y. split; [|reflexivity]. apply find_all_In. split.
  - apply nodes_list_In. eauto.
  - now rewrite remediate_link_node_named in N.
Qed.

Lemma external_link_attrs_spec attrs link_text :
  get_attr (external_link_attrs attrs link_text) "href" = get_attr attrs "href"
  /\ lacks (external_link_attrs attrs link_text) "title" = false
  /\ lacks (external_link_attrs attrs link_text) "target" = false
  /\ ((exists tok toks, get_tokens attrs "rel" = Some (tok :: toks)
                        /\ get_tokens (external_link_attrs attrs link_text) "rel"
                           = Some (tok :: toks))
      \/ get_tokens (external_link_attrs attrs link_text) "rel"
         = Some ["noopener"; "noreferrer"]).
Proof.
  unfold external_link_attrs.
  set (a1 := if lacks attrs "title" then _ else attrs).
  assert (H1 : get_attr a1 "href" = get_attr attrs "href" /\ lacks a1 "title" = false
               /\ get_attr a1 "rel" = get_attr attrs "rel"
               /\ lacks a1 "target" = lacks attrs "target").
  { subst a1. destruct (lacks attrs "title") eqn:L; [|auto].
    rewrite !get_attr_set_attr_other, lacks_set_attr, lacks_set_attr_other by discriminate.
    auto. }
  clearbody a1. destruct H1 as [Hh [Ht [Hr Hg]]].
  set (a2 := if lacks a1 "target" then _ else a1).
  assert (H2 : get_attr a2 "href" = get_attr attrs "href" /\ lacks a2 "title" = false
               /\ get_attr a2 "rel" = get_attr attrs "rel"
               /\ lacks a2 "target" = false).
  { subst a2. destruct (lacks a1 "target") eqn:L; [|auto].
    rewrite !get_attr_set_attr_other, lacks_set_attr, lacks_set_attr_other by discriminate.
    auto. }
  clearbody a2. clear a1 Hh Ht Hr Hg. destruct H2 as [Hh [Ht [Hr Hg]]].
  assert (G : get_tokens a2 "rel" = get_tokens attrs "rel")
    by (unfold get_tokens; now rewrite Hr).
  rewrite G.
  assert (N : forall a, a = set_attr a2 "rel" "noopener noreferrer" ->
              get_attr a "href" = get_attr attrs "href"
              /\ lacks a "title" = false /\ lacks a "target" = false
              /\ get_tokens a "rel" = Some ["noopener"; "noreferrer"]).
  { intros a ->.
    rewrite get_attr_set_attr_other, !lacks_set_attr_other by discriminate.
    repeat split; auto. unfold get_tokens. now rewrite get_attr_set_attr_same. }
  destruct (get_tokens attrs "rel") as [[|tok toks]|] eqn:E.
  - destruct (N _ eq_refl) as [N1 [N2 [N3 N4]]]. auto.
  - repeat split; auto. left. exists tok, toks. split; [reflexivity|].
    now rewrite G.
  - destruct (N _ eq_refl) as [N1 [N2 [N3 N4]]]. auto.
Qed.

(** X24. Every link of the document after [remediate_links] is the repair
    of a link of the document before; it has the [href] of that link, and
    when the [href] starts with "http" it has a title and a target, and the
    link check can still fault its [rel] only when that link came with a
    [rel] of its own that does not hold "noopener". *)
Theorem remediate_links_secures_external_links :
  forall (soup : Html.t) (l' : node),
    In l' (find_all ["a"] (remediate_links soup)) ->
    exists l,
      In l (find_all ["a"] soup)
      /\ l' = remediate_link_node l
      /\ get_attr (attrs_of l') "href" = get_attr (attrs_of l) "href"
      /\ (PyStr.startswith (get_or_empty (attrs_of l') "href") "http" = true ->
          lacks (attrs_of l') "title" = false
          /\ lacks (attrs_of l') "target" = false
          /\ (lacks_noopener l' = true ->
              exists rel, get_tokens (attrs_of l) "rel" = Some rel
                          /\ rel <> [] /\ PyStr.mem "noopener" rel = false)).
Proof.
  intros soup l' H.
  destruct (remediate_links_link soup l' H) as [l [Hl ->]].
  exists l. split; [exact Hl|]. split; [reflexivity|].
  pose proof Hl as Hl'. apply find_all_In in Hl'. destruct Hl' as [_ N].
  destruct l as [s|s|name attrs children]; try discriminate.
  cbn [is_named PyStr.mem existsb] in N. rewrite orb_false_r in N.
  assert (A : exists cs link_text,
             remediate_link_node (Elem name attrs children)
             = Elem name (if PyStr.startswith (get_or_empty attrs "href") "http"
                          then external_link_attrs attrs link_text else attrs) cs).
  { cbn [remediate_link_node]. rewrite N. cbv zeta.
    destruct (PyStr.is_empty _); eauto. }
  destruct A as [cs [link_text A]]. rewrite A. cbn [attrs_of].
  destruct (external_link_attrs_spec attrs link_text) as [Hh [Ht [Hg Hr]]].
  destruct (PyStr.startswith (get_or_empty attrs "href") "http") eqn:X.
  - split; [exact Hh|]. intros _. split; [exact Ht|]. split; [exact Hg|].
    intros L. unfold lacks_noopener in L. cbn [attrs_of] in L.
    destruct Hr as [[tok [toks [R R']]]|R].
    + rewrite R' in L. apply negb_true_iff in L.
      exists (tok :: toks). repeat split; auto. discriminate.
    + rewrite R in L. discriminate.
  - split; [reflexivity|]. intros E. congruence.
Qed.

Lemma remediate_links_secures_external_links_witness :
  In page_doc_link (find_all ["a"] (remediate_links page_doc))
  /\ exists l,
       In l (find_all ["a"] page_doc)
       /\ page_doc_link = remediate_link_node l
       /\ get_attr (attrs_of page_doc_link) "href" = get_attr (attrs_of l) "href"
       /\ (PyStr.startswith (get_or_empty (attrs_of page_doc_link) "href") "http" = true ->
           lacks (attrs_of page_doc_link) "title" = false
           /\ lacks (attrs_of page_doc_link) "target" = false
           /\ (lacks_noopener page_doc_link = true ->
               exists rel, get_tokens (attrs_of l) "rel" = Some rel
                           /\ rel <> [] /\ PyStr.mem "noopener" rel = false)).
Proof.
  split; [left; reflexivity|].
  apply (remediate_links_secures_external_links page_doc page_doc_link).
  left. reflexivity.
Defined.

End Links.

Section LinkQuirk.
Import Html HtmlRepair HtmlChecker.

(** X25. A link without text and without [href] is given the text "Link"
    by [remediate_links], and this is a text that the link check reports
    as generic. *)
Theorem remediate_links_empty_link_becomes_generic :
  forall (attrs : list (string * string)) (children : list node),
    get_text_strip (Elem "a" attrs children) = "" ->
    get_or_empty attrs "href" = "" ->
    remediate_link_node (Elem "a" attrs children) = Elem "a" attrs [Text "Link"]
    /\ link_issues (remediate_link_node (Elem "a" attrs children))
       = [("Generic link text: " ++ PyMore.dquote ++ "Link" ++ PyMore.dquote)%string].
Proof.
  intros attrs children Ht Hh.
  assert (E : remediate_link_node (Elem "a" attrs children) = Elem "a" attrs [Text "Link"]).
  { cbn [remediate_link_node]. change ("a" =? "a")%string with true. cbv zeta.
    rewrite Ht, Hh. reflexivity. }
  split; [exact E|]. rewrite E. unfold link_issues. cbn [attrs_of]. rewrite Hh. reflexivity.
Qed.

Lemma remediate_links_empty_link_becomes_generic_witness :
  get_text_strip (Elem "a" [] [Text "  "]) = ""
  /\ get_or_empty [] "href" = ""
  /\ remediate_link_node (Elem "a" [] [Text "  "]) = Elem "a" [] [Text "Link"]
  /\ link_issues (remediate_link_node (Elem "a" [] [Text "  "]))
     = [("Generic link text: " ++ PyMore.dquote ++ "Link" ++ PyMore.dquote)%string].
Proof.
  split; [reflexivity|]. split; [reflexivity|].
  apply (remediate_links_empty_link_becomes_generic [] [Text "  "]); reflexivity.
Defined.

(** X26. A link text that the link check of the HTML checker takes for
    generic is generic for the PDF remediator too. *)
Theorem generic_for_checker_is_generic_for_remediator :
  forall (text url : string) (p : nat) (d : bool),
    PyStr.mem (PyStr.lower text) generic_texts = true ->
    LinkInfo.is_generic_link_text (LinkInfo.mk text url p d) = true.
Proof.
  intros text url p d H. unfold LinkInfo.is_generic_link_text. cbn [LinkInfo.text].
  unfold PyStr.mem in H. apply existsb_exists in H. destruct H as [g [Hg E]].
  apply String.eqb_eq in E. rewrite E.
  cbn in Hg. repeat (destruct Hg as [<-|Hg]; [reflexivity|]). destruct Hg.
Qed.

Lemma generic_for_checker_is_generic_for_remediator_witness :
  PyStr.mem (PyStr.lower "Click Here") generic_texts = true
  /\ LinkInfo.is_generic_link_text (LinkInfo.mk "Click Here" "" 1 false) = true.
Proof.
  split; [reflexivity|].
  apply (generic_for_checker_is_generic_for_remediator "Click Here" "" 1 false). reflexivity.
Defined.

End LinkQuirk.

Section Landmarks.
Import Html HtmlRepair AccessibilityChecker HtmlChecker.

Lemma is_named_names names (n m : node) :
  name_of n = name_of m -> (exists a c, n = Elem (name_of n) a c) ->
  (exists a c, m = Elem (name_of m) a c) -> is_named names n = is_named names m.
Proof. intros E [a [c ->]] [a' [c' ->]]. cbn in *. now rewrite E. Qed.

(** What [update_first] does to the list of the nodes with the names
    [names], for a change [f] that keeps the name *)
Lemma update_first_filter (names : list string) (f : node -> node) :
  (forall n, is_named names (f n) = is_named names n) ->
  forall n,
    match update_first (is_named names) f n with
    | Some n' =>
        hd_error (filter (is_named names) (nodes n'))
        = option_map f (hd_error (filter (is_named names) (nodes n)))
        /\ hd_error (filter (is_named names) (nodes n)) <> None
        /\ is_named names n' = is_named names n
    | None => filter (is_named names) (nodes n) = []
    end.
Proof.
  intros Hf. induction n as [s|s|name attrs children IH] using node_ind'.
  - reflexivity.
  - reflexivity.
  - cbn [update_first].
    destruct (is_named names (Elem name attrs children)) eqn:P.
    + rewrite nodes_Elem. cbn [filter]. rewrite P. cbn [hd_error option_map].
      destruct (nodes_head (f (Elem name attrs children))) as [r ->].
      cbn [filter]. rewrite Hf, P. cbn. repeat split; auto. discriminate.
    + assert (L : match update_first_of (update_first (is_named names) f) children with
                  | Some cs' =>
                      hd_error (filter (is_named names) (nodes_list cs'))
                      = option_map f (hd_error (filter (is_named names) (nodes_list children)))
                      /\ hd_error (filter (is_named names) (nodes_list children)) <> None
                  | None => filter (is_named names) (nodes_list children) = []
                  end).
      { clear P. induction IH as [|c r Hc Hr IHr]; [reflexivity|].
        cbn [update_first_of]. rewrite !nodes_list_cons, !filter_app.
        destruct (update_first (is_named names) f c) as [c'|].
        - destruct Hc as [H1 [H2 _]]. rewrite nodes_list_cons, filter_app.
          destruct (filter (is_named names) (nodes c)) as [|x xs]; [contradiction|].
          destruct (filter (is_named names) (nodes c')) as [|x' xs']; [discriminate|].
          cbn in *. split; [exact H1|discriminate].
        - rewrite Hc. cbn [app].
          destruct (update_first_of (update_first (is_named names) f) r) as [r'|];
            cbn [option_map].
          + rewrite nodes_list_cons, filter_app, Hc. exact IHr.
          + exact IHr. }
      destruct (update_first_of (update_first (is_named names) f) children) as [cs'|];
        cbn [option_map].
      * rewrite !nodes_Elem. cbn [filter]. rewrite P.
        assert (P' : is_named names (Elem name attrs cs') = false) by exact P.
        rewrite P'. destruct L as [L1 L2]. repeat split; auto.
      * rewrite nodes_Elem. cbn [filter]. rewrite P. exact L.
Qed.

Lemma update_first_list_find (name : string) (f : node -> node) (soup : Html.t) :
  (forall n, is_named [name] (f n) = is_named [name] n) ->
  match update_first_list (is_named [name]) f soup with
  | Some soup' => find name soup' = option_map f (find name soup) /\ find name soup <> None
  | None => find name soup = None
  end.
Proof.
  intros Hf. unfold update_first_list, find, find_all.
  induction soup as [|c r IH]; [reflexivity|].
  cbn [update_first_of]. rewrite !nodes_list_cons, !filter_app.
  pose proof (update_first_filter [name] f Hf c) as Hc.
  destruct (update_first (is_named [name]) f c) as [c'|].
  - destruct Hc as [H1 [H2 _]]. rewrite nodes_list_cons, filter_app.
    destruct (filter (is_named [name]) (nodes c)) as [|x xs]; [contradiction|].
    destruct (filter (is_named [name]) (nodes c')) as [|x' xs']; [discriminate|].
    cbn in *. split; [exact H1|discriminate].
  - rewrite Hc. cbn [app].
    destruct (update_first_of (update_first (is_named [name]) f) r) as [r'|];
      cbn [option_map].
    + rewrite nodes_list_cons, filter_app, Hc. exact IH.
    + exact IH.
Qed.

Lemma add_main_role_named names n : is_named names (add_main_role n) = is_named names n.
Proof. destruct n; reflexivity. Qed.

Lemma add_main_role_has_role n :
  is_named ["main"] n = true -> lacks (attrs_of (add_main_role n)) "role" = false.
Proof.
  destruct n as [s|s|name attrs children]; try discriminate. intros _.
  cbn [add_main_role attrs_of]. destruct (lacks attrs "role") eqn:L; [|exact L].
  apply lacks_set_attr. discriminate.
Qed.

(** X27. After [add_aria_landmarks] the landmark check passes exactly
    when the document has a [main] element; the warning about a [main]
    without role is never left. *)
Theorem add_aria_landmarks_then_check :
  forall (self : AccessibilityChecker.t) (soup : Html.t),
    check_aria_landmarks self (add_aria_landmarks soup)
    = match find "main" soup with
      | Some _ => add_passed_check self "1.3.1" "Main landmark properly defined"
      | None =>
          add_issue self "1.3.1" "Missing Main Landmark" "No &lt;main&gt; element found."
            "error" "unknown"
      end.
Proof.
  intros self soup. unfold check_aria_landmarks, add_aria_landmarks.
  pose proof (update_first_list_find "main" add_main_role soup
                (add_main_role_named ["main"])) as U.
  destruct (update_first_list (is_named ["main"]) add_main_role soup) as [soup'|].
  - destruct U as [U1 U2]. rewrite U1.
    destruct (find "main" soup) as [m|] eqn:E; [|contradiction].
    cbn [option_map]. apply find_Some in E. destruct E as [_ E].
    now rewrite add_main_role_has_role.
  - rewrite U. reflexivity.
Qed.

End Landmarks.

Section SkipNavigation.
Import Html HtmlRepair AccessibilityChecker HtmlChecker.

(** The changed node is in the new tree *)
Lemma update_first_In (p : node -> bool) (f : node -> node) :
  forall n n', update_first p f n = Some n' ->
               exists m, p m = true /\ In (f m) (nodes n').
Proof.
  induction n as [s|s|name attrs children IH] using node_ind'; intros n' H.
  - cbn in H. destruct (p (Text s)) eqn:P; [|discriminate]. injection H as <-.
    exists (Text s). split; [exact P|apply nodes_self].
  - cbn in H. destruct (p (Comment s)) eqn:P; [|discriminate]. injection H as <-.
    exists (Comment s). split; [exact P|apply nodes_self].
  - cbn [update_first] in H. destruct (p (Elem name attrs children)) eqn:P.
    + injection H as <-. exists (Elem name attrs children). split; [exact P|apply nodes_self].
    + destruct (update_first_of (update_first p f) children) as [cs'|] eqn:U; [|discriminate].
      injection H as <-. clear P.
      assert (L : exists m, p m = true /\ In (f m) (nodes_list cs')).
      { revert cs' U. induction IH as [|c r Hc Hr IHr]; intros cs' U; [discriminate|].
        cbn [update_first_of] in U. destruct (update_first p f c) as [c'|] eqn:Uc.
        - injection U as <-. destruct (Hc c' eq_refl) as [m [Pm Hm]].
          exists m. split; [exact Pm|]. rewrite nodes_list_cons. apply in_or_app. now left.
        - destruct (update_first_of (update_first p f) r) as [r'|]; [|discriminate].
          injection U as <-. destruct (IHr r' eq_refl) as [m [Pm Hm]].
          exists m. split; [exact Pm|]. rewrite nodes_list_cons. apply in_or_app. now right. }
      destruct L as [m [Pm Hm]]. exists m. split; [exact Pm|].
      rewrite nodes_Elem. now right.
Qed.

Lemma update_first_list_In (p : node -> bool) (f : node -> node) (l l' : list node) :
  update_first_list p f l = Some l' ->
  exists m, p m = true /\ In (f m) (nodes_list l').
Proof.
  unfold update_first_list. revert l'. induction l as [|c r IH]; intros l' U; [discriminate|].
  cbn [update_first_of] in U. destruct (update_first p f c) as [c'|] eqn:Uc.
  - injection U as <-. destruct (update_first_In p f c c' Uc) as [m [Pm Hm]].
    exists m. split; [exact Pm|]. rewrite nodes_list_cons. apply in_or_app. now left.
  - destruct (update_first_of (update_first p f) r) as [r'|]; [|discriminate].
    injection U as <-. destruct (IH r' eq_refl) as [m [Pm Hm]].
    exists m. split; [exact Pm|]. rewrite nodes_list_cons. apply in_or_app. now right.
Qed.

Lemma update_first_None (p : node -> bool) (f : node -> node) :
  forall n, (forall y, In y (nodes n) -> p y = false) -> update_first p f n = None.
Proof.
  induction n as [s|s|name attrs children IH] using node_ind'; intros H.
  - cbn. now rewrite (H _ (nodes_self _)).
  - cbn. now rewrite (H _ (nodes_self _)).
  - cbn [update_first]. rewrite (H _ (nodes_self _)).
    assert (L : update_first_of (update_first p f) children = None).
    { assert (Hc : forall y, In y (nodes_list children) -> p y = false).
      { intros y Hy. apply H. rewrite nodes_Elem. now right. }
      clear H. induction IH as [|c r Hc' Hr IHr]; [reflexivity|].
      cbn [update_first_of]. rewrite Hc', IHr; [reflexivity| |].
      - intros y Hy. apply Hc. rewrite nodes_list_cons. apply in_or_app. now right.
      - intros y Hy. apply Hc. rewrite nodes_list_cons. apply in_or_app. now left. }
    now rewrite L.
Qed.

(** A node without a match at or below it stays in the tree, when the
    change keeps what is below the node it changes *)
Lemma update_first_keeps (p : node -> bool) (f : node -> node) (x : node) :
  (forall m y, In y (nodes m) -> In y (nodes (f m)) \/ y = m) ->
  (forall y, In y (nodes x) -> p y = false) ->
  forall n n', update_first p f n = Some n' -> In x (nodes n) -> In x (nodes n').
Proof.
  intros Hf Hx. induction n as [s|s|name attrs children IH] using node_ind'; intros n' H Hin.
  - destruct Hin as [<-|[]]. rewrite update_first_None in H by exact Hx. discriminate.
  - destruct Hin as [<-|[]]. rewrite update_first_None in H by exact Hx. discriminate.
  - cbn [update_first] in H. destruct (p (Elem name attrs children)) eqn:P.
    + injection H as <-. destruct (Hf _ _ Hin) as [Hy| ->]; [exact Hy|].
      rewrite (Hx _ (nodes_self _)) in P. discriminate.
    + destruct (update_first_of (update_first p f) children) as [cs'|] eqn:U; [|discriminate].
      injection H as <-. rewrite nodes_Elem in Hin. destruct Hin as [<-|Hin].
      * pose proof (update_first_None p f _ Hx) as N. cbn [update_first] in N.
        rewrite P, U in N. discriminate.
      * rewrite nodes_Elem. right. clear P.
        revert cs' U Hin. induction IH as [|c r Hc Hr IHr]; intros cs' U Hin; [discriminate|].
        cbn [update_first_of] in U. rewrite nodes_list_cons in Hin.
        apply in_app_or in Hin.
        destruct (update_first p f c) as [c'|] eqn:Uc.
        -- injection U as <-. rewrite nodes_list_cons. apply in_or_app.
           destruct Hin as [Hin|Hin]; [left; now apply Hc|now right].
        -- destruct (update_first_of (update_first p f) r) as [r'|]; [|discriminate].
           injection U as <-. rewrite nodes_list_cons. apply in_or_app.
           destruct Hin as [Hin|Hin]; [now left|right; now apply IHr].
Qed.

Lemma update_first_list_keeps (p : node -> bool) (f : node -> node) (x : node) :
  (forall m y, In y (nodes m) -> In y (nodes (f m)) \/ y = m) ->
  (forall y, In y (nodes x) -> p y = false) ->
  forall l l', update_first_list p f l = Some l' -> In x (nodes_list l) -> In x (nodes_list l').
Proof.
  intros Hf Hx. unfold update_first_list.
  induction l as [|c r IH]; intros l' U Hin; [discriminate|].
  cbn [update_first_of] in U. rewrite nodes_list_cons in Hin. apply in_app_or in Hin.
  destruct (update_first p f c) as [c'|] eqn:Uc.
  - injection U as <-. rewrite nodes_list_cons. apply in_or_app.
    destruct Hin as [Hin|Hin]; [left; eapply update_first_keeps; eauto|now right].
  - destruct (update_first_of (update_first p f) r) as [r'|]; [|discriminate].
    injection U as <-. rewrite nodes_list_cons. apply in_or_app.
    destruct Hin as [Hin|Hin]; [now left|right; now apply IH].
Qed.

Lemma add_main_id_keeps m y : In y (nodes m) -> In y (nodes (add_main_id m)) \/ y = m.
Proof.
  destruct m as [s|s|name attrs children]; cbn [add_main_id]; [now left|now left|].
  rewrite !nodes_Elem. intros [<-|H]; [now right|left; now right].
Qed.

Lemma insert_skip_link_named names n : is_named names (insert_skip_link n) = is_named names n.
Proof. destruct n; reflexivity. Qed.

(** X28. For a document with a [body] and without a link of the class
    "skip-link", the skip-navigation check passes after
    [add_skip_navigation]. *)
Theorem add_skip_navigation_then_check :
  forall (self : AccessibilityChecker.t) (soup : Html.t),
    find "body" soup <> None ->
    has_skip_link_class soup = false ->
    check_skip_navigation self (add_skip_navigation soup)
    = add_passed_check self "2.4.1" "Skip navigation link present".
Proof.
  intros self soup Hb Hc.
  assert (S : In skip_link (skip_links (add_skip_navigation soup))).
  { unfold add_skip_navigation. destruct (find "body" soup) as [b|] eqn:Eb; [|contradiction].
    rewrite Hc.
    pose proof (update_first_list_find "body" insert_skip_link soup
                  (insert_skip_link_named ["body"])) as U.
    destruct (update_first_list (is_named ["body"]) insert_skip_link soup) as [soup1|] eqn:U1;
      [|congruence].
    assert (S1 : In skip_link (nodes_list soup1)).
    { destruct (update_first_list_In _ _ _ _ U1) as [m [Pm Hm]].
      destruct m as [s|s|name attrs children]; try discriminate.
      apply nodes_list_In in Hm. destruct Hm as [c [Hc' Hm]].
      apply nodes_list_In. exists c. split; [exact Hc'|].
      eapply nodes_trans; [exact Hm|]. cbn [insert_skip_link]. rewrite nodes_Elem.
      right. rewrite nodes_list_cons. apply in_or_app. left. apply nodes_self. }
    assert (S2 : forall soup2,
               match update_first_list (is_named ["main"]) add_main_id soup1 with
               | Some soup' => soup'
               | None => soup1
               end = soup2 -> In skip_link (nodes_list soup2)).
    { intros soup2 <-.
      destruct (update_first_list (is_named ["main"]) add_main_id soup1) as [soup'|] eqn:U2;
        [|exact S1].
      eapply update_first_list_keeps; [apply add_main_id_keeps| |exact U2|exact S1].
      intros y [<-|[<-|[]]]; reflexivity. }
    unfold skip_links. apply filter_In. split; [|reflexivity].
    apply find_all_In. split; [|reflexivity]. now apply S2. }
  unfold check_skip_navigation.
  destruct (skip_links (add_skip_navigation soup)); [destruct S|reflexivity].
Qed.

Lemma add_skip_navigation_then_check_witness :
  find "body" page_doc <> None
  /\ has_skip_link_class page_doc = false
  /\ check_skip_navigation empty_checker (add_skip_navigation page_doc)
     = add_passed_check empty_checker "2.4.1" "Skip navigation link present".
Proof.
  split; [cbv; discriminate|]. split; [reflexivity|].
  apply (add_skip_navigation_then_check empty_checker page_doc);
    [cbv; discriminate|reflexivity].
Defined.

End SkipNavigation.

(** ** The reading order *)
Section ReadingOrderFacts.
Import ReadingOrder.

Lemma nth_error_enumerate {A} (l : list A) :
  forall k i, nth_error (combine (seq k (List.length l)) l) i
              = option_map (fun x => (k + i, x)) (nth_error l i).
Proof.
  induction l as [|y r IH]; intros k i; [destruct i; reflexivity|].
  cbn [List.length seq combine]. destruct i as [|i]; cbn [nth_error option_map].
  - now rewrite Nat.add_0_r.
  - rewrite IH. destruct (nth_error r i); cbn; [|reflexivity]. do 2 f_equal. lia.
Qed.

Lemma set_page_nth (ps : list page) (i : nat) :
  nth_error (map set_page (Pdf.enumerate1 ps)) i
  = option_map (fun p => set_page (1 + i, p)) (nth_error ps i).
Proof.
  unfold Pdf.enumerate1. rewrite nth_error_map, nth_error_enumerate.
  now destruct (nth_error ps i).
Qed.

Lemma set_page_twice (ps : list page) :
  map set_page (Pdf.enumerate1 (map set_page (Pdf.enumerate1 ps)))
  = map set_page (Pdf.enumerate1 ps).
Proof.
  apply nth_error_ext. intros i. rewrite !set_page_nth.
  destruct (nth_error ps i) as [p|]; [|reflexivity]. cbn [option_map]. f_equal.
  unfold set_page. cbn. now destruct (StructParents p).
Qed.

(** X29. After [set_reading_order] the reading-order check reports
    nothing: every page has [/Tabs] set to [S], a page that had
    [/StructParents] keeps its value and any other page gets its position
    counted from 0.  A second call returns [True] again and leaves the
    pages as they are, but it records the fix a second time. *)
Theorem set_reading_order_then_check :
  forall self : t,
    _check_reading_order (snd (set_reading_order self)) = []
    /\ (forall i p,
          nth_error (pages self) i = Some p ->
          nth_error (pages (snd (set_reading_order self))) i
          = Some (mk_page (match StructParents p with
                           | Some k => Some k
                           | None => Some (Z.of_nat i)
                           end)
                          (Some "S")))
    /\ List.length (pages (snd (set_reading_order self))) = List.length (pages self)
    /\ pages (snd (set_reading_order (snd (set_reading_order self))))
       = pages (snd (set_reading_order self))
    /\ fst (set_reading_order (snd (set_reading_order self))) = true
    /\ List.length (issues_fixed (snd (set_reading_order (snd (set_reading_order self)))))
       = List.length (issues_fixed self) + 2.
Proof.
  intros self. cbn [set_reading_order snd fst pages]. split; [|split; [|split; [|split; [|split]]]].
  - unfold _check_reading_order. cbn [pages].
    replace (existsb _ _) with false; [reflexivity|]. symmetry.
    apply not_true_is_false. intros H. apply existsb_exists in H.
    destruct H as [p [Hp Ht]]. apply in_map_iff in Hp. destruct Hp as [[n q] [<- _]].
    discriminate.
  - intros i p Hp. rewrite set_page_nth, Hp. cbn [option_map set_page]. do 2 f_equal.
    destruct (StructParents p); [reflexivity|]. f_equal. lia.
  - unfold Pdf.enumerate1. rewrite length_map, length_combine, length_seq. lia.
  - apply set_page_twice.
  - reflexivity.
  - cbn [issues_fixed]. rewrite !length_app. cbn [List.length]. lia.
Qed.

End ReadingOrderFacts.
